(** * Cross-chain interop relay scripts: waiters and relay flow

    A shallow embedding of the two relay scripts of the repository,
    [scripts/interop-test.ts] and its plain JavaScript sibling, and the
    properties of their polling waiters and of the relay flow.

    How the scripts are rendered:
    - a JavaScript string is a [string] of ASCII characters (every string
      the scripts compare is hexadecimal text), [===] on strings is
      [String.eqb], a template literal is a concatenation;
    - a JavaScript number that holds an integer (block numbers, log indices,
      milliseconds) is a [Z]; a [bigint] is a [Z] as well;
    - [null] and [undefined] are [None];
    - an [async] function is a computation of type [Async A]: it reads the
      history of what the process has done so far, and yields an [Outcome]
      (the promise fulfilled, rejected, or still pending when the fuel of an
      unbounded loop ran out) together with the events it emitted;
    - everything outside the script (the two chain endpoints, the file
      system, timers) is the [Host]: an [oracle] that answers every request
      from the history of the run, so that an endpoint may answer the same
      question differently each time it is asked;
    - [console.log] output is left out: it decides nothing. *)

From Stdlib Require Import String Ascii List ZArith Bool Lia Arith.
From coqutil Require Import Word.LittleEndianList.
Import ListNotations.

Local Open Scope string_scope.
Local Open Scope list_scope.
Local Open Scope Z_scope.

(** ** JavaScript values used by the scripts *)

Module Js.

(** [new Error(message)]. *)
Inductive Error : Type := mkError (message : string).

Definition message (e : Error) : string := let 'mkError m := e in m.

(** A settled call into a library or an endpoint: it returned, or threw. *)
Inductive Reply (A : Type) : Type :=
| Returned (a : A)
| Thrown (e : Error).
Arguments Returned {A} a.
Arguments Thrown {A} e.

(** [String.prototype.toLowerCase] on ASCII text. *)
Definition lower_ascii (c : ascii) : ascii :=
  let n := nat_of_ascii c in
  if ((65 <=? n) && (n <=? 90))%nat then ascii_of_nat (n + 32) else c.

Fixpoint toLowerCase (s : string) : string :=
  match s with
  | EmptyString => EmptyString
  | String c s' => String (lower_ascii c) (toLowerCase s')
  end.

(** Truthiness of a string: only the empty string is falsy. *)
Definition truthy (s : string) : bool := negb (s =? "")%string.

(** [String.prototype.repeat]. *)
Fixpoint repeat (s : string) (n : nat) : string :=
  match n with
  | O => ""
  | S n' => (s ++ repeat s n')%string
  end.

(** [arr?.[i]] for an array that may be undefined and an integer index. *)
Definition index {A : Type} (arr : option (list A)) (i : Z) : option A :=
  match arr with
  | None => None
  | Some l => if i <? 0 then None else nth_error l (Z.to_nat i)
  end.

(** [a ?? b]. *)
Definition nullish {A : Type} (a b : option A) : option A :=
  match a with
  | Some x => Some x
  | None => b
  end.

End Js.

Import Js.

(** ** Data model: what the endpoints hand back *)

Module Provider.
Record t : Type := mk { rpcUrl : string; pollingInterval : Z }.
End Provider.

Module Wallet.
Record t : Type := mk { privateKey : string; provider : Provider.t; address : string }.
End Wallet.

(** What a contract object sends its calls through. *)
Inductive Runner : Type :=
| ViaProvider (p : Provider.t)
| ViaWallet (w : Wallet.t).

Module Contract.
Record t : Type := mk { target : string; runner : Runner }.
End Contract.

Module Block.
Record t : Type := mk { number : Z }.
End Block.

Module LogProof.
Record t : Type :=
  mk { id : Z; batch_number : Z; root : string; proof : list string }.
End LogProof.

Module Log.
Record t : Type := mk { address : string; topics : list string; data : string }.
End Log.

Module L2ToL1Log.
Record t : Type := mk { sender : string; data : string }.
End L2ToL1Log.

Module Receipt.
Record t : Type :=
  mk { hash : string;
       blockNumber : Z;
       index : Z;
       from : string;
       logs : option (list Log.t);
       l2ToL1Logs : option (list L2ToL1Log.t) }.
End Receipt.

Module Tx.
Record t : Type := mk { hash : string }.
End Tx.

(** Gas overrides passed with a transaction. *)
Module Overrides.
Record t : Type :=
  mk { gasLimit : Z; maxFeePerGas : Z; maxPriorityFeePerGas : Z }.
End Overrides.

Module FeeData.
Record t : Type :=
  mk { maxFeePerGas : option Z; maxPriorityFeePerGas : option Z }.
End FeeData.

Module Artifact.
(** [bytecode] is the value of [artifact.bytecode?.object ?? artifact.bytecode]. *)
Record t : Type := mk { abi : string; bytecode : string }.
End Artifact.

(** A hexadecimal string or a byte array, where the library takes either. *)
Inductive BytesLike : Type :=
| Hex (s : string)
| Bytes (b : list Byte.byte).

(** The message the destination verifies, and the proof record around it. *)
Module Message.
Record t : Type := mk { txNumberInBatch : Z; sender : string; data : BytesLike }.
End Message.

Module InclusionProof.
Record t : Type :=
  mk { chainId : Z;
       l1BatchNumber : Z;
       l2MessageIndex : Z;
       message : Message.t;
       proof : list string }.
End InclusionProof.

(** The transported bundle, as the emission event carries it. Byte strings
    are lists of bytes, numbers are integers. *)
Module InteropCall.
Record t : Type :=
  mk { version : list Byte.byte;
       shadowAccount : bool;
       to : Z;
       from : Z;
       value : Z;
       data : list Byte.byte }.
End InteropCall.

Module BundleAttributes.
Record t : Type :=
  mk { executionAddress : list Byte.byte; unbundlerAddress : list Byte.byte }.
End BundleAttributes.

Module InteropBundle.
Record t : Type :=
  mk { version : list Byte.byte;
       sourceChainId : Z;
       destinationChainId : Z;
       interopBundleSalt : list Byte.byte;
       calls : list InteropCall.t;
       bundleAttributes : BundleAttributes.t }.
End InteropBundle.

(** A log as [Interface.parseLog] describes it: the event's name and, for
    the bundle emission event, its [interopBundle] argument. *)
Module LogDescription.
Record t : Type := mk { name : string; interopBundle : InteropBundle.t }.
End LogDescription.

(** ** Requests to the outside world

    One constructor per asynchronous call of the scripts; the index is the
    type of what the promise resolves to. *)

Inductive Request : Type -> Type :=
(* fs.readFileSync + JSON.parse of an artifact (loadArtifact) *)
| loadArtifact (artifactPath : string) : Request Artifact.t
(* factory.deploy(initialGreeting) *)
| deploy (w : Wallet.t) (a : Artifact.t) (initialGreeting : string) : Request Contract.t
| waitForDeployment (c : Contract.t) : Request unit
| getAddress (c : Contract.t) : Request string
(* (await provider.getNetwork()).chainId *)
| getNetwork (p : Provider.t) : Request Z
| getFeeData (p : Provider.t) : Request FeeData.t
(* interopCenter.sendMessage(recipient, payload, attributes, overrides) *)
| sendMessage (c : Contract.t) (recipient payload : string)
    (attributes : list string) (o : Overrides.t) : Request Tx.t
(* messenger.sendToL1.estimateGas(data) and messenger.sendToL1(data, overrides) *)
| estimateGas_sendToL1 (c : Contract.t) (data : list Byte.byte) : Request Z
| sendToL1 (c : Contract.t) (data : list Byte.byte) (o : Overrides.t) : Request Tx.t
(* tx.wait() *)
| wait (tx : Tx.t) : Request (option Receipt.t)
(* provider.getBlock(tag) *)
| getBlock (p : Provider.t) (blockTag : string) : Request (option Block.t)
(* provider.getLogProof(txHash, index) *)
| getLogProof (p : Provider.t) (txHash : string) (index : Z) : Request (option LogProof.t)
(* contract.interopRoots(chainId, batchNumber) *)
| interopRoots (c : Contract.t) (chainId batchNumber : Z) : Request string
(* interopHandler.executeBundle(bundleBytes, proof, overrides) *)
| executeBundle (c : Contract.t) (bundleBytes : list Byte.byte)
    (proof : InclusionProof.t) (o : Overrides.t) : Request Tx.t
(* verifier.proveL2MessageInclusionShared(chainId, batch, index, message, proof) *)
| proveL2MessageInclusionShared (c : Contract.t) (chainId batchNumber index : Z)
    (m : Message.t) (proof : list string) : Request bool.

(** What the process has done: a call with the reply it got, or a timer. *)
Inductive Event : Type :=
| Call (R : Type) (q : Request R) (r : Reply R)
| Sleep (ms : Z).
Arguments Call {R} q r.

Definition Trace : Type := list Event.

(** The pure library functions the scripts call; each may throw. *)

Module Ethers.
Record t : Type :=
  mk { getBytes : BytesLike -> Reply (list Byte.byte);
       toBeHex : Z -> Reply string;
       zeroPadValue : BytesLike -> Z -> Reply string;
       concat : list BytesLike -> Reply string;
       hexlify : BytesLike -> Reply string;
       toUtf8Bytes : string -> list Byte.byte;
       encodeFunctionData : string -> string -> list string -> Reply string;
       parseLog : Log.t -> Reply (option LogDescription.t);
       abiEncode : string -> InteropBundle.t -> Reply (list Byte.byte);
       computeAddress : string -> Reply string;
       defaultPollingInterval : Z }.
End Ethers.

(** The world a script runs in. *)
Module Host.
Record t : Type :=
  mk { process_env : string -> option string;
       Greet : Artifact.t;
       ethers : Ethers.t;
       oracle : Trace -> forall R : Type, Request R -> Reply R }.
End Host.

(** ** Asynchronous computations *)

Inductive Outcome (A : Type) : Type :=
| Fulfilled (a : A)
| Rejected (e : Error)
| Pending.
Arguments Fulfilled {A} a.
Arguments Rejected {A} e.
Arguments Pending {A}.

(** A computation is run by a host after a history; it yields its outcome
    and the events it added, oldest first. *)
Definition Async (A : Type) : Type := Host.t -> Trace -> Outcome A * Trace.

Definition ret {A : Type} (a : A) : Async A :=
  fun _ _ => (Fulfilled a, []).

Definition throw {A : Type} (e : Error) : Async A :=
  fun _ _ => (Rejected e, []).

(** A loop that has not finished when the fuel of the model ran out. *)
Definition pending {A : Type} : Async A :=
  fun _ _ => (Pending, []).

Definition bind {A B : Type} (m : Async A) (f : A -> Async B) : Async B :=
  fun host h =>
    match m host h with
    | (Fulfilled a, t1) =>
        let '(o, t2) := f a host (h ++ t1) in (o, t1 ++ t2)
    | (Rejected e, t1) => (Rejected e, t1)
    | (Pending, t1) => (Pending, t1)
    end.

(** [try { m } catch { handler }]. *)
Definition try_catch {A : Type} (m : Async A) (handler : Error -> Async A) : Async A :=
  fun host h =>
    match m host h with
    | (Rejected e, t1) =>
        let '(o, t2) := handler e host (h ++ t1) in (o, t1 ++ t2)
    | other => other
    end.

(** [await] of a call to the outside world. *)
Definition await {R : Type} (q : Request R) : Async R :=
  fun host h =>
    let r := Host.oracle host h R q in
    (match r with Returned a => Fulfilled a | Thrown e => Rejected e end, [Call q r]).

(** [await new Promise((res) => setTimeout(res, ms))]. *)
Definition sleep (ms : Z) : Async unit :=
  fun _ _ => (Fulfilled tt, [Sleep ms]).

(** A synchronous library call. *)
Definition lift {A : Type} (f : Ethers.t -> Reply A) : Async A :=
  fun host _ =>
    (match f (Host.ethers host) with Returned a => Fulfilled a | Thrown e => Rejected e end, []).

(** Reading a value the process holds from its start: an environment
    variable, a module loaded by [require]. *)
Definition global {A : Type} (f : Host.t -> A) : Async A :=
  fun host _ => (Fulfilled (f host), []).

Definition getenv (name : string) : Async (option string) :=
  global (fun host => Host.process_env host name).

Declare Scope async_scope.
Delimit Scope async_scope with async.
Notation "x <- m ;; k" := (bind m (fun x => k))
  (at level 61, m at next level, right associativity) : async_scope.
Notation "m ;; k" := (bind m (fun _ => k))
  (at level 61, right associativity) : async_scope.
Local Open Scope async_scope.

Definition outcome {A : Type} (r : Outcome A * Trace) : Outcome A := fst r.
Definition emitted {A : Type} (r : Outcome A * Trace) : Trace := snd r.

(** ** The TypeScript relay script: [scripts/interop-test.ts] *)

Module InteropTest.

Definition L2_INTEROP_CENTER_ADDRESS : string := "0x0000000000000000000000000000000000010010".
Definition L2_INTEROP_HANDLER_ADDRESS : string := "0x000000000000000000000000000000000001000d".
Definition L2_INTEROP_ROOT_STORAGE : string := "0x0000000000000000000000000000000000010008".

(** [ethers.ZeroAddress]. *)
Definition ZeroAddress : string := "0x0000000000000000000000000000000000000000".

Definition POLL_INTERVAL : Z := 100.
Definition DEFAULT_TIMEOUT : Z := 60000.

(** [Math.floor(DEFAULT_TIMEOUT / POLL_INTERVAL)], the initial value of
    [retries]. *)
Definition initial_retries : nat := Z.to_nat (DEFAULT_TIMEOUT / POLL_INTERVAL).

(** The guard of the root waiter:
    [root && root !== ethers.ZeroAddress && root !== `0x${"00".repeat(32)}`]. *)
Definition root_is_set (root : option string) : bool :=
  match root with
  | None => false
  | Some r =>
      truthy r && negb (r =? ZeroAddress)%string
               && negb (r =? "0x" ++ Js.repeat "00" 32)%string
  end.

Definition root_mismatch (expectedRoot root : string) : Error :=
  mkError ("Interop root mismatch: expected " ++ expectedRoot ++ ", got " ++ root)%string.


Definition root_timeout : Error :=
  mkError "Interop root did not become available in time".

(** The [while (retries > 0)] loop of [waitUntilRootBecomesAvailable],
    by recursion on [retries]. *)
Fixpoint root_loop (contract : Contract.t) (chainId batchNumber : Z)
    (expectedRoot : string) (retries : nat) : Async unit :=
  match retries with
  | O => throw root_timeout
  | S retries' =>
      root <- try_catch
                (r <- await (interopRoots contract chainId batchNumber) ;; ret (Some r))
                (fun _ => ret None) ;;
      let again :=
        sleep POLL_INTERVAL ;;
        root_loop contract chainId batchNumber expectedRoot retries' in
      match root with
      | Some r =>
          if root_is_set root then
            if (toLowerCase r =? toLowerCase expectedRoot)%string
            then ret tt
            else throw (root_mismatch expectedRoot r)
          else again
      | None => again
      end
  end.

Definition waitUntilRootBecomesAvailable (provider : Provider.t)
    (chainId batchNumber : Z) (expectedRoot : string) : Async unit :=
  let contract := Contract.mk L2_INTEROP_ROOT_STORAGE (ViaProvider provider) in
  root_loop contract chainId batchNumber expectedRoot initial_retries.

Definition finality_timeout : Error := mkError "Block was not finalized in time".

(** The [while (retries > 0)] loop of [waitUntilBlockFinalized]. *)
Fixpoint finality_loop (provider : Provider.t) (blockNumber : Z)
    (retries : nat) : Async unit :=
  match retries with
  | O => throw finality_timeout
  | S retries' =>
      executedBlock <- try_catch
                (block <- await (getBlock provider "finalized") ;;
                 ret (match block with Some b => Block.number b | None => 0 end))
                (fun _ => ret 0) ;;
      if executedBlock >=? blockNumber then ret tt
      else
        sleep POLL_INTERVAL ;;
        finality_loop provider blockNumber retries'
  end.

Definition waitUntilBlockFinalized (provider : Provider.t) (blockNumber : Z) : Async unit :=
  finality_loop provider blockNumber initial_retries.

(** The loop [while ((await provider.getLogProof(txHash, 0)) == null)] has
    no counter of its own: [fuel] bounds the iterations the model follows,
    and a run that uses it up is still [Pending]. *)
Fixpoint proof_loop (fuel : nat) (provider : Provider.t) (txHash : string) : Async unit :=
  match fuel with
  | O => pending
  | S fuel' =>
      logProof <- await (getLogProof provider txHash 0) ;;
      match logProof with
      | None =>
          sleep (Provider.pollingInterval provider) ;;
          proof_loop fuel' provider txHash
      | Some _ => ret tt
      end
  end.

Definition waitForL2ToL1LogProof (fuel : nat) (provider : Provider.t)
    (blockNumber : Z) (txHash : string) : Async unit :=
  waitUntilBlockFinalized provider blockNumber ;;
  proof_loop fuel provider txHash.

Definition requireEnv (name : string) : Async string :=
  value <- getenv name ;;
  match value with
  | Some v =>
      if truthy v then ret v else throw (mkError ("Missing env var: " ++ name)%string)
  | None => throw (mkError ("Missing env var: " ++ name)%string)
  end.

Definition encodeEvmV1Address (chainId : Z) (address : string) : Async string :=
  version <- lift (fun e => Ethers.getBytes e (Hex "0x0001")) ;;
  chainHex <- lift (fun e => Ethers.toBeHex e chainId) ;;
  chainBytes <- lift (fun e => Ethers.zeroPadValue e (Hex chainHex) 6) ;;
  addressBytes <- lift (fun e => Ethers.getBytes e (Hex address)) ;;
  joined <- lift (fun e => Ethers.concat e [Bytes version; Hex chainBytes; Bytes addressBytes]) ;;
  lift (fun e => Ethers.hexlify e (Hex joined)).

Definition deployGreetContract (wallet : Wallet.t) (artifact : Artifact.t)
    (initialGreeting : string) : Async Contract.t :=
  contract <- await (deploy wallet artifact initialGreeting) ;;
  await (waitForDeployment contract) ;;
  ret contract.

(** [new Provider(url)] and [new Wallet(key, provider)]. *)
Definition newProvider (url : string) : Async Provider.t :=
  lift (fun e => Returned (Provider.mk url (Ethers.defaultPollingInterval e))).

Definition newWallet (key : string) (provider : Provider.t) : Async Wallet.t :=
  address <- lift (fun e => Ethers.computeAddress e key) ;;
  ret (Wallet.mk key provider address).

Definition overrides : Overrides.t := Overrides.mk 1000000 1000000000 0.

Definition bundleType : string :=
  ("tuple(bytes1 version,uint256 sourceChainId,uint256 destinationChainId,bytes32 interopBundleSalt," ++
   "tuple(bytes1 version,bool shadowAccount,address to,address from,uint256 value,bytes data)[] calls," ++
   "tuple(bytes executionAddress,bytes unbundlerAddress) bundleAttributes)")%string.

(** [(logs ?? []).map(log => { try { return parseLog(log) } catch { return null } })
      .find(parsed => parsed?.name === "InteropBundleSent")]. *)
Definition parsed_logs (e : Ethers.t) (logs : option (list Log.t)) : list (option LogDescription.t) :=
  map (fun log => match Ethers.parseLog e log with
                  | Returned parsed => parsed
                  | Thrown _ => None
                  end)
      (match logs with Some l => l | None => [] end).

Definition is_bundle_sent (parsed : option LogDescription.t) : bool :=
  match parsed with
  | Some d => (LogDescription.name d =? "InteropBundleSent")%string
  | None => false
  end.

Definition find_bundleEvent (e : Ethers.t) (logs : option (list Log.t)) : option LogDescription.t :=
  match find is_bundle_sent (parsed_logs e logs) with
  | Some found => found
  | None => None
  end.

(** [sendReceipt.l2ToL1Logs?.[logIndex] ?? sendReceipt.l2ToL1Logs?.[0]]. *)
Definition select_l2ToL1Log (sendReceipt : Receipt.t) (logIndex : Z) : option L2ToL1Log.t :=
  nullish (Js.index (Receipt.l2ToL1Logs sendReceipt) logIndex)
          (Js.index (Receipt.l2ToL1Logs sendReceipt) 0).

Definition missing_receipt : Error := mkError "Missing receipt for sendMessage transaction".
Definition missing_event : Error := mkError "InteropBundleSent event not found in receipt logs.".
Definition missing_proof : Error := mkError "Missing log proof for sendMessage transaction".
Definition missing_l2ToL1Log : Error :=
  mkError "Missing L2->L1 log in receipt; adjust log index selection.".

Definition main (fuel : nat) : Async unit :=
  PRIVATE_KEY <- requireEnv "PRIVATE_KEY" ;;
  L2_RPC_URL <- requireEnv "L2_RPC_URL" ;;
  L2_RPC_URL_SECOND <- requireEnv "L2_RPC_URL_SECOND" ;;
  greetPath <- getenv "GREET_ARTIFACT" ;;
  let GREET_ARTIFACT := match greetPath with Some v => v | None => "../deps/Greet.json" end in
  greetArtifact <- await (loadArtifact GREET_ARTIFACT) ;;
  providerA <- newProvider L2_RPC_URL ;;
  providerB <- newProvider L2_RPC_URL_SECOND ;;
  walletA <- newWallet PRIVATE_KEY providerA ;;
  walletB <- newWallet PRIVATE_KEY providerB ;;
  greetContract <- deployGreetContract walletB greetArtifact "gm" ;;
  greetAddress <- await (getAddress greetContract) ;;
  let interopCenter := Contract.mk L2_INTEROP_CENTER_ADDRESS (ViaWallet walletA) in
  destinationChainId <- await (getNetwork providerB) ;;
  recipient <- encodeEvmV1Address destinationChainId greetAddress ;;
  payload <- lift (fun e => Ethers.encodeFunctionData e
                              "function setGreeting(string)" "setGreeting" ["hello from source"]) ;;
  let attributes : list string := [] in
  sendTx <- await (sendMessage interopCenter recipient payload attributes overrides) ;;
  received <- await (wait sendTx) ;;
  match received with
  | None => throw missing_receipt
  | Some sendReceipt =>
      found <- lift (fun e => Returned (find_bundleEvent e (Receipt.logs sendReceipt))) ;;
      match found with
      | None => throw missing_event
      | Some bundleEvent =>
          let interopBundle := LogDescription.interopBundle bundleEvent in
          bundleBytes <- lift (fun e => Ethers.abiEncode e bundleType interopBundle) ;;
          waitForL2ToL1LogProof fuel providerA
            (Receipt.blockNumber sendReceipt) (Receipt.hash sendReceipt) ;;
          fetched <- await (getLogProof providerA (Receipt.hash sendReceipt) 0) ;;
          match fetched with
          | None => throw missing_proof
          | Some logProof =>
              let logIndex := LogProof.id logProof in
              match select_l2ToL1Log sendReceipt logIndex with
              | None => throw missing_l2ToL1Log
              | Some l2ToL1Log =>
                  proofChainId <- await (getNetwork providerA) ;;
                  let proof :=
                    InclusionProof.mk proofChainId
                      (LogProof.batch_number logProof)
                      (LogProof.id logProof)
                      (Message.mk (Receipt.index sendReceipt)
                                  (L2ToL1Log.sender l2ToL1Log)
                                  (Hex (L2ToL1Log.data l2ToL1Log)))
                      (LogProof.proof logProof) in
                  sourceChainId <- await (getNetwork providerA) ;;
                  waitUntilRootBecomesAvailable providerB sourceChainId
                    (LogProof.batch_number logProof) (LogProof.root logProof) ;;
                  let interopHandler :=
                    Contract.mk L2_INTEROP_HANDLER_ADDRESS (ViaWallet walletB) in
                  execTx <- await (executeBundle interopHandler bundleBytes proof overrides) ;;
                  execReceipt <- await (wait execTx) ;;
                  ret tt
              end
          end
      end
  end.

End InteropTest.

(** ** The JavaScript relay script (the second source file)

    Its waiters take a wallet and poll through [wallet.provider]; its flow
    sends an interop message, then an L2-to-L1 message whose inclusion it
    proves on the second chain. *)

Module Part000.

Definition L1_MESSENGER_ADDRESS : string := "0x0000000000000000000000000000000000008008".
Definition L2_MESSAGE_VERIFICATION_ADDRESS : string := "0x0000000000000000000000000000000000010009".
Definition INTEROP_CENTER_ADDRESS : string := "0x0000000000000000000000000000000000010010".
Definition L2_INTEROP_ROOT_STORAGE : string := "0x0000000000000000000000000000000000010008".

Definition ZeroAddress : string := "0x0000000000000000000000000000000000000000".

Definition POLL_INTERVAL : Z := 100.
Definition DEFAULT_TIMEOUT : Z := 60000.
Definition initial_retries : nat := Z.to_nat (DEFAULT_TIMEOUT / POLL_INTERVAL).

Definition root_is_set (root : option string) : bool :=
  match root with
  | None => false
  | Some r =>
      truthy r && negb (r =? ZeroAddress)%string
               && negb (r =? "0x0000000000000000000000000000000000000000000000000000000000000000")%string
  end.

Definition root_mismatch (expectedRoot root : string) : Error :=
  mkError ("Interop root mismatch: expected " ++ expectedRoot ++ ", got " ++ root)%string.

Definition root_timeout : Error :=
  mkError "Interop root did not become available in time".

Fixpoint root_loop (contract : Contract.t) (chainId batchNumber : Z)
    (expectedRoot : string) (retries : nat) : Async unit :=
  match retries with
  | O => throw root_timeout
  | S retries' =>
      root <- try_catch
                (r <- await (interopRoots contract chainId batchNumber) ;; ret (Some r))
                (fun e => ret None) ;;
      let again :=
        sleep POLL_INTERVAL ;;
        root_loop contract chainId batchNumber expectedRoot retries' in
      match root with
      | Some r =>
          if root_is_set root then
            if (toLowerCase r =? toLowerCase expectedRoot)%string
            then ret tt
            else throw (root_mismatch expectedRoot r)
          else again
      | None => again
      end
  end.

Definition waitUntilRootBecomesAvailable (wallet : Wallet.t)
    (chainId batchNumber : Z) (expectedRoot : string) : Async unit :=
  let contract :=
    Contract.mk L2_INTEROP_ROOT_STORAGE (ViaProvider (Wallet.provider wallet)) in
  root_loop contract chainId batchNumber expectedRoot initial_retries.

Definition finality_timeout : Error := mkError "Block was not finalized in time".

Fixpoint finality_loop (wallet : Wallet.t) (blockNumber : Z) (retries : nat) : Async unit :=
  match retries with
  | O => throw finality_timeout
  | S retries' =>
      executedBlock <- try_catch
                (block <- await (getBlock (Wallet.provider wallet) "finalized") ;;
                 ret (match block with Some b => Block.number b | None => 0 end))
                (fun e => ret 0) ;;
      if executedBlock >=? blockNumber then ret tt
      else
        sleep POLL_INTERVAL ;;
        finality_loop wallet blockNumber retries'
  end.

Definition waitUntilBlockFinalized (wallet : Wallet.t) (blockNumber : Z) : Async unit :=
  finality_loop wallet blockNumber initial_retries.

Fixpoint proof_loop (fuel : nat) (wallet : Wallet.t) (txHash : string) : Async unit :=
  match fuel with
  | O => pending
  | S fuel' =>
      logProof <- await (getLogProof (Wallet.provider wallet) txHash 0) ;;
      match logProof with
      | None =>
          sleep (Provider.pollingInterval (Wallet.provider wallet)) ;;
          proof_loop fuel' wallet txHash
      | Some _ => ret tt
      end
  end.

Definition waitForL2ToL1LogProof (fuel : nat) (wallet : Wallet.t)
    (blockNumber : Z) (txHash : string) : Async unit :=
  waitUntilBlockFinalized wallet blockNumber ;;
  proof_loop fuel wallet txHash.

Definition requireEnv (name : string) : Async string :=
  value <- getenv name ;;
  match value with
  | Some v =>
      if truthy v then ret v else throw (mkError ("Missing env var: " ++ name)%string)
  | None => throw (mkError ("Missing env var: " ++ name)%string)
  end.

Definition newProvider (url : string) : Async Provider.t :=
  lift (fun e => Returned (Provider.mk url (Ethers.defaultPollingInterval e))).

Definition newWallet (key : string) (provider : Provider.t) : Async Wallet.t :=
  address <- lift (fun e => Ethers.computeAddress e key) ;;
  ret (Wallet.mk key provider address).

Definition deployGreetContract (wallet : Wallet.t) (initialGreeting : string)
  : Async (Contract.t * string) :=
  Greet <- global Host.Greet ;;
  contract <- await (deploy wallet Greet initialGreeting) ;;
  await (waitForDeployment contract) ;;
  address <- await (getAddress contract) ;;
  ret (contract, address).

(** Reading a property of [null] or [undefined]. *)
Definition type_error (property : string) : Error :=
  mkError ("Cannot read properties of null (reading '" ++ property ++ "')")%string.

Definition not_included : Error := mkError "Message was NOT included".

Definition main (fuel : nat) : Async unit :=
  PRIVATE_KEY <- requireEnv "PRIVATE_KEY" ;;
  L2_RPC_URL <- requireEnv "L2_RPC_URL" ;;
  L2_RPC_URL_SECOND <- requireEnv "L2_RPC_URL_SECOND" ;;
  providerA <- newProvider L2_RPC_URL ;;
  providerB <- newProvider L2_RPC_URL_SECOND ;;
  walletA <- newWallet PRIVATE_KEY providerA ;;
  walletB <- newWallet PRIVATE_KEY providerB ;;
  ethersWalletA <- newWallet PRIVATE_KEY providerA ;;
  ethersWalletB <- newWallet PRIVATE_KEY providerB ;;
  deployed <- deployGreetContract ethersWalletB "gm" ;;
  let interopCenter := Contract.mk INTEROP_CENTER_ADDRESS (ViaWallet ethersWalletA) in
  let recipient := "0x000100000219a614e441CF0795aF14DdB9f7984Da85CD36DB1B8790d" in
  let payload := "0xa41368620000000000000000000000000000000000000000000000000000000000000020000000000000000000000000000000000000000000000000000000000000000c68656c6c6f2046726f6d20410000000000000000000000000000000000000000" in
  let attributes : list string := [] in
  interopTx <- await (sendMessage interopCenter recipient payload attributes
                        (Overrides.mk 1000000 1000000000 0)) ;;
  interopReceipt <- await (wait interopTx) ;;
  match interopReceipt with
  | None => throw (type_error "blockNumber")
  | Some _ =>
      rpcProvider <- newProvider L2_RPC_URL ;;
      messengerWallet <- newWallet PRIVATE_KEY rpcProvider ;;
      let messenger := Contract.mk L1_MESSENGER_ADDRESS (ViaWallet messengerWallet) in
      feeData <- await (getFeeData rpcProvider) ;;
      let maxPriorityFeePerGas :=
        match FeeData.maxPriorityFeePerGas feeData with Some v => v | None => 1 end in
      let maxFeePerGas :=
        match FeeData.maxFeePerGas feeData with
        | Some v => v
        | None => maxPriorityFeePerGas + 1
        end in
      data <- lift (fun e => Returned (Ethers.toUtf8Bytes e "hello interop")) ;;
      gasLimit <- await (estimateGas_sendToL1 messenger data) ;;
      tx <- await (sendToL1 messenger data (Overrides.mk (gasLimit * 2) 1000000000 0)) ;;
      mined <- await (wait tx) ;;
      match mined with
      | None => throw (type_error "blockNumber")
      | Some receipt =>
          waitForL2ToL1LogProof fuel walletA (Receipt.blockNumber receipt) (Tx.hash tx) ;;
          fetched <- await (getLogProof (Wallet.provider walletA) (Tx.hash tx) 0) ;;
          match fetched with
          | None => throw (type_error "batch_number")
          | Some logProof =>
              sourceChainId <- await (getNetwork providerA) ;;
              waitUntilRootBecomesAvailable walletB sourceChainId
                (LogProof.batch_number logProof) (LogProof.root logProof) ;;
              let verifier :=
                Contract.mk L2_MESSAGE_VERIFICATION_ADDRESS (ViaProvider providerB) in
              verifyChainId <- await (getNetwork providerA) ;;
              message <- lift (fun e => Returned
                           (Message.mk (Receipt.index receipt) (Receipt.from receipt)
                                       (Bytes (Ethers.toUtf8Bytes e "hello interop")))) ;;
              included <- await (proveL2MessageInclusionShared verifier verifyChainId
                                   (LogProof.batch_number logProof) (LogProof.id logProof)
                                   message (LogProof.proof logProof)) ;;
              if included then ret tt else throw not_included
          end
      end
  end.

End Part000.

(** ** Reading traces *)

(** Number of calls to the outside world in a trace, and the time spent in
    timers, in milliseconds. *)
Definition is_call (e : Event) : bool :=
  match e with
  | Call _ _ => true
  | Sleep _ => false
  end.

Definition attempts (t : Trace) : nat := List.length (filter is_call t).

Fixpoint elapsed (t : Trace) : Z :=
  match t with
  | [] => 0
  | Sleep ms :: t' => ms + elapsed t'
  | Call _ _ :: t' => elapsed t'
  end.

(** The reply of a root query, of a finalized-block query, and the
    arguments of a proof query. *)
Definition root_reply (e : Event) : option (Contract.t * Z * Z * Reply string) :=
  match e with
  | Call q r =>
      match q in Request R return Reply R -> option (Contract.t * Z * Z * Reply string) with
      | interopRoots c chainId batchNumber => fun r => Some (c, chainId, batchNumber, r)
      | _ => fun _ => None
      end r
  | Sleep _ => None
  end.

Definition block_reply (e : Event) : option (Provider.t * string * Reply (option Block.t)) :=
  match e with
  | Call q r =>
      match q in Request R return Reply R -> option (Provider.t * string * Reply (option Block.t)) with
      | getBlock p tag => fun r => Some (p, tag, r)
      | _ => fun _ => None
      end r
  | Sleep _ => None
  end.

Definition proof_query (e : Event) : option (Provider.t * string * Z) :=
  match e with
  | Call q _ =>
      match q with
      | getLogProof p txHash index => Some (p, txHash, index)
      | _ => None
      end
  | Sleep _ => None
  end.

(** ** The bounded polling loop both waiters are instances of

    One attempt asks [q]; [decide] reads the reply (a throw included) and
    either settles the waiter or says "not yet" ([None]), after which the
    waiter sleeps one [interval] and tries again while attempts remain. *)

Section Polling.

Context {R A : Type}.
Variable q : Request R.
Variable decide : Reply R -> option (Outcome A).
Variable interval : Z.
Variable timeout_error : Error.

Fixpoint poll_loop (retries : nat) : Async A :=
  match retries with
  | O => throw timeout_error
  | S retries' =>
      fun host h =>
        let r := Host.oracle host h R q in
        match decide r with
        | Some o => (o, [Call q r])
        | None =>
            let '(o, t) := poll_loop retries' host (h ++ [Call q r; Sleep interval]) in
            (o, Call q r :: Sleep interval :: t)
        end
  end.

(** The trace of a waiter that was told "not yet" by each of [replies]. *)
Definition idle_rounds (replies : list (Reply R)) : Trace :=
  flat_map (fun r => [Call q r; Sleep interval]) replies.

End Polling.

(** ** The waiters as polling loops *)

(** The 32-byte zero digest, as the endpoint renders it. *)
Definition ZERO_ROOT : string :=
  "0x0000000000000000000000000000000000000000000000000000000000000000".

(** What [interopRoots] returns is declared [bytes32]: the text [0x]
    followed by 64 hexadecimal digits. *)
Definition is_hex_digit (c : ascii) : bool :=
  let n := nat_of_ascii c in
  (((48 <=? n) && (n <=? 57)) || ((97 <=? n) && (n <=? 102)) || ((65 <=? n) && (n <=? 70)))%nat.

Fixpoint all_hex (s : string) : bool :=
  match s with
  | EmptyString => true
  | String c s' => is_hex_digit c && all_hex s'
  end.

Definition is_bytes32 (s : string) : bool :=
  match s with
  | String c1 (String c2 digits) =>
      Ascii.eqb c1 "0" && Ascii.eqb c2 "x"
      && (String.length digits =? 64)%nat && all_hex digits
  | _ => false
  end.

(** A root that is present: a [bytes32] other than the zero digest. *)
Definition nonzero_root (s : string) : Prop := is_bytes32 s = true /\ s <> ZERO_ROOT.

(** The root a reply carries, [null] for a throw (the [catch] branch). *)
Definition root_of_reply (r : Reply string) : option string :=
  match r with
  | Returned s => Some s
  | Thrown _ => None
  end.

(** The value of [executedBlock] after a reply. *)
Definition executedBlock_of (r : Reply (option Block.t)) : Z :=
  match r with
  | Returned (Some b) => Block.number b
  | Returned None => 0
  | Thrown _ => 0
  end.

Definition root_decide (expectedRoot : string) (r : Reply string) : option (Outcome unit) :=
  match r with
  | Returned s =>
      if InteropTest.root_is_set (Some s) then
        Some (if (toLowerCase s =? toLowerCase expectedRoot)%string
              then Fulfilled tt
              else Rejected (InteropTest.root_mismatch expectedRoot s))
      else None
  | Thrown _ => None
  end.

Definition finality_decide (blockNumber : Z) (r : Reply (option Block.t)) : option (Outcome unit) :=
  if executedBlock_of r >=? blockNumber then Some (Fulfilled tt) else None.

(** ** A scripted host, for concrete runs

    It answers the root, block and proof queries from three scripts indexed
    by the number of calls made so far, and throws on everything else. *)

Definition unreachable : Error := mkError "endpoint unreachable".

Definition scripted_oracle
    (roots : nat -> Reply string)
    (blocks : nat -> Reply (option Block.t))
    (proofs : nat -> Reply (option LogProof.t))
    (h : Trace) (R : Type) (q : Request R) : Reply R :=
  match q in Request R return Reply R with
  | interopRoots _ _ _ => roots (attempts h)
  | getBlock _ _ => blocks (attempts h)
  | getLogProof _ _ _ => proofs (attempts h)
  | _ => Thrown unreachable
  end.

Definition no_library : Ethers.t :=
  Ethers.mk (fun _ => Thrown unreachable) (fun _ => Thrown unreachable)
    (fun _ _ => Thrown unreachable) (fun _ => Thrown unreachable)
    (fun _ => Thrown unreachable) (fun _ => []) (fun _ _ _ => Thrown unreachable)
    (fun _ => Thrown unreachable) (fun _ _ => Thrown unreachable)
    (fun _ => Thrown unreachable) 4000.

Definition scripted_host roots blocks proofs : Host.t :=
  Host.mk (fun _ => None) (Artifact.mk "" "") no_library (scripted_oracle roots blocks proofs).

Definition demo_provider : Provider.t := Provider.mk "http://localhost:3050" 4000.
Definition demo_wallet : Wallet.t := Wallet.mk "0xkey" demo_provider "0xaddr".

Definition demo_root : string :=
  "0x00000000000000000000000000000000000000000000000000000000000000ab".
Definition demo_root_upper : string :=
  "0x00000000000000000000000000000000000000000000000000000000000000AB".
Definition other_root : string :=
  "0x00000000000000000000000000000000000000000000000000000000000000cd".

(** The stored root is zero for the first two reads, then [demo_root]. *)
Definition root_appears_third (n : nat) : Reply string :=
  if (n <? 2)%nat then Returned ZERO_ROOT else Returned demo_root.

(** A fetch that throws on its first three calls, then answers. *)
Definition throws_thrice {A : Type} (a : A) (n : nat) : Reply A :=
  if (n <? 3)%nat then Thrown unreachable else Returned a.

(** A run that is still pending whatever fuel the model is given: the
    program it models never settles. *)
Definition never_settles {A : Type} (program : nat -> Async A) (host : Host.t) (h : Trace) : Prop :=
  forall fuel, outcome (program fuel host h) = Pending.

Definition demo_proof : LogProof.t := LogProof.mk 0 7 demo_root ["0x01"; "0x02"]%string.

(** The block is finalized at the first read; the proof never appears. *)
Definition stalled_host : Host.t :=
  scripted_host (fun _ => Thrown unreachable) (fun _ => Returned (Some (Block.mk 12)))
    (fun _ => Returned None).

(** The block is finalized at the first read; the proof appears at the
    third proof query (the fourth call). *)
Definition proof_appears_third (n : nat) : Reply (option LogProof.t) :=
  if (n <? 3)%nat then Returned None else Returned (Some demo_proof).

(** ** What a computation may emit *)

Definition emits_only {A : Type} (P : Event -> Prop) (m : Async A) : Prop :=
  forall host h, Forall P (emitted (m host h)).

(** The event is no proof query, or it asks for the proof of log 0. *)
Definition queries_log_zero (e : Event) : Prop :=
  match proof_query e with
  | Some (_, _, index) => index = 0
  | None => True
  end.

(** ** A host on which the whole flow succeeds

    The receipt of every transaction carries [logs] and [l2ToL1Logs]; the
    proof endpoint hands back [logProof] when [proofReady] says so for the
    number of calls made so far; the library parses a log of the interop
    center as the bundle emission event. *)

Definition demo_env (name : string) : option string :=
  if (name =? "PRIVATE_KEY")%string then Some "0xkey"
  else if (name =? "L2_RPC_URL")%string then Some "http://localhost:3050"
  else if (name =? "L2_RPC_URL_SECOND")%string then Some "http://localhost:3051"
  else None.

Definition demo_bundle : InteropBundle.t :=
  InteropBundle.mk [Byte.x01] 270 271 [] [] (BundleAttributes.mk [] []).

Definition demo_parseLog (log : Log.t) : Reply (option LogDescription.t) :=
  if (Log.address log =? InteropTest.L2_INTEROP_CENTER_ADDRESS)%string
  then Returned (Some (LogDescription.mk "InteropBundleSent" demo_bundle))
  else Thrown (mkError "no matching event").

Definition demo_library : Ethers.t :=
  Ethers.mk (fun _ => Returned []) (fun _ => Returned "0x010e")
    (fun _ _ => Returned "0x00000000010e") (fun _ => Returned "0x000100000000010e")
    (fun _ => Returned "0x000100000000010e") (fun _ => [])
    (fun _ _ _ => Returned "0xa4136862") demo_parseLog (fun _ _ => Returned [Byte.x00])
    (fun _ => Returned "0xaddr") 4000.

Definition demo_oracle (logs : option (list Log.t)) (l2ToL1Logs : option (list L2ToL1Log.t))
    (logProof : LogProof.t) (proofReady : nat -> bool)
    (h : Trace) (R : Type) (q : Request R) : Reply R :=
  match q in Request R return Reply R with
  | loadArtifact _ => Returned (Artifact.mk "[]" "0x00")
  | deploy w _ _ => Returned (Contract.mk "0xgreet" (ViaWallet w))
  | waitForDeployment _ => Returned tt
  | getAddress c => Returned (Contract.target c)
  | getNetwork p =>
      Returned (if (Provider.rpcUrl p =? "http://localhost:3050")%string then 270 else 271)
  | getFeeData _ => Returned (FeeData.mk None None)
  | sendMessage _ _ _ _ _ => Returned (Tx.mk "0xsend")
  | estimateGas_sendToL1 _ _ => Returned 21000
  | sendToL1 _ _ _ => Returned (Tx.mk "0xsend")
  | wait tx => Returned (Some (Receipt.mk (Tx.hash tx) 12 3 "0xfrom" logs l2ToL1Logs))
  | getBlock _ _ => Returned (Some (Block.mk 12))
  | getLogProof _ _ _ =>
      Returned (if proofReady (attempts h) then Some logProof else None)
  | interopRoots _ _ _ => Returned (LogProof.root logProof)
  | executeBundle _ _ _ _ => Returned (Tx.mk "0xexec")
  | proveL2MessageInclusionShared _ _ _ _ _ _ => Returned true
  end.

Definition demo_host logs l2ToL1Logs logProof proofReady : Host.t :=
  Host.mk demo_env (Artifact.mk "[]" "0x00") demo_library
    (demo_oracle logs l2ToL1Logs logProof proofReady).

Definition bundle_log : Log.t := Log.mk InteropTest.L2_INTEROP_CENTER_ADDRESS [] "0x".
Definition other_log : Log.t := Log.mk "0x000000000000000000000000000000000000800a" [] "0x".
Definition first_l2_log : L2ToL1Log.t := L2ToL1Log.mk "0xsender0" "0xdata0".
Definition second_l2_log : L2ToL1Log.t := L2ToL1Log.mk "0xsender1" "0xdata1".

(** The usual case: the bundle event is in the receipt, two outbound logs,
    the proof is there from the start. *)
Definition happy_host : Host.t :=
  demo_host (Some [other_log; bundle_log]) (Some [first_l2_log; second_l2_log])
    demo_proof (fun _ => true).

(** ** Following a script step by step *)

(** How a reply settles the promise awaited on. *)
Definition settle {A : Type} (r : Reply A) : Outcome A :=
  match r with
  | Returned a => Fulfilled a
  | Thrown e => Rejected e
  end.

(** [runs m host h0 E Q]: the script started after history [h0] and has
    emitted [E] so far; running [m] next leads to an outcome and a whole
    trace that satisfy [Q]. *)
Definition runs {A : Type} (m : Async A) (host : Host.t) (h0 E : Trace)
    (Q : Outcome A -> Trace -> Prop) : Prop :=
  Q (outcome (m host (h0 ++ E))) (E ++ emitted (m host (h0 ++ E))).

Definition no_proof_query (e : Event) : Prop := proof_query e = None.

(** The event is no proof query, or it asks [provider] about [txHash]. *)
Definition asks_proof_of (provider : Provider.t) (txHash : string) (e : Event) : Prop :=
  match proof_query e with
  | Some (p, hash, _) => p = provider /\ hash = txHash
  | None => True
  end.

(** The order of a relay run about the transaction [tx] with receipt
    [receipt]: before any proof query a whole, successful run of the
    finality waiter for the receipt's block took place, and every proof
    query is about [txHash]. *)
Definition finality_first (host : Host.t) (h : Trace) (t : Trace)
    (provider : Provider.t) (tx : Tx.t) (receipt : Receipt.t) (txHash : string) : Prop :=
  exists pre fin post,
    t = pre ++ fin ++ post /\
    Forall no_proof_query (pre ++ fin) /\
    In (Call (wait tx) (Returned (Some receipt))) pre /\
    InteropTest.waitUntilBlockFinalized provider (Receipt.blockNumber receipt) host (h ++ pre)
    = (Fulfilled tt, fin) /\
    Forall (asks_proof_of provider txHash) post.

(** ** Reading the send step off a trace *)

Definition is_sendMessage (e : Event) : bool :=
  match e with
  | Call q _ =>
      match q with
      | sendMessage _ _ _ _ _ => true
      | _ => false
      end
  | Sleep _ => false
  end.

(** The transaction a successful [sendMessage] call returned. *)
Definition sent_tx (e : Event) : option Tx.t :=
  match e with
  | Call q r =>
      match q in Request R return Reply R -> option Tx.t with
      | sendMessage _ _ _ _ _ =>
          fun r => match r with Returned tx => Some tx | Thrown _ => None end
      | _ => fun _ => None
      end r
  | Sleep _ => None
  end.

(** The transaction waited on and the reply of [tx.wait()]. *)
Definition receipt_of (e : Event) : option (Tx.t * Reply (option Receipt.t)) :=
  match e with
  | Call q r =>
      match q in Request R return Reply R -> option (Tx.t * Reply (option Receipt.t)) with
      | wait tx => fun r => Some (tx, r)
      | _ => fun _ => None
      end r
  | Sleep _ => None
  end.

(** The logs of a receipt: [sendReceipt.logs ?? []]. *)
Definition logs_of (receipt : Receipt.t) : list Log.t :=
  match Receipt.logs receipt with
  | Some l => l
  | None => []
  end.

(** What follows a successful [sendMessage tx] in a run of the TypeScript
    flow with outcome [o]: when the next event is the receipt of [tx], the
    run ends there with the missing-event error if the bundle event is not
    found, and goes on only if it is found. *)
Definition after_send (host : Host.t) (o : Outcome unit) (tx : Tx.t) (tail : Trace) : Prop :=
  match tail with
  | [] => True
  | e_wait :: post =>
      match receipt_of e_wait with
      | Some (tx', Returned (Some receipt)) =>
          tx' = tx /\
          (InteropTest.find_bundleEvent (Host.ethers host) (Receipt.logs receipt) = None ->
           post = [] /\ o = Rejected InteropTest.missing_event) /\
          (post <> [] ->
           InteropTest.find_bundleEvent (Host.ethers host) (Receipt.logs receipt) <> None)
      | _ => True
      end
  end.

Definition sent_shape (host : Host.t) (o : Outcome unit) (t : Trace) : Prop :=
  Forall (fun e => sent_tx e = None) t \/
  exists pre e_send tail tx,
    t = pre ++ e_send :: tail /\
    Forall (fun e => is_sendMessage e = false) pre /\
    sent_tx e_send = Some tx /\
    Forall (fun e => is_sendMessage e = false) tail /\
    after_send host o tx tail.

(** The receipt has no bundle event: its only log is of another contract. *)
Definition eventless_host : Host.t :=
  demo_host (Some [other_log]) (Some [first_l2_log; second_l2_log]) demo_proof (fun _ => true).

(** ** Reading the proof step off a trace *)

Definition proof_reply (e : Event) : option (Reply (option LogProof.t)) :=
  match e with
  | Call q r =>
      match q in Request R return Reply R -> option (Reply (option LogProof.t)) with
      | getLogProof _ _ _ => fun r => Some r
      | _ => fun _ => None
      end r
  | Sleep _ => None
  end.

(** The proof a proof query handed back, if it did. *)
Definition obtained_proof (e : Event) : option LogProof.t :=
  match proof_reply e with
  | Some (Returned (Some logProof)) => Some logProof
  | _ => None
  end.

(** The proof record passed to [executeBundle]. *)
Definition bundle_proof (e : Event) : option InclusionProof.t :=
  match e with
  | Call q _ =>
      match q with
      | executeBundle _ _ proof _ => Some proof
      | _ => None
      end
  | Sleep _ => None
  end.

(** An event of the flow before any proof was obtained. *)
Definition before_proof (e : Event) : Prop :=
  obtained_proof e = None /\ bundle_proof e = None.

(** An event after the outbound log [entry] was selected: no further proof
    is obtained, and a call of [executeBundle] carries the proof's index
    and the sender and data of [entry]. *)
Definition carries (receipt : Receipt.t) (logProof : LogProof.t) (entry : L2ToL1Log.t)
    (e : Event) : Prop :=
  obtained_proof e = None /\
  match bundle_proof e with
  | Some proof =>
      InclusionProof.l2MessageIndex proof = LogProof.id logProof /\
      InclusionProof.message proof =
        Message.mk (Receipt.index receipt) (L2ToL1Log.sender entry)
                   (Hex (L2ToL1Log.data entry))
  | None => True
  end.

(** What follows the final retrieval of the proof, whose reply was [r]. *)
Definition after_proof (o : Outcome unit) (receipt : Receipt.t)
    (r : Reply (option LogProof.t)) (post : Trace) : Prop :=
  match r with
  | Returned (Some logProof) =>
      match InteropTest.select_l2ToL1Log receipt (LogProof.id logProof) with
      | None => post = [] /\ o = Rejected InteropTest.missing_l2ToL1Log
      | Some entry => post <> [] /\ Forall (carries receipt logProof entry) post
      end
  | _ => post = []
  end.

Definition selection_shape (o : Outcome unit) (t : Trace) : Prop :=
  Forall before_proof t \/
  exists pre e1 e2 post tx receipt logProof0 r,
    t = pre ++ e1 :: e2 :: post /\
    Forall before_proof pre /\
    In (Call (wait tx) (Returned (Some receipt))) pre /\
    obtained_proof e1 = Some logProof0 /\
    proof_reply e2 = Some r /\
    after_proof o receipt r post.

(** The proof reports log index 5, the receipt has two outbound logs. *)
Definition fallback_host : Host.t :=
  demo_host (Some [other_log; bundle_log]) (Some [first_l2_log; second_l2_log])
    (LogProof.mk 5 7 demo_root ["0x01"; "0x02"]%string) (fun _ => true).

(** ** The bundle codec

    The scripts only name the tuple schema ([bundleType]) and hand the
    bundle to the library's ABI coder, whose code is not among the
    repository's sources. The codec below follows the specification:
    [encode] is the contract ABI encoding of the one argument of type
    [bundleType]; [decode] reads that layout back, accepts canonical
    encodings only and rejects version tags it does not know; which tags
    it knows is a parameter. *)

Module BundleCodec.

(** A 32-byte word holding an unsigned integer, most significant byte
    first, and the integer a word holds. *)
Definition word (z : Z) : list Byte.byte := rev (le_split 32 z).

Definition word_value (w : list Byte.byte) : Z := le_combine (rev w).

Definition zeros (n : nat) : list Byte.byte := List.repeat Byte.x00 n.

Definition all_zero (l : list Byte.byte) : bool := forallb (Byte.eqb Byte.x00) l.

(** Bytes needed to fill [n] bytes up to a multiple of 32. *)
Definition padding (n : nat) : nat := ((32 - n mod 32) mod 32)%nat.

(** *** Encoding *)

(** [bytes1]: left-aligned in its word. *)
Definition enc_bytes1 (v : list Byte.byte) : list Byte.byte := v ++ zeros 31.

Definition enc_bool (b : bool) : list Byte.byte := word (if b then 1 else 0).

(** [bytes]: the length, the bytes, zero padding. *)
Definition enc_bytes (d : list Byte.byte) : list Byte.byte :=
  word (Z.of_nat (List.length d)) ++ d ++ zeros (padding (List.length d)).

(** A call: five static fields, the offset of [data], then [data]. *)
Definition enc_call (c : InteropCall.t) : list Byte.byte :=
  enc_bytes1 (InteropCall.version c) ++
  enc_bool (InteropCall.shadowAccount c) ++
  word (InteropCall.to c) ++
  word (InteropCall.from c) ++
  word (InteropCall.value c) ++
  word 192 ++
  enc_bytes (InteropCall.data c).

(** The offsets of elements of the given sizes laid out from [start]. *)
Fixpoint offsets (start : Z) (sizes : list nat) : list Z :=
  match sizes with
  | [] => []
  | s :: rest => start :: offsets (start + Z.of_nat s) rest
  end.

Definition call_sizes (cs : list InteropCall.t) : list nat :=
  map (fun c => List.length (enc_call c)) cs.

(** [calls]: the count, one offset per call, the calls. *)
Definition enc_calls (cs : list InteropCall.t) : list Byte.byte :=
  word (Z.of_nat (List.length cs)) ++
  concat (map word (offsets (32 * Z.of_nat (List.length cs)) (call_sizes cs))) ++
  concat (map enc_call cs).

Definition enc_attributes (a : BundleAttributes.t) : list Byte.byte :=
  word 64 ++
  word (64 + Z.of_nat (List.length (enc_bytes (BundleAttributes.executionAddress a)))) ++
  enc_bytes (BundleAttributes.executionAddress a) ++
  enc_bytes (BundleAttributes.unbundlerAddress a).

Definition enc_bundle (b : InteropBundle.t) : list Byte.byte :=
  enc_bytes1 (InteropBundle.version b) ++
  word (InteropBundle.sourceChainId b) ++
  word (InteropBundle.destinationChainId b) ++
  InteropBundle.interopBundleSalt b ++
  word 192 ++
  word (192 + Z.of_nat (List.length (enc_calls (InteropBundle.calls b)))) ++
  enc_calls (InteropBundle.calls b) ++
  enc_attributes (InteropBundle.bundleAttributes b).

(** Modelled from the spec: [encode(bundle) -> bytes] of the bundle
    codec, missing from the sources (the scripts call the library's
    [AbiCoder.encode] with [bundleType]). It is deterministic and fixes the
    field order of the schema; the argument list holds the one dynamic
    bundle, so the head is its offset. *)
Definition encode (b : InteropBundle.t) : list Byte.byte :=
  word 32 ++ enc_bundle b.

(** *** Decoding *)

Definition Parser (A : Type) : Type := list Byte.byte -> option (A * list Byte.byte).

Definition pure {A : Type} (a : A) : Parser A := fun l => Some (a, l).

Definition fail {A : Type} : Parser A := fun _ => None.

Definition andThen {A B : Type} (p : Parser A) (f : A -> Parser B) : Parser B :=
  fun l =>
    match p l with
    | Some (a, rest) => f a rest
    | None => None
    end.

Declare Scope parser_scope.
Delimit Scope parser_scope with parser.
Notation "x <- p ;; k" := (andThen p (fun x => k))
  (at level 61, p at next level, right associativity) : parser_scope.
Notation "p ;; k" := (andThen p (fun _ => k))
  (at level 61, right associativity) : parser_scope.
Local Open Scope parser_scope.

Definition guard (b : bool) : Parser unit := if b then pure tt else fail.

Definition take (n : nat) : Parser (list Byte.byte) :=
  fun l => if (List.length l <? n)%nat then None else Some (firstn n l, skipn n l).

Definition p_word : Parser Z := w <- take 32 ;; pure (word_value w).

(** A word that must hold [z]. *)
Definition p_expect (z : Z) : Parser unit := w <- p_word ;; guard (w =? z).

Definition p_bool : Parser bool :=
  z <- p_word ;;
  if z =? 0 then pure false else if z =? 1 then pure true else fail.

Definition p_address : Parser Z := z <- p_word ;; guard (z <? 2 ^ 160) ;; pure z.

Definition p_bytes : Parser (list Byte.byte) :=
  n <- p_word ;;
  d <- take (Z.to_nat n) ;;
  pad <- take (padding (Z.to_nat n)) ;;
  guard (all_zero pad) ;;
  pure d.

Fixpoint p_repeat {A : Type} (n : nat) (p : Parser A) : Parser (list A) :=
  match n with
  | O => pure []
  | S n' => a <- p ;; l <- p_repeat n' p ;; pure (a :: l)
  end.

(** A parser reads back what an encoder wrote (for values that are [ok]),
    and accepts nothing but what the encoder writes. *)
Definition complete {A : Type} (ok : A -> Prop) (enc : A -> list Byte.byte) (p : Parser A) : Prop :=
  forall a rest, ok a -> p (enc a ++ rest) = Some (a, rest).

Definition sound {A : Type} (enc : A -> list Byte.byte) (p : Parser A) : Prop :=
  forall x a rest, p x = Some (a, rest) -> x = enc a ++ rest.

Section Versions.

Variable known_version : Byte.byte -> bool.

(** [bytes1] holding a version tag the decoder knows. *)
Definition p_version : Parser (list Byte.byte) :=
  w <- take 32 ;;
  match w with
  | v :: pad => guard (all_zero pad) ;; guard (known_version v) ;; pure [v]
  | [] => fail
  end.

Definition p_call : Parser InteropCall.t :=
  version <- p_version ;;
  shadowAccount <- p_bool ;;
  to <- p_address ;;
  from <- p_address ;;
  value <- p_word ;;
  p_expect 192 ;;
  data <- p_bytes ;;
  pure (InteropCall.mk version shadowAccount to from value data).

Definition p_calls : Parser (list InteropCall.t) :=
  n <- p_word ;;
  offs <- p_repeat (Z.to_nat n) p_word ;;
  cs <- p_repeat (Z.to_nat n) p_call ;;
  guard (if list_eq_dec Z.eq_dec offs (offsets (32 * n) (call_sizes cs)) then true else false) ;;
  pure cs.

Definition p_attributes : Parser BundleAttributes.t :=
  p_expect 64 ;;
  second <- p_word ;;
  executionAddress <- p_bytes ;;
  guard (second =? 64 + Z.of_nat (List.length (enc_bytes executionAddress))) ;;
  unbundlerAddress <- p_bytes ;;
  pure (BundleAttributes.mk executionAddress unbundlerAddress).

Definition p_bundle : Parser InteropBundle.t :=
  version <- p_version ;;
  sourceChainId <- p_word ;;
  destinationChainId <- p_word ;;
  salt <- take 32 ;;
  p_expect 192 ;;
  second <- p_word ;;
  calls <- p_calls ;;
  guard (second =? 192 + Z.of_nat (List.length (enc_calls calls))) ;;
  attributes <- p_attributes ;;
  pure (InteropBundle.mk version sourceChainId destinationChainId salt calls attributes).

(** Modelled from the spec: [decode(bytes) -> bundle] of the bundle
    codec, missing from the sources (the library decodes the emission
    event). It rejects unknown version tags, trailing bytes and every
    layout other than the one [encode] writes. *)
Definition decode (x : list Byte.byte) : option InteropBundle.t :=
  match (p_expect 32 ;; p_bundle) x with
  | Some (b, []) => Some b
  | _ => None
  end.

(** *** Valid bundles *)

Definition valid_word (z : Z) : Prop := 0 <= z < 2 ^ 256.

Definition valid_version (v : list Byte.byte) : Prop :=
  exists tag, v = [tag] /\ known_version tag = true.

Definition valid_bytes (d : list Byte.byte) : Prop :=
  Z.of_nat (List.length d) < 2 ^ 256.

Definition valid_call (c : InteropCall.t) : Prop :=
  valid_version (InteropCall.version c) /\
  0 <= InteropCall.to c < 2 ^ 160 /\
  0 <= InteropCall.from c < 2 ^ 160 /\
  valid_word (InteropCall.value c) /\
  valid_bytes (InteropCall.data c).

(** Every field fits its type, and the encoding is short enough for its
    offsets to fit in a word. *)
Definition valid_bundle (b : InteropBundle.t) : Prop :=
  valid_version (InteropBundle.version b) /\
  valid_word (InteropBundle.sourceChainId b) /\
  valid_word (InteropBundle.destinationChainId b) /\
  List.length (InteropBundle.interopBundleSalt b) = 32%nat /\
  Forall valid_call (InteropBundle.calls b) /\
  valid_bytes (BundleAttributes.executionAddress (InteropBundle.bundleAttributes b)) /\
  valid_bytes (BundleAttributes.unbundlerAddress (InteropBundle.bundleAttributes b)) /\
  Z.of_nat (List.length (enc_bundle b)) < 2 ^ 256.

End Versions.

End BundleCodec.

(** The version tag of the specification's example. *)
Definition version_one (v : Byte.byte) : bool := Byte.eqb v Byte.x01.

Definition greeting_call : InteropCall.t :=
  InteropCall.mk [Byte.x01] false 4660 74565 0 [Byte.xa4; Byte.x13; Byte.x68; Byte.x62; Byte.x68; Byte.x69].

Definition greeting_bundle : InteropBundle.t :=
  InteropBundle.mk [Byte.x01] 1 2 (List.repeat Byte.xab 32) [greeting_call; greeting_call]
    (BundleAttributes.mk [Byte.x00; Byte.x01] []).

(** ** The environment of a run *)

(** The variables both scripts require, in the order they read them. *)
Definition required_env : list string := ["PRIVATE_KEY"; "L2_RPC_URL"; "L2_RPC_URL_SECOND"].

(** What [!value] takes for missing: a variable that is not set, or set to
    the empty text. *)
Definition is_unset (env : string -> option string) (name : string) : bool :=
  match env name with
  | Some v => negb (truthy v)
  | None => true
  end.

(** Only [PRIVATE_KEY] is set. *)
Definition key_only_host : Host.t :=
  Host.mk (fun name => if (name =? "PRIVATE_KEY")%string then Some "0xkey" else None)
    (Artifact.mk "[]" "0x00") demo_library
    (demo_oracle None None demo_proof (fun _ => true)).
(** ** Transactions

    The calls of the scripts that change the state of a chain. *)

Inductive Transaction : Type :=
| Deployment
| MessageSend
| L1Send
| BundleExecution.

Definition transaction (e : Event) : option Transaction :=
  match e with
  | Call q _ =>
      match q with
      | deploy _ _ _ => Some Deployment
      | sendMessage _ _ _ _ _ => Some MessageSend
      | sendToL1 _ _ _ => Some L1Send
      | executeBundle _ _ _ _ => Some BundleExecution
      | _ => None
      end
  | Sleep _ => None
  end.

Definition same_transaction (a b : Transaction) : bool :=
  match a, b with
  | Deployment, Deployment
  | MessageSend, MessageSend
  | L1Send, L1Send
  | BundleExecution, BundleExecution => true
  | _, _ => false
  end.

Definition is_transaction (k : Transaction) (e : Event) : bool :=
  match transaction e with
  | Some k' => same_transaction k k'
  | None => false
  end.

(** How many transactions of kind [k] a trace holds. *)
Definition count_sent (k : Transaction) (t : Trace) : nat :=
  List.length (filter (is_transaction k) t).

(** A computation that emits at most [n] events picked out by [c]. *)
Definition at_most {A : Type} (c : Event -> bool) (n : nat) (m : Async A) : Prop :=
  forall host h, (List.length (filter c (emitted (m host h))) <= n)%nat.
(** ** Calls that throw *)

(** The error of a call that threw. *)
Definition thrown (e : Event) : option Error :=
  match e with
  | Call _ r =>
      match r with
      | Thrown err => Some err
      | Returned _ => None
      end
  | Sleep _ => None
  end.

(** The two reads the bounded waiters make inside [try]: the stored root
    and the finalized block. *)
Definition guarded_read {R : Type} (q : Request R) : bool :=
  match q with
  | interopRoots _ _ _ => true
  | getBlock _ _ => true
  | _ => false
  end.

Definition is_guarded_read (e : Event) : bool :=
  match e with
  | Call q _ => guarded_read q
  | Sleep _ => false
  end.

(** The error of a call that threw outside a [try]. *)
Definition uncaught (e : Event) : option Error :=
  if is_guarded_read e then None else thrown e.

(** A computation that a throw outside a [try] ends at once, with the
    thrown error. *)
Definition fails_fast {A : Type} (m : Async A) : Prop :=
  forall host h,
    Forall (fun e => uncaught e = None) (emitted (m host h)) \/
    exists pre e err,
      emitted (m host h) = pre ++ [e] /\
      Forall (fun e => uncaught e = None) pre /\
      uncaught e = Some err /\
      outcome (m host h) = Rejected err.

(** The environment is complete, and no endpoint can be reached. *)
Definition offline_host : Host.t :=
  Host.mk demo_env (Artifact.mk "[]" "0x00") demo_library
    (scripted_oracle (fun _ => Thrown unreachable) (fun _ => Thrown unreachable)
       (fun _ => Thrown unreachable)).
(** ** Reading the flow's calls off a trace *)

(** The arguments of a [sendMessage] call. *)
Definition send_args (e : Event)
  : option (Contract.t * string * string * list string * Overrides.t) :=
  match e with
  | Call q _ =>
      match q with
      | sendMessage c recipient payload attributes o =>
          Some (c, recipient, payload, attributes, o)
      | _ => None
      end
  | Sleep _ => None
  end.

(** [process.env.GREET_ARTIFACT ?? "../deps/Greet.json"]. *)
Definition greet_artifact_path (host : Host.t) : string :=
  match Host.process_env host "GREET_ARTIFACT" with
  | Some v => v
  | None => "../deps/Greet.json"
  end.

(** A run of the TypeScript flow that reached [sendMessage]: the five
    calls before it, each of which returned, and where the arguments of
    the call come from. *)
Definition send_shape (host : Host.t) (t : Trace) : Prop :=
  Forall (fun e => send_args e = None) t \/
  exists artifact walletA walletB greet greetAddress chainId recipient payload r post,
    t = [Call (loadArtifact (greet_artifact_path host)) (Returned artifact);
         Call (deploy walletB artifact "gm") (Returned greet);
         Call (waitForDeployment greet) (Returned tt);
         Call (getAddress greet) (Returned greetAddress);
         Call (getNetwork (Wallet.provider walletB)) (Returned chainId);
         Call (sendMessage (Contract.mk InteropTest.L2_INTEROP_CENTER_ADDRESS (ViaWallet walletA))
                 recipient payload [] (Overrides.mk 1000000 1000000000 0)) r] ++ post /\
    Forall (fun e => send_args e = None) post /\
    Host.process_env host "PRIVATE_KEY" = Some (Wallet.privateKey walletA) /\
    Host.process_env host "PRIVATE_KEY" = Some (Wallet.privateKey walletB) /\
    Host.process_env host "L2_RPC_URL" = Some (Provider.rpcUrl (Wallet.provider walletA)) /\
    Host.process_env host "L2_RPC_URL_SECOND" = Some (Provider.rpcUrl (Wallet.provider walletB)) /\
    outcome (InteropTest.encodeEvmV1Address chainId greetAddress host []) = Fulfilled recipient /\
    Ethers.encodeFunctionData (Host.ethers host)
      "function setGreeting(string)" "setGreeting" ["hello from source"] = Returned payload.
(** An [executeBundle] call: its arguments and its reply. *)
Definition executed (e : Event)
  : option (Contract.t * list Byte.byte * InclusionProof.t * Overrides.t * Reply Tx.t) :=
  match e with
  | Call q r =>
      match q in Request R
            return Reply R -> option (Contract.t * list Byte.byte * InclusionProof.t
                                      * Overrides.t * Reply Tx.t) with
      | executeBundle c bundleBytes proof o => fun r => Some (c, bundleBytes, proof, o, r)
      | _ => fun _ => None
      end r
  | Sleep _ => None
  end.

(** How a run of the TypeScript flow ends after [executeBundle] replied
    [r]: a throw ends it; otherwise it awaits the transaction and ends
    there, in success whatever receipt it got. *)
Definition after_exec (o : Outcome unit) (r : Reply Tx.t) (post : Trace) : Prop :=
  match r with
  | Thrown err => post = [] /\ o = Rejected err
  | Returned execTx =>
      exists r2,
        post = [Call (wait execTx) r2] /\
        o = match r2 with
            | Returned _ => Fulfilled tt
            | Thrown err => Rejected err
            end
  end.

(** A run of the TypeScript flow that reached [executeBundle]: the read
    of the stored root right before it, and where the arguments of the
    call come from. *)
Definition exec_shape (host : Host.t) (o : Outcome unit) (t : Trace) : Prop :=
  (Forall (fun e => executed e = None) t /\ o <> Fulfilled tt) \/
  exists pre walletB providerA sendTx sendReceipt bundleEvent bundleBytes
         logProof chainId root proof r post,
    t = pre ++
        Call (interopRoots
                (Contract.mk InteropTest.L2_INTEROP_ROOT_STORAGE
                   (ViaProvider (Wallet.provider walletB)))
                chainId (LogProof.batch_number logProof)) (Returned root)
        :: Call (executeBundle
                   (Contract.mk InteropTest.L2_INTEROP_HANDLER_ADDRESS (ViaWallet walletB))
                   bundleBytes proof (Overrides.mk 1000000 1000000000 0)) r
        :: post /\
    Forall (fun e => executed e = None) pre /\
    Host.process_env host "L2_RPC_URL" = Some (Provider.rpcUrl providerA) /\
    Host.process_env host "L2_RPC_URL_SECOND"
    = Some (Provider.rpcUrl (Wallet.provider walletB)) /\
    In (Call (wait sendTx) (Returned (Some sendReceipt))) pre /\
    In (Call (getLogProof providerA (Receipt.hash sendReceipt) 0)
             (Returned (Some logProof))) pre /\
    In (Call (getNetwork providerA) (Returned chainId)) pre /\
    InteropTest.find_bundleEvent (Host.ethers host) (Receipt.logs sendReceipt)
    = Some bundleEvent /\
    Ethers.abiEncode (Host.ethers host) InteropTest.bundleType
      (LogDescription.interopBundle bundleEvent) = Returned bundleBytes /\
    InteropTest.root_is_set (Some root) = true /\
    toLowerCase root = toLowerCase (LogProof.root logProof) /\
    InclusionProof.l1BatchNumber proof = LogProof.batch_number logProof /\
    InclusionProof.proof proof = LogProof.proof logProof /\
    after_exec o r post.

Definition is_executed (e : Event) : bool :=
  match executed e with
  | Some _ => true
  | None => false
  end.
(** ** Answers that are missing *)

(** What follows a successful [sendMessage tx] in a run of the TypeScript
    flow with outcome [o], when the next event is a wait for [tx] that
    returned no receipt: the run ends there with the missing-receipt
    error. *)
Definition after_send_unmined (o : Outcome unit) (tx : Tx.t) (tail : Trace) : Prop :=
  match tail with
  | [] => True
  | e_wait :: post =>
      match receipt_of e_wait with
      | Some (tx', Returned None) =>
          tx' = tx /\ post = [] /\ o = Rejected InteropTest.missing_receipt
      | _ => True
      end
  end.

Definition unmined_shape (o : Outcome unit) (t : Trace) : Prop :=
  Forall (fun e => sent_tx e = None) t \/
  exists pre e_send tail tx,
    t = pre ++ e_send :: tail /\
    Forall (fun e => is_sendMessage e = false) pre /\
    sent_tx e_send = Some tx /\
    Forall (fun e => is_sendMessage e = false) tail /\
    after_send_unmined o tx tail.

(** What follows the retrieval of the proof, whose reply was [r], when it
    handed back no proof; [missing] is the error the flow ends with on
    null. *)
Definition after_retrieval (missing : Error) (o : Outcome unit)
    (r : Reply (option LogProof.t)) (post : Trace) : Prop :=
  match r with
  | Returned (Some _) => True
  | Returned None => post = [] /\ o = Rejected missing
  | Thrown err => post = [] /\ o = Rejected err
  end.

Definition retrieval_shape (missing : Error) (o : Outcome unit) (t : Trace) : Prop :=
  Forall before_proof t \/
  exists pre e1 e2 post logProof0 r,
    t = pre ++ e1 :: e2 :: post /\
    Forall before_proof pre /\
    obtained_proof e1 = Some logProof0 /\
    proof_reply e2 = Some r /\
    Forall (fun e => proof_reply e = None) post /\
    after_retrieval missing o r post.

(** The sent transaction is never mined: its wait hands back null. *)
Definition unmined_host : Host.t :=
  Host.mk demo_env (Artifact.mk "[]" "0x00") demo_library
    (fun h R q =>
       match q in Request R return Reply R with
       | wait _ => Returned None
       | q' => demo_oracle None None demo_proof (fun _ => true) h _ q'
       end).

(** The proof is there for the query that ends the wait, and gone for the
    next one (the proof endpoint answers its first query only). *)
Definition vanishing_proof_host : Host.t :=
  demo_host (Some [other_log; bundle_log]) (Some [first_l2_log; second_l2_log])
    demo_proof (fun n => (n <? 9)%nat).

(** The same for the JavaScript flow, which makes two more calls before
    it waits for the proof. *)
Definition late_vanishing_proof_host : Host.t :=
  demo_host None None demo_proof (fun n => (n <? 11)%nat).
(** ** Reading the verification off a trace *)

(** A call of [proveL2MessageInclusionShared]: its arguments and its
    reply. *)
Definition verified (e : Event)
  : option (Contract.t * Z * Z * Z * Message.t * list string * Reply bool) :=
  match e with
  | Call q r =>
      match q in Request R
            return Reply R -> option (Contract.t * Z * Z * Z * Message.t * list string
                                      * Reply bool) with
      | proveL2MessageInclusionShared c chainId batchNumber index m proof =>
          fun r => Some (c, chainId, batchNumber, index, m, proof, r)
      | _ => fun _ => None
      end r
  | Sleep _ => None
  end.

Definition is_verified (e : Event) : bool :=
  match verified e with
  | Some _ => true
  | None => false
  end.

(** How the JavaScript flow ends on the reply of the verification. *)
Definition verdict (r : Reply bool) : Outcome unit :=
  match r with
  | Returned true => Fulfilled tt
  | Returned false => Rejected Part000.not_included
  | Thrown err => Rejected err
  end.

(** A run of the JavaScript flow that reached the verification: its last
    three events, and where the arguments of the verification come
    from. *)
Definition verify_shape (host : Host.t) (o : Outcome unit) (t : Trace) : Prop :=
  (Forall (fun e => verified e = None) t /\ o <> Fulfilled tt) \/
  exists pre providerA providerB messenger data overrides tx receipt logProof
         rootChainId root chainId r,
    t = pre ++
        [Call (interopRoots
                 (Contract.mk Part000.L2_INTEROP_ROOT_STORAGE (ViaProvider providerB))
                 rootChainId (LogProof.batch_number logProof)) (Returned root);
         Call (getNetwork providerA) (Returned chainId);
         Call (proveL2MessageInclusionShared
                 (Contract.mk Part000.L2_MESSAGE_VERIFICATION_ADDRESS (ViaProvider providerB))
                 chainId (LogProof.batch_number logProof) (LogProof.id logProof)
                 (Message.mk (Receipt.index receipt) (Receipt.from receipt) (Bytes data))
                 (LogProof.proof logProof)) r] /\
    Forall (fun e => verified e = None) pre /\
    Host.process_env host "L2_RPC_URL" = Some (Provider.rpcUrl providerA) /\
    Host.process_env host "L2_RPC_URL_SECOND" = Some (Provider.rpcUrl providerB) /\
    In (Call (sendToL1 messenger data overrides) (Returned tx)) pre /\
    In (Call (wait tx) (Returned (Some receipt))) pre /\
    In (Call (getLogProof providerA (Tx.hash tx) 0) (Returned (Some logProof))) pre /\
    In (Call (getNetwork providerA) (Returned rootChainId)) pre /\
    Contract.target messenger = Part000.L1_MESSENGER_ADDRESS /\
    data = Ethers.toUtf8Bytes (Host.ethers host) "hello interop" /\
    InteropTest.root_is_set (Some root) = true /\
    toLowerCase root = toLowerCase (LogProof.root logProof) /\
    o = verdict r.
(** The arguments of a [sendToL1] call. *)
Definition l1_args (e : Event) : option (Contract.t * list Byte.byte * Overrides.t) :=
  match e with
  | Call q _ =>
      match q with
      | sendToL1 c data o => Some (c, data, o)
      | _ => None
      end
  | Sleep _ => None
  end.

(** The recipient and the payload of the interop message, as the
    JavaScript flow spells them out. *)
Definition interop_recipient : string :=
  "0x000100000219a614e441CF0795aF14DdB9f7984Da85CD36DB1B8790d".

Definition interop_payload : string :=
  "0xa41368620000000000000000000000000000000000000000000000000000000000000020000000000000000000000000000000000000000000000000000000000000000c68656c6c6f2046726f6d20410000000000000000000000000000000000000000".

(** A run of the JavaScript flow that reached [sendToL1]: the seven calls
    before it, each of which returned, and where the arguments of the call
    come from. *)
Definition l1_shape (host : Host.t) (t : Trace) : Prop :=
  Forall (fun e => l1_args e = None) t \/
  exists walletA walletB messengerWallet greet greetAddress interopTx interopReceipt
         feeData gas r post,
    t = [Call (deploy walletB (Host.Greet host) "gm") (Returned greet);
         Call (waitForDeployment greet) (Returned tt);
         Call (getAddress greet) (Returned greetAddress);
         Call (sendMessage (Contract.mk Part000.INTEROP_CENTER_ADDRESS (ViaWallet walletA))
                 interop_recipient interop_payload [] (Overrides.mk 1000000 1000000000 0))
              (Returned interopTx);
         Call (wait interopTx) (Returned (Some interopReceipt));
         Call (getFeeData (Wallet.provider messengerWallet)) (Returned feeData);
         Call (estimateGas_sendToL1
                 (Contract.mk Part000.L1_MESSENGER_ADDRESS (ViaWallet messengerWallet))
                 (Ethers.toUtf8Bytes (Host.ethers host) "hello interop")) (Returned gas);
         Call (sendToL1
                 (Contract.mk Part000.L1_MESSENGER_ADDRESS (ViaWallet messengerWallet))
                 (Ethers.toUtf8Bytes (Host.ethers host) "hello interop")
                 (Overrides.mk (gas * 2) 1000000000 0)) r] ++ post /\
    Forall (fun e => l1_args e = None) post /\
    Host.process_env host "PRIVATE_KEY" = Some (Wallet.privateKey messengerWallet) /\
    Host.process_env host "L2_RPC_URL"
    = Some (Provider.rpcUrl (Wallet.provider messengerWallet)) /\
    Host.process_env host "L2_RPC_URL" = Some (Provider.rpcUrl (Wallet.provider walletA)) /\
    Host.process_env host "L2_RPC_URL_SECOND"
    = Some (Provider.rpcUrl (Wallet.provider walletB)).
(** A wait for a transaction that handed back no receipt. *)
Definition unmined (e : Event) : bool :=
  match receipt_of e with
  | Some (_, Returned None) => true
  | _ => false
  end.

(** A run of the JavaScript flow in which a wait handed back no receipt
    ends on that wait, with the error of reading [blockNumber] of null. *)
Definition crash_shape (o : Outcome unit) (t : Trace) : Prop :=
  Forall (fun e => unmined e = false) t \/
  exists pre e,
    t = pre ++ [e] /\
    Forall (fun e => unmined e = false) pre /\
    unmined e = true /\
    o = Rejected (Part000.type_error "blockNumber").
(** ** Time

    How long each event of a run took, in milliseconds, by its place in
    the trace. The scripts do not decide this: a timer takes at least the
    time asked of it, a call as long as the endpoint needs to answer. *)

Definition Clock : Type := nat -> Event -> Z.

Definition sound_clock (clock : Clock) : Prop :=
  forall (i : nat) (e : Event),
    match e with
    | Sleep ms => ms <= clock i e
    | Call _ _ => 0 <= clock i e
    end.

(** The time a trace took, its first event being the [i]-th of the run. *)
Fixpoint time_from (clock : Clock) (i : nat) (t : Trace) : Z :=
  match t with
  | [] => 0
  | e :: t' => clock i e + time_from clock (S i) t'
  end.

Definition wall_time (clock : Clock) (t : Trace) : Z := time_from clock 0 t.

(** The part of it spent in calls. *)
Fixpoint calls_time_from (clock : Clock) (i : nat) (t : Trace) : Z :=
  match t with
  | [] => 0
  | Sleep _ :: t' => calls_time_from clock (S i) t'
  | e :: t' => clock i e + calls_time_from clock (S i) t'
  end.

Definition calls_time (clock : Clock) (t : Trace) : Z := calls_time_from clock 0 t.

(** Timers are exact, and every call takes one millisecond. *)
Definition one_ms_calls : Clock :=
  fun _ e =>
    match e with
    | Sleep ms => ms
    | Call _ _ => 1
    end.

(** * Properties *)

(** ** The polling loop *)

Section PollingFacts.

Context {R A : Type}.
Variable q : Request R.
Variable decide : Reply R -> option (Outcome A).
Variable interval : Z.
Variable timeout_error : Error.

Local Abbreviation loop := (poll_loop q decide interval timeout_error).
Local Abbreviation rounds := (idle_rounds q interval).

Lemma attempts_idle_rounds replies : attempts (rounds replies) = List.length replies.
Proof.
  induction replies as [|r rs IH]; [reflexivity|].
  unfold attempts in *. simpl. now rewrite IH.
Qed.

Lemma elapsed_idle_rounds replies :
  elapsed (rounds replies) = interval * Z.of_nat (List.length replies).
Proof.
  induction replies as [|r rs IH]; [simpl; lia|].
  cbn [idle_rounds flat_map app elapsed List.length] in *.
  unfold idle_rounds in IH. rewrite IH. lia.
Qed.

Lemma length_idle_rounds replies :
  List.length (rounds replies) = (2 * List.length replies)%nat.
Proof.
  induction replies as [|r rs IH]; [reflexivity|].
  cbn [idle_rounds flat_map app List.length] in *. unfold idle_rounds in IH. lia.
Qed.

(** Every run is a row of idle rounds, ended by the timeout or by one
    decisive reply. *)
Lemma poll_loop_shape retries host h :
  exists replies,
    Forall (fun r => decide r = None) replies /\
    ((List.length replies = retries /\
      loop retries host h = (Rejected timeout_error, rounds replies))
     \/
     (exists r o, (List.length replies < retries)%nat /\ decide r = Some o /\
        Host.oracle host (h ++ rounds replies) R q = r /\
        loop retries host h = (o, rounds replies ++ [Call q r]))).
Proof.
  revert h. induction retries as [|n IH]; intros h.
  - exists []. split; [constructor|]. left. split; reflexivity.
  - cbn [poll_loop].
    destruct (decide (Host.oracle host h R q)) as [o|] eqn:D.
    + exists []. split; [constructor|]. right.
      exists (Host.oracle host h R q), o. cbn [idle_rounds flat_map app List.length].
      rewrite app_nil_r. repeat split; try assumption; lia.
    + destruct (IH (h ++ [Call q (Host.oracle host h R q); Sleep interval]))
        as (rs & Hrs & [[Hlen Hrun] | (r & o & Hlen & Hd & Ho & Hrun)]).
      * exists (Host.oracle host h R q :: rs). split; [constructor; assumption|].
        left. split; [simpl; lia|]. rewrite Hrun. reflexivity.
      * exists (Host.oracle host h R q :: rs). split; [constructor; assumption|].
        right. exists r, o. repeat split; try assumption.
        -- simpl; lia.
        -- rewrite <- Ho. cbn [idle_rounds flat_map]. now rewrite <- app_assoc.
        -- rewrite Hrun. reflexivity.
Qed.

(** If every reply says "not yet", the waiter uses up its attempts. *)
Lemma poll_loop_exhausts retries host h :
  (forall t, decide (Host.oracle host (h ++ t) R q) = None) ->
  exists replies,
    List.length replies = retries /\
    Forall (fun r => decide r = None) replies /\
    loop retries host h = (Rejected timeout_error, rounds replies).
Proof.
  intros Hnone.
  destruct (poll_loop_shape retries host h)
    as (rs & Hrs & [[Hlen Hrun] | (r & o & _ & Hd & Ho & _)]).
  - exists rs. auto.
  - rewrite <- Ho, Hnone in Hd. discriminate.
Qed.

Lemma first_reply_idle host h k :
  (forall t, (attempts t < S k)%nat -> decide (Host.oracle host (h ++ t) R q) = None) ->
  decide (Host.oracle host h R q) = None.
Proof.
  intros H. specialize (H [] (Nat.lt_0_succ k)). now rewrite app_nil_r in H.
Qed.

(** If the first [k] replies say "not yet" and the next one is decisive,
    the waiter settles on it after [k + 1] attempts. *)
Lemma poll_loop_settles retries host h k r o :
  (k < retries)%nat ->
  (forall t, (attempts t < k)%nat -> decide (Host.oracle host (h ++ t) R q) = None) ->
  (forall t, attempts t = k -> Host.oracle host (h ++ t) R q = r) ->
  decide r = Some o ->
  exists replies,
    List.length replies = k /\
    Forall (fun r => decide r = None) replies /\
    loop retries host h = (o, rounds replies ++ [Call q r]).
Proof.
  revert h k. induction retries as [|n IH]; intros h k Hk Hbefore Hat Hd; [lia|].
  cbn [poll_loop].
  destruct k as [|k'].
  - specialize (Hat [] eq_refl). rewrite app_nil_r in Hat. rewrite Hat, Hd.
    exists []. repeat split. constructor.
  - rewrite (first_reply_idle _ _ _ Hbefore).
    set (r0 := Host.oracle host h R q).
    destruct (IH (h ++ [Call q r0; Sleep interval]) k') as (rs & Hlen & Hrs & Hrun).
    + lia.
    + intros t Ht. rewrite <- app_assoc. apply Hbefore.
      unfold attempts in *. simpl. lia.
    + intros t Ht. rewrite <- app_assoc. apply Hat.
      unfold attempts in *. simpl. lia.
    + assumption.
    + exists (r0 :: rs). split; [simpl; lia|]. split.
      * constructor; [|assumption]. apply (first_reply_idle _ _ _ Hbefore).
      * rewrite Hrun. reflexivity.
Qed.

(** Every event of a run is a timer or an attempt, and an attempt whose
    reply is decisive is the last event and settles the run. *)
Lemma poll_loop_nth retries host h i e :
  nth_error (emitted (loop retries host h)) i = Some e ->
  e = Sleep interval \/
  exists r, e = Call q r /\
    (decide r = None \/
     exists o, decide r = Some o /\
       S i = List.length (emitted (loop retries host h)) /\
       outcome (loop retries host h) = o).
Proof.
  revert h i. induction retries as [|n IH]; intros h i Hnth.
  - destruct i; discriminate.
  - cbn [poll_loop] in *.
    set (r0 := Host.oracle host h R q) in *.
    destruct (decide r0) as [o|] eqn:D.
    + destruct i as [|i]; [|destruct i; discriminate].
      injection Hnth as <-. right. exists r0. split; [reflexivity|].
      right. exists o. repeat split. assumption.
    + specialize (IH (h ++ [Call q r0; Sleep interval])).
      destruct (loop n host (h ++ [Call q r0; Sleep interval])) as [o1 t1].
      unfold emitted, outcome in *. cbn [fst snd] in *.
      destruct i as [|[|i]].
      * injection Hnth as <-. right. exists r0. split; [reflexivity|]. now left.
      * injection Hnth as <-. now left.
      * destruct (IH i Hnth) as [-> | (r & -> & [Hd | (o & Hd & Hlast & Ho)])].
        -- now left.
        -- right. exists r. split; [reflexivity|]. now left.
        -- right. exists r. split; [reflexivity|]. right. exists o.
           repeat split; try assumption. simpl. lia.
Qed.

End PollingFacts.

(** ** The waiters are polling loops *)

Lemma root_loop_is_poll_loop contract chainId batchNumber expectedRoot retries host h :
  InteropTest.root_loop contract chainId batchNumber expectedRoot retries host h =
  poll_loop (interopRoots contract chainId batchNumber) (root_decide expectedRoot)
    InteropTest.POLL_INTERVAL InteropTest.root_timeout retries host h.
Proof.
  revert h. induction retries as [|n IH]; intros h; [reflexivity|].
  cbn [InteropTest.root_loop poll_loop].
  unfold bind at 1, try_catch, bind at 1, await, ret, root_decide.
  destruct (Host.oracle host h string (interopRoots contract chainId batchNumber)) as [s|err].
  - cbn [app]. destruct (InteropTest.root_is_set (Some s)).
    + destruct (toLowerCase s =? toLowerCase expectedRoot)%string; reflexivity.
    + unfold bind, sleep. cbn [app]. rewrite <- app_assoc. cbn [app].
      rewrite IH. now destruct (poll_loop _ _ _ _ n host _).
  - cbn [app]. unfold bind, sleep. cbn [app]. rewrite <- app_assoc. cbn [app].
    rewrite IH. now destruct (poll_loop _ _ _ _ n host _).
Qed.

Lemma finality_loop_is_poll_loop provider blockNumber retries host h :
  InteropTest.finality_loop provider blockNumber retries host h =
  poll_loop (getBlock provider "finalized") (finality_decide blockNumber)
    InteropTest.POLL_INTERVAL InteropTest.finality_timeout retries host h.
Proof.
  revert h. induction retries as [|n IH]; intros h; [reflexivity|].
  cbn [InteropTest.finality_loop poll_loop].
  unfold bind at 1, try_catch, bind at 1, await, ret, finality_decide.
  destruct (Host.oracle host h (option Block.t) (getBlock provider "finalized")) as [[b|]|err];
    cbn [app executedBlock_of];
    (match goal with |- context [?x >=? ?y] => destruct (x >=? y) end;
     [reflexivity|
      unfold bind, sleep; cbn [app]; rewrite <- app_assoc; cbn [app];
      rewrite IH; now destruct (poll_loop _ _ _ _ n host _)]).
Qed.

(** The JavaScript script's waiters are the TypeScript ones, run through
    [wallet.provider]. *)
Lemma Part000_root_loop contract chainId batchNumber expectedRoot retries :
  Part000.root_loop contract chainId batchNumber expectedRoot retries =
  InteropTest.root_loop contract chainId batchNumber expectedRoot retries.
Proof.
  induction retries as [|n IH]; [reflexivity|].
  cbn [Part000.root_loop InteropTest.root_loop]. now rewrite IH.
Qed.

Lemma Part000_waitUntilRootBecomesAvailable wallet chainId batchNumber expectedRoot :
  Part000.waitUntilRootBecomesAvailable wallet chainId batchNumber expectedRoot =
  InteropTest.waitUntilRootBecomesAvailable (Wallet.provider wallet) chainId batchNumber expectedRoot.
Proof. apply Part000_root_loop. Qed.

Lemma Part000_finality_loop wallet blockNumber retries :
  Part000.finality_loop wallet blockNumber retries =
  InteropTest.finality_loop (Wallet.provider wallet) blockNumber retries.
Proof.
  induction retries as [|n IH]; [reflexivity|].
  cbn [Part000.finality_loop InteropTest.finality_loop]. now rewrite IH.
Qed.

Lemma Part000_waitUntilBlockFinalized wallet blockNumber :
  Part000.waitUntilBlockFinalized wallet blockNumber =
  InteropTest.waitUntilBlockFinalized (Wallet.provider wallet) blockNumber.
Proof. apply Part000_finality_loop. Qed.

Lemma Part000_proof_loop fuel wallet txHash :
  Part000.proof_loop fuel wallet txHash =
  InteropTest.proof_loop fuel (Wallet.provider wallet) txHash.
Proof.
  induction fuel as [|n IH]; [reflexivity|].
  cbn [Part000.proof_loop InteropTest.proof_loop]. now rewrite IH.
Qed.

Lemma Part000_waitForL2ToL1LogProof fuel wallet blockNumber txHash :
  Part000.waitForL2ToL1LogProof fuel wallet blockNumber txHash =
  InteropTest.waitForL2ToL1LogProof fuel (Wallet.provider wallet) blockNumber txHash.
Proof.
  unfold Part000.waitForL2ToL1LogProof, InteropTest.waitForL2ToL1LogProof.
  now rewrite Part000_waitUntilBlockFinalized, (Part000_proof_loop fuel).
Qed.

(** ** Facts about roots as text *)

Lemma nonzero_root_is_set s :
  nonzero_root s -> InteropTest.root_is_set (Some s) = true.
Proof.
  intros [Hb Hz]. unfold InteropTest.root_is_set, truthy.
  destruct (String.eqb_spec s "") as [->|_]; [discriminate Hb|].
  destruct (String.eqb_spec s InteropTest.ZeroAddress) as [->|_]; [discriminate Hb|].
  destruct (String.eqb_spec s ("0x" ++ Js.repeat "00" 32)%string) as [E|_]; [|reflexivity].
  exfalso. apply Hz. exact E.
Qed.

Lemma root_decide_nonzero expectedRoot s :
  nonzero_root s ->
  root_decide expectedRoot (Returned s) =
  Some (if (toLowerCase s =? toLowerCase expectedRoot)%string
        then Fulfilled tt
        else Rejected (InteropTest.root_mismatch expectedRoot s)).
Proof.
  intros H. unfold root_decide. now rewrite (nonzero_root_is_set s H).
Qed.

(** ** The root-availability waiter *)

(** C1. Whenever a run of the root waiter reads a non-zero root for its
    key, that read is the last thing the run does: the waiter returns at
    once when the root equals [expectedRoot] up to letter case, and
    otherwise throws the mismatch error naming both values. Both scripts'
    waiters make the same run. *)
Theorem root_waiter_settles_on_nonzero_root
    (host : Host.t) (h : Trace) (wallet : Wallet.t) (chainId batchNumber : Z)
    (expectedRoot : string) (i : nat) (e : Event)
    (c : Contract.t) (cid bn : Z) (s : string) :
  let run := InteropTest.waitUntilRootBecomesAvailable
               (Wallet.provider wallet) chainId batchNumber expectedRoot host h in
  nth_error (emitted run) i = Some e ->
  root_reply e = Some (c, cid, bn, Returned s) ->
  nonzero_root s ->
  Part000.waitUntilRootBecomesAvailable wallet chainId batchNumber expectedRoot host h = run /\
  (cid, bn) = (chainId, batchNumber) /\
  S i = List.length (emitted run) /\
  outcome run =
    if (toLowerCase s =? toLowerCase expectedRoot)%string
    then Fulfilled tt
    else Rejected (mkError ("Interop root mismatch: expected " ++ expectedRoot
                            ++ ", got " ++ s)%string).
Proof.
  intros run Hnth Hreply Hs. subst run.
  rewrite Part000_waitUntilRootBecomesAvailable. split; [reflexivity|].
  unfold InteropTest.waitUntilRootBecomesAvailable in *.
  rewrite root_loop_is_poll_loop in *.
  apply poll_loop_nth in Hnth.
  destruct Hnth as [-> | (r & -> & Hr)]; [discriminate Hreply|].
  cbn in Hreply. injection Hreply as <- <- <- ->.
  rewrite (root_decide_nonzero _ _ Hs) in Hr.
  destruct Hr as [Hd | (o & Hd & Hlast & Ho)]; [discriminate Hd|].
  injection Hd as <-. repeat split; assumption.
Qed.

Lemma root_waiter_settles_on_nonzero_root_witness :
  let run := InteropTest.waitUntilRootBecomesAvailable demo_provider 1 7 demo_root_upper
               (scripted_host root_appears_third (fun _ => Thrown unreachable)
                  (fun _ => Thrown unreachable)) [] in
  List.length (emitted run) = 5%nat /\ outcome run = Fulfilled tt.
Proof.
  pose proof (root_waiter_settles_on_nonzero_root
    (scripted_host root_appears_third (fun _ => Thrown unreachable)
       (fun _ => Thrown unreachable)) [] demo_wallet 1 7 demo_root_upper 4
    (Call (interopRoots (Contract.mk InteropTest.L2_INTEROP_ROOT_STORAGE
                           (ViaProvider demo_provider)) 1 7) (Returned demo_root))
    (Contract.mk InteropTest.L2_INTEROP_ROOT_STORAGE (ViaProvider demo_provider)) 1 7
    demo_root) as H.
  cbv zeta in H |- *.
  destruct H as (_ & _ & Hlen & Hout).
  - vm_compute. reflexivity.
  - reflexivity.
  - split; [reflexivity | intro E; discriminate E].
  - split; [symmetry; exact Hlen | exact Hout].
Defined.

(** ** Timeouts of the two bounded waiters *)

Lemma initial_retries_value : InteropTest.initial_retries = 600%nat.
Proof. reflexivity. Qed.

(** The time a run took is at least the time it asked of its timers plus
    the time its calls took. *)
Lemma clock_bounds clock i t :
  sound_clock clock ->
  0 <= calls_time_from clock i t /\
  elapsed t + calls_time_from clock i t <= time_from clock i t.
Proof.
  intros Hclock. revert i. induction t as [|e t IH]; intros i; [cbn; lia|].
  specialize (IH (S i)). pose proof (Hclock i e) as He.
  destruct e as [R q r|ms]; cbn [calls_time_from time_from elapsed]; lia.
Qed.

Lemma budget_of_timers :
  InteropTest.POLL_INTERVAL * Z.of_nat InteropTest.initial_retries
  = InteropTest.DEFAULT_TIMEOUT.
Proof. reflexivity. Qed.

(** C3, as the scripts have it. A waiter whose every poll says "not yet"
    (the root read is null, thrown or zero; the finalized height, 0 on a
    failed read, is below the block) makes exactly
    [floor(DEFAULT_TIMEOUT / POLL_INTERVAL)] = 600 attempts, each followed
    by one sleep of [POLL_INTERVAL], and then throws its timeout error. The
    waiter counts attempts, not time: the time it asks of its timers adds
    up to [DEFAULT_TIMEOUT], so on any clock (a timer takes at least what
    was asked, a call takes what it takes) the run does not end before
    [DEFAULT_TIMEOUT], hence not before timeout - interval; but it lasts
    [DEFAULT_TIMEOUT] and the time of its 600 calls on top, which no
    timeout + interval bounds. *)
Theorem waiters_time_out_after_all_attempts
    (host : Host.t) (h : Trace) (provider : Provider.t)
    (chainId batchNumber : Z) (expectedRoot : string) (blockNumber : Z) :
  let contract := Contract.mk InteropTest.L2_INTEROP_ROOT_STORAGE (ViaProvider provider) in
  let root_q := interopRoots contract chainId batchNumber in
  let block_q := getBlock provider "finalized" in
  let root_run :=
    InteropTest.waitUntilRootBecomesAvailable provider chainId batchNumber expectedRoot host h in
  let finality_run := InteropTest.waitUntilBlockFinalized provider blockNumber host h in
  let budget := Z.to_nat (InteropTest.DEFAULT_TIMEOUT / InteropTest.POLL_INTERVAL) in
  ((forall t, InteropTest.root_is_set
                (root_of_reply (Host.oracle host (h ++ t) string root_q)) = false) ->
   outcome root_run = Rejected (mkError "Interop root did not become available in time") /\
   (exists replies, List.length replies = budget /\
      emitted root_run = idle_rounds root_q InteropTest.POLL_INTERVAL replies) /\
   attempts (emitted root_run) = budget /\
   elapsed (emitted root_run) = InteropTest.DEFAULT_TIMEOUT /\
   (forall clock, sound_clock clock ->
      InteropTest.DEFAULT_TIMEOUT - InteropTest.POLL_INTERVAL
      <= wall_time clock (emitted root_run) /\
      0 <= calls_time clock (emitted root_run) /\
      InteropTest.DEFAULT_TIMEOUT + calls_time clock (emitted root_run)
      <= wall_time clock (emitted root_run)))
  /\
  ((forall t, executedBlock_of (Host.oracle host (h ++ t) (option Block.t) block_q)
              < blockNumber) ->
   outcome finality_run = Rejected (mkError "Block was not finalized in time") /\
   (exists replies, List.length replies = budget /\
      emitted finality_run = idle_rounds block_q InteropTest.POLL_INTERVAL replies) /\
   attempts (emitted finality_run) = budget /\
   elapsed (emitted finality_run) = InteropTest.DEFAULT_TIMEOUT /\
   (forall clock, sound_clock clock ->
      InteropTest.DEFAULT_TIMEOUT - InteropTest.POLL_INTERVAL
      <= wall_time clock (emitted finality_run) /\
      0 <= calls_time clock (emitted finality_run) /\
      InteropTest.DEFAULT_TIMEOUT + calls_time clock (emitted finality_run)
      <= wall_time clock (emitted finality_run))).
Proof.
  assert (Htime : forall (R : Type) (q : Request R) rs clock,
            List.length rs = InteropTest.initial_retries ->
            sound_clock clock ->
            InteropTest.DEFAULT_TIMEOUT - InteropTest.POLL_INTERVAL
            <= wall_time clock (idle_rounds q InteropTest.POLL_INTERVAL rs) /\
            0 <= calls_time clock (idle_rounds q InteropTest.POLL_INTERVAL rs) /\
            InteropTest.DEFAULT_TIMEOUT
            + calls_time clock (idle_rounds q InteropTest.POLL_INTERVAL rs)
            <= wall_time clock (idle_rounds q InteropTest.POLL_INTERVAL rs)).
  { intros R q rs clock Hlen Hclock.
    destruct (clock_bounds clock 0 (idle_rounds q InteropTest.POLL_INTERVAL rs) Hclock)
      as [Hcalls Hall].
    rewrite elapsed_idle_rounds, Hlen, budget_of_timers in Hall.
    unfold wall_time, calls_time, InteropTest.POLL_INTERVAL in *. lia. }
  cbv zeta. split; intros Hidle.
  - unfold InteropTest.waitUntilRootBecomesAvailable.
    rewrite root_loop_is_poll_loop.
    destruct (poll_loop_exhausts
                (interopRoots (Contract.mk InteropTest.L2_INTEROP_ROOT_STORAGE
                                 (ViaProvider provider)) chainId batchNumber)
                (root_decide expectedRoot) InteropTest.POLL_INTERVAL
                InteropTest.root_timeout InteropTest.initial_retries host h)
      as (rs & Hlen & _ & Hrun).
    { intros t. specialize (Hidle t). unfold root_decide.
      destruct (Host.oracle host (h ++ t) string _) as [s|err]; [|reflexivity].
      cbn [root_of_reply] in Hidle. now rewrite Hidle. }
    rewrite Hrun. unfold outcome, emitted. cbn [fst snd].
    split; [reflexivity|]. split; [exists rs; split; [exact Hlen | reflexivity]|].
    split; [now rewrite attempts_idle_rounds|].
    split; [now rewrite elapsed_idle_rounds, Hlen|].
    intros clock Hclock. now apply Htime.
  - unfold InteropTest.waitUntilBlockFinalized.
    rewrite finality_loop_is_poll_loop.
    destruct (poll_loop_exhausts (getBlock provider "finalized")
                (finality_decide blockNumber) InteropTest.POLL_INTERVAL
                InteropTest.finality_timeout InteropTest.initial_retries host h)
      as (rs & Hlen & _ & Hrun).
    { intros t. specialize (Hidle t). unfold finality_decide.
      destruct (Z.geb_spec (executedBlock_of
                  (Host.oracle host (h ++ t) (option Block.t) (getBlock provider "finalized")))
                  blockNumber); [lia | reflexivity]. }
    rewrite Hrun. unfold outcome, emitted. cbn [fst snd].
    split; [reflexivity|]. split; [exists rs; split; [exact Hlen | reflexivity]|].
    split; [now rewrite attempts_idle_rounds|].
    split; [now rewrite elapsed_idle_rounds, Hlen|].
    intros clock Hclock. now apply Htime.
Qed.

Lemma waiters_time_out_after_all_attempts_witness :
  let host := scripted_host (fun _ => Returned ZERO_ROOT) (fun _ => Returned None)
                (fun _ => Thrown unreachable) in
  attempts (emitted (InteropTest.waitUntilRootBecomesAvailable demo_provider 1 7 demo_root
                       host [])) = 600%nat /\
  outcome (InteropTest.waitUntilBlockFinalized demo_provider 12 host [])
    = Rejected (mkError "Block was not finalized in time").
Proof.
  cbv zeta.
  destruct (waiters_time_out_after_all_attempts
              (scripted_host (fun _ => Returned ZERO_ROOT) (fun _ => Returned None)
                 (fun _ => Thrown unreachable)) [] demo_provider 1 7 demo_root 12)
    as [Hroot Hfinal].
  split.
  - apply Hroot. intros t. reflexivity.
  - apply Hfinal. intros t. reflexivity.
Defined.

Lemma one_ms_calls_sound : sound_clock one_ms_calls.
Proof. intros i [R q r|ms]; cbn; lia. Qed.

(** The bound of timeout + interval on the elapsed time fails: when every
    read of a root that stays zero takes one millisecond and the timers
    are exact, the waiter ends with its timeout error after 60600 ms, half
    a second later than timeout + interval. *)
Lemma slow_fetches_outlast_the_timeout :
  let host := scripted_host (fun _ => Returned ZERO_ROOT) (fun _ => Returned None)
                (fun _ => Thrown unreachable) in
  let run := InteropTest.waitUntilRootBecomesAvailable demo_provider 1 7 demo_root host [] in
  sound_clock one_ms_calls /\
  outcome run = Rejected (mkError "Interop root did not become available in time") /\
  wall_time one_ms_calls (emitted run) = 60600 /\
  ~ wall_time one_ms_calls (emitted run)
    <= InteropTest.DEFAULT_TIMEOUT + InteropTest.POLL_INTERVAL.
Proof.
  cbv zeta.
  assert (Htime : wall_time one_ms_calls
                    (emitted (InteropTest.waitUntilRootBecomesAvailable demo_provider 1 7
                                demo_root
                                (scripted_host (fun _ => Returned ZERO_ROOT)
                                   (fun _ => Returned None) (fun _ => Thrown unreachable)) []))
                  = 60600) by (vm_compute; reflexivity).
  split; [exact one_ms_calls_sound|]. split; [vm_compute; reflexivity|].
  split; [exact Htime|]. rewrite Htime. vm_compute. intros H. now apply H.
Qed.

(** ** Thrown fetches are not fatal *)

Lemma poll_loop_first_decisive {R A : Type} (q : Request R) decide interval timeout_error
    (n : nat) host h (o : Outcome A) :
  decide (Host.oracle host h R q) = Some o ->
  poll_loop q decide interval timeout_error (S n) host h
  = (o, [Call q (Host.oracle host h R q)]).
Proof. intros H. cbn [poll_loop]. now rewrite H. Qed.

(** C5, as the scripts have it. If the fetch throws on the first [n]
    attempts of a bounded waiter and hands back the sought value on attempt
    [n + 1], within the budget of 600 attempts, the waiter succeeds: the
    root waiter after exactly [n + 1] attempts, the finality waiter as well
    when the block number is positive (for a block number of 0 or less a
    failed read already counts as finalized, and the waiter succeeds at
    once). The wait for the proof is not such a waiter: its query is not
    inside a [try], and once the block is finalized the first proof query
    that throws ends the operation with the thrown error. *)
Theorem waiters_tolerate_thrown_fetches
    (host : Host.t) (h : Trace) (provider : Provider.t)
    (chainId batchNumber : Z) (expectedRoot : string) (blockNumber : Z)
    (n : nat) (s : string) (b : Block.t) :
  let contract := Contract.mk InteropTest.L2_INTEROP_ROOT_STORAGE (ViaProvider provider) in
  let root_q := interopRoots contract chainId batchNumber in
  let block_q := getBlock provider "finalized" in
  let root_run :=
    InteropTest.waitUntilRootBecomesAvailable provider chainId batchNumber expectedRoot host h in
  let finality_run := InteropTest.waitUntilBlockFinalized provider blockNumber host h in
  (n + 1 <= Z.to_nat (InteropTest.DEFAULT_TIMEOUT / InteropTest.POLL_INTERVAL))%nat ->
  ((forall t, (attempts t < n)%nat ->
      exists err, Host.oracle host (h ++ t) string root_q = Thrown err) ->
   (forall t, attempts t = n -> Host.oracle host (h ++ t) string root_q = Returned s) ->
   nonzero_root s ->
   toLowerCase s = toLowerCase expectedRoot ->
   outcome root_run = Fulfilled tt /\ attempts (emitted root_run) = S n)
  /\
  ((forall t, (attempts t < n)%nat ->
      exists err, Host.oracle host (h ++ t) (option Block.t) block_q = Thrown err) ->
   (forall t, attempts t = n ->
      Host.oracle host (h ++ t) (option Block.t) block_q = Returned (Some b)) ->
   Block.number b >= blockNumber ->
   outcome finality_run = Fulfilled tt /\
   (0 < blockNumber -> attempts (emitted finality_run) = S n))
  /\
  (forall (txHash : string) (fuel : nat) (err : Error),
     outcome finality_run = Fulfilled tt ->
     Host.oracle host (h ++ emitted finality_run) _ (getLogProof provider txHash 0)
     = Thrown err ->
     InteropTest.waitForL2ToL1LogProof (S fuel) provider blockNumber txHash host h
     = (Rejected err,
        emitted finality_run ++ [Call (getLogProof provider txHash 0) (Thrown err)])).
Proof.
  cbv zeta. intros Hn. split; [|split].
  - intros Hthrow Hthen Hs Heq.
    unfold InteropTest.waitUntilRootBecomesAvailable. rewrite root_loop_is_poll_loop.
    destruct (poll_loop_settles
                (interopRoots (Contract.mk InteropTest.L2_INTEROP_ROOT_STORAGE
                                 (ViaProvider provider)) chainId batchNumber)
                (root_decide expectedRoot) InteropTest.POLL_INTERVAL InteropTest.root_timeout
                InteropTest.initial_retries host h n (Returned s) (Fulfilled tt))
      as (rs & Hlen & _ & Hrun).
    + unfold InteropTest.initial_retries. lia.
    + intros t Ht. destruct (Hthrow t Ht) as [err ->]. reflexivity.
    + exact Hthen.
    + rewrite (root_decide_nonzero _ _ Hs), Heq, String.eqb_refl. reflexivity.
    + rewrite Hrun. unfold outcome, emitted, attempts. cbn [fst snd].
      split; [reflexivity|]. rewrite filter_app, length_app.
      fold (attempts (idle_rounds (interopRoots (Contract.mk InteropTest.L2_INTEROP_ROOT_STORAGE
                                 (ViaProvider provider)) chainId batchNumber)
                        InteropTest.POLL_INTERVAL rs)).
      rewrite attempts_idle_rounds, Hlen. simpl. lia.
  - intros Hthrow Hthen Hb.
    unfold InteropTest.waitUntilBlockFinalized. rewrite finality_loop_is_poll_loop.
    assert (Hdec : finality_decide blockNumber (Returned (Some b)) = Some (Fulfilled tt)).
    { unfold finality_decide. cbn [executedBlock_of].
      destruct (Z.geb_spec (Block.number b) blockNumber); [reflexivity | lia]. }
    destruct (Z.ltb_spec 0 blockNumber) as [Hpos | Hnonpos].
    + destruct (poll_loop_settles (getBlock provider "finalized")
                  (finality_decide blockNumber) InteropTest.POLL_INTERVAL
                  InteropTest.finality_timeout
                  InteropTest.initial_retries host h n (Returned (Some b)) (Fulfilled tt))
        as (rs & Hlen & _ & Hrun).
      * unfold InteropTest.initial_retries. lia.
      * intros t Ht. destruct (Hthrow t Ht) as [err ->].
        unfold finality_decide. cbn [executedBlock_of].
        destruct (Z.geb_spec 0 blockNumber); [lia | reflexivity].
      * exact Hthen.
      * exact Hdec.
      * rewrite Hrun. unfold outcome, emitted, attempts. cbn [fst snd].
        split; [reflexivity|]. intros _. rewrite filter_app, length_app.
        fold (attempts (idle_rounds (getBlock provider "finalized")
                          InteropTest.POLL_INTERVAL rs)).
        rewrite attempts_idle_rounds, Hlen. simpl. lia.
    + rewrite initial_retries_value.
      rewrite (poll_loop_first_decisive _ _ _ _ _ _ _ (Fulfilled tt)).
      * split; [reflexivity | lia].
      * destruct n as [|n'].
        -- specialize (Hthen [] eq_refl). rewrite app_nil_r in Hthen.
           rewrite Hthen. exact Hdec.
        -- destruct (Hthrow [] (Nat.lt_0_succ n')) as [err Herr].
           rewrite app_nil_r in Herr. rewrite Herr.
           unfold finality_decide. cbn [executedBlock_of].
           destruct (Z.geb_spec 0 blockNumber); [reflexivity | lia].
  - intros txHash fuel err Hfin Hthrow.
    unfold InteropTest.waitForL2ToL1LogProof, bind.
    destruct (InteropTest.waitUntilBlockFinalized provider blockNumber host h)
      as [[[]|e|] fin]; unfold outcome, emitted in *; cbn [fst snd] in *;
      try discriminate Hfin.
    cbn [InteropTest.proof_loop]. unfold bind, await. now rewrite Hthrow.
Qed.

Lemma waiters_tolerate_thrown_fetches_witness :
  let host := scripted_host (throws_thrice demo_root) (throws_thrice (Some (Block.mk 12)))
                (fun _ => Thrown unreachable) in
  attempts (emitted (InteropTest.waitUntilRootBecomesAvailable demo_provider 1 7
                       demo_root_upper host [])) = 4%nat /\
  outcome (InteropTest.waitUntilBlockFinalized demo_provider 12 host []) = Fulfilled tt.
Proof.
  cbv zeta.
  destruct (waiters_tolerate_thrown_fetches
              (scripted_host (throws_thrice demo_root) (throws_thrice (Some (Block.mk 12)))
                 (fun _ => Thrown unreachable)) [] demo_provider 1 7 demo_root_upper 12
              3 demo_root (Block.mk 12)) as (Hroot & Hfinal & _).
  - apply Nat.leb_le. reflexivity.
  - split.
    + apply Hroot.
      * intros t Ht. exists unreachable.
        change (throws_thrice demo_root (attempts t) = Thrown unreachable).
        unfold throws_thrice. apply Nat.ltb_lt in Ht. now rewrite Ht.
      * intros t Ht.
        change (throws_thrice demo_root (attempts t) = Returned demo_root).
        now rewrite Ht.
      * split; [reflexivity | intro E; discriminate E].
      * reflexivity.
    + apply Hfinal.
      * intros t Ht. exists unreachable.
        change (throws_thrice (Some (Block.mk 12)) (attempts t) = Thrown unreachable).
        unfold throws_thrice. apply Nat.ltb_lt in Ht. now rewrite Ht.
      * intros t Ht.
        change (throws_thrice (Some (Block.mk 12)) (attempts t) = Returned (Some (Block.mk 12))).
        now rewrite Ht.
      * cbn. lia.
Defined.

(** The claim fails for the wait for the proof: the block is finalized,
    the proof query throws on the first two attempts and would hand back
    the proof on the third, and the operation ends with the thrown error
    at the first of them. *)
Lemma proof_wait_aborts_on_a_thrown_query :
  let host := scripted_host (fun _ => Thrown unreachable)
                (fun _ => Returned (Some (Block.mk 12))) (throws_thrice (Some demo_proof)) in
  let run := InteropTest.waitForL2ToL1LogProof 10 demo_provider 12 "0xabc" host [] in
  (forall t, attempts t = 3%nat ->
     Host.oracle host t _ (getLogProof demo_provider "0xabc" 0)
     = Returned (Some demo_proof)) /\
  outcome run = Rejected unreachable /\
  emitted run = [Call (getBlock demo_provider "finalized") (Returned (Some (Block.mk 12)));
                 Call (getLogProof demo_provider "0xabc" 0) (Thrown unreachable)].
Proof.
  cbv zeta. split; [|split; reflexivity].
  intros t Ht.
  change (throws_thrice (Some demo_proof) (attempts t) = Returned (Some demo_proof)).
  now rewrite Ht.
Qed.

(** ** A zero root is never accepted *)

Lemma lower_ascii_zero c : lower_ascii c = "0"%char -> c = "0"%char.
Proof.
  destruct c as [[] [] [] [] [] [] [] []]; vm_compute; intros E;
    first [reflexivity | discriminate E].
Qed.

Lemma toLowerCase_zeros n s :
  toLowerCase s = Js.repeat "0" n -> s = Js.repeat "0" n.
Proof.
  revert s. induction n as [|n IH]; intros [|c s] E; try discriminate E.
  - reflexivity.
  - cbn in E. injection E as Ec Es.
    cbn. now rewrite (lower_ascii_zero c Ec), (IH s Es).
Qed.

Lemma lower_zero_root s :
  is_bytes32 s = true -> toLowerCase s = ZERO_ROOT -> s = ZERO_ROOT.
Proof.
  destruct s as [|c1 [|c2 digits]]; try discriminate.
  intros Hb Hl. cbn [is_bytes32] in Hb.
  apply andb_prop in Hb as [Hb _]. apply andb_prop in Hb as [Hb _].
  apply andb_prop in Hb as [H1 H2].
  apply Ascii.eqb_eq in H1, H2. subst c1 c2.
  change ZERO_ROOT with (String "0" (String "x" (Js.repeat "0" 64))) in *.
  cbn [toLowerCase] in Hl. injection Hl as Hd.
  now rewrite (toLowerCase_zeros 64 digits Hd).
Qed.

(** C9. The waiter's guard takes a null root (a failed fetch), the 20-byte
    zero address and the 32-byte zero digest for "not yet available", and a
    waiter that reads only such values uses up its 600 attempts. So when
    [expectedRoot] is the zero digest the waiter never succeeds, whatever
    [bytes32] values the endpoint hands back, and when the stored root
    stays zero it ends in the timeout error. Both scripts' waiters make the
    same run. *)
Theorem root_waiter_never_accepts_zero_root
    (host : Host.t) (h : Trace) (wallet : Wallet.t) (chainId batchNumber : Z) :
  let provider := Wallet.provider wallet in
  let contract := Contract.mk InteropTest.L2_INTEROP_ROOT_STORAGE (ViaProvider provider) in
  let root_q := interopRoots contract chainId batchNumber in
  let run expectedRoot :=
    InteropTest.waitUntilRootBecomesAvailable provider chainId batchNumber expectedRoot host h in
  (InteropTest.root_is_set None = false /\
   InteropTest.root_is_set (Some InteropTest.ZeroAddress) = false /\
   InteropTest.root_is_set (Some ZERO_ROOT) = false) /\
  (forall expectedRoot,
     Part000.waitUntilRootBecomesAvailable wallet chainId batchNumber expectedRoot host h
     = run expectedRoot) /\
  (forall expectedRoot,
     (forall t, let root := root_of_reply (Host.oracle host (h ++ t) string root_q) in
                root = None \/ root = Some InteropTest.ZeroAddress \/ root = Some ZERO_ROOT) ->
     outcome (run expectedRoot) = Rejected (mkError "Interop root did not become available in time") /\
     attempts (emitted (run expectedRoot)) = 600%nat) /\
  ((forall t s, Host.oracle host (h ++ t) string root_q = Returned s -> is_bytes32 s = true) ->
   outcome (run ZERO_ROOT) <> Fulfilled tt) /\
  ((forall t, Host.oracle host (h ++ t) string root_q = Returned ZERO_ROOT) ->
   outcome (run ZERO_ROOT) = Rejected (mkError "Interop root did not become available in time")).
Proof.
  cbv zeta.
  assert (Hidle : forall expectedRoot,
    (forall t, InteropTest.root_is_set
                 (root_of_reply
                    (Host.oracle host (h ++ t) string
                       (interopRoots (Contract.mk InteropTest.L2_INTEROP_ROOT_STORAGE
                          (ViaProvider (Wallet.provider wallet))) chainId batchNumber))) = false) ->
    outcome (InteropTest.waitUntilRootBecomesAvailable (Wallet.provider wallet)
               chainId batchNumber expectedRoot host h) = Rejected InteropTest.root_timeout /\
    attempts (emitted (InteropTest.waitUntilRootBecomesAvailable (Wallet.provider wallet)
               chainId batchNumber expectedRoot host h)) = 600%nat).
  { intros expectedRoot Hnone.
    unfold InteropTest.waitUntilRootBecomesAvailable. rewrite root_loop_is_poll_loop.
    destruct (poll_loop_exhausts
                (interopRoots (Contract.mk InteropTest.L2_INTEROP_ROOT_STORAGE
                   (ViaProvider (Wallet.provider wallet))) chainId batchNumber)
                (root_decide expectedRoot) InteropTest.POLL_INTERVAL
                InteropTest.root_timeout InteropTest.initial_retries host h)
      as (rs & Hlen & _ & Hrun).
    { intros t. specialize (Hnone t). unfold root_decide.
      destruct (Host.oracle host (h ++ t) string _) as [s|err]; [|reflexivity].
      cbn [root_of_reply] in Hnone. now rewrite Hnone. }
    rewrite Hrun. unfold outcome, emitted. cbn [fst snd].
    rewrite attempts_idle_rounds, Hlen. split; reflexivity. }
  split; [repeat split|]. split; [|split; [|split]].
  - intros expectedRoot. now rewrite Part000_waitUntilRootBecomesAvailable.
  - intros expectedRoot Hzero. apply Hidle. intros t.
    destruct (Hzero t) as [-> | [-> | ->]]; reflexivity.
  - intros Htyped Hok.
    unfold InteropTest.waitUntilRootBecomesAvailable in Hok.
    rewrite root_loop_is_poll_loop in Hok.
    destruct (poll_loop_shape
                (interopRoots (Contract.mk InteropTest.L2_INTEROP_ROOT_STORAGE
                   (ViaProvider (Wallet.provider wallet))) chainId batchNumber)
                (root_decide ZERO_ROOT) InteropTest.POLL_INTERVAL
                InteropTest.root_timeout InteropTest.initial_retries host h)
      as (rs & _ & [[_ Hrun] | (r & o & _ & Hd & Hr & Hrun)]);
      rewrite Hrun in Hok; unfold outcome in Hok; cbn [fst] in Hok; [discriminate Hok|].
    subst o. destruct r as [s|err]; [|discriminate Hd].
    unfold root_decide in Hd.
    destruct (InteropTest.root_is_set (Some s)) eqn:Hset; [|discriminate Hd].
    destruct (String.eqb_spec (toLowerCase s) (toLowerCase ZERO_ROOT)) as [E|_];
      [|discriminate Hd].
    apply (lower_zero_root s (Htyped _ _ Hr)) in E. subst s. discriminate Hset.
  - intros Hzero. apply Hidle. intros t. now rewrite Hzero.
Qed.

Lemma root_waiter_never_accepts_zero_root_witness :
  outcome (InteropTest.waitUntilRootBecomesAvailable demo_provider 1 7 ZERO_ROOT
             (scripted_host (fun _ => Returned ZERO_ROOT) (fun _ => Thrown unreachable)
                (fun _ => Thrown unreachable)) [])
  = Rejected (mkError "Interop root did not become available in time").
Proof.
  destruct (root_waiter_never_accepts_zero_root
              (scripted_host (fun _ => Returned ZERO_ROOT) (fun _ => Thrown unreachable)
                 (fun _ => Thrown unreachable)) [] demo_wallet 1 7)
    as (_ & _ & _ & _ & Hstays).
  apply Hstays. intros t. reflexivity.
Defined.

(** ** Waiting for the log proof *)

Lemma proof_loop_stalls fuel provider txHash host h :
  (forall t, Host.oracle host (h ++ t) _ (getLogProof provider txHash 0) = Returned None) ->
  InteropTest.proof_loop fuel provider txHash host h =
  (Pending, idle_rounds (getLogProof provider txHash 0) (Provider.pollingInterval provider)
              (List.repeat (Returned None) fuel)).
Proof.
  revert h. induction fuel as [|n IH]; intros h Hnull; [reflexivity|].
  cbn [InteropTest.proof_loop]. unfold bind at 1, await.
  pose proof (Hnull []) as H0. rewrite app_nil_r in H0. rewrite H0.
  unfold bind, sleep. cbn [app]. rewrite <- app_assoc. cbn [app].
  rewrite IH; [reflexivity|].
  intros t. rewrite <- app_assoc. apply Hnull.
Qed.

Lemma proof_loop_finds fuel k provider txHash host h logProof :
  (k < fuel)%nat ->
  (forall t, (attempts t < k)%nat ->
     Host.oracle host (h ++ t) _ (getLogProof provider txHash 0) = Returned None) ->
  (forall t, attempts t = k ->
     Host.oracle host (h ++ t) _ (getLogProof provider txHash 0) = Returned (Some logProof)) ->
  InteropTest.proof_loop fuel provider txHash host h =
  (Fulfilled tt,
   idle_rounds (getLogProof provider txHash 0) (Provider.pollingInterval provider)
     (List.repeat (Returned None) k)
   ++ [Call (getLogProof provider txHash 0) (Returned (Some logProof))]).
Proof.
  revert h k. induction fuel as [|n IH]; intros h k Hk Hnull Hthen; [lia|].
  cbn [InteropTest.proof_loop]. unfold bind at 1, await.
  destruct k as [|k'].
  - pose proof (Hthen [] eq_refl) as H0. rewrite app_nil_r in H0. rewrite H0.
    reflexivity.
  - pose proof (Hnull [] (Nat.lt_0_succ k')) as H0. rewrite app_nil_r in H0. rewrite H0.
    unfold bind, sleep. cbn [app]. rewrite <- app_assoc. cbn [app].
    rewrite (IH _ k'); [reflexivity | lia | |].
    + intros t Ht. rewrite <- app_assoc. apply Hnull. unfold attempts in *. simpl. lia.
    + intros t Ht. rewrite <- app_assoc. apply Hthen. unfold attempts in *. simpl. lia.
Qed.

(** The finality waiter always settles: in success, or in its timeout. *)
Lemma finality_wait_settles provider blockNumber host h :
  outcome (InteropTest.waitUntilBlockFinalized provider blockNumber host h) = Fulfilled tt \/
  outcome (InteropTest.waitUntilBlockFinalized provider blockNumber host h)
  = Rejected InteropTest.finality_timeout.
Proof.
  unfold InteropTest.waitUntilBlockFinalized. rewrite finality_loop_is_poll_loop.
  destruct (poll_loop_shape (getBlock provider "finalized") (finality_decide blockNumber)
              InteropTest.POLL_INTERVAL InteropTest.finality_timeout
              InteropTest.initial_retries host h)
    as (rs & _ & [[_ Hrun] | (r & o & _ & Hd & _ & Hrun)]); rewrite Hrun.
  - now right.
  - left. unfold finality_decide in Hd.
    destruct (executedBlock_of r >=? blockNumber); [|discriminate Hd].
    now injection Hd as <-.
Qed.

(** C2, as the scripts have it. Only the wait for finality is bounded: it
    ends in success or, after its 600 attempts, in the error "Block was not
    finalized in time", which the operation passes on without a proof
    query. Once the block is finalized the operation asks for the proof of
    log 0 every [pollingInterval] with no bound on the attempts: while the
    endpoint answers null it is still polling after any number of rounds,
    and it returns (without a value) on the first answer that is a proof. *)
Theorem proof_wait_is_bounded_only_by_finality
    (host : Host.t) (h : Trace) (wallet : Wallet.t) (blockNumber : Z)
    (txHash : string) (fuel : nat) :
  let provider := Wallet.provider wallet in
  let proof_q := getLogProof provider txHash 0 in
  let finality := InteropTest.waitUntilBlockFinalized provider blockNumber host h in
  let run := InteropTest.waitForL2ToL1LogProof fuel provider blockNumber txHash host h in
  let polls := idle_rounds proof_q (Provider.pollingInterval provider) in
  Part000.waitForL2ToL1LogProof fuel wallet blockNumber txHash host h = run /\
  (outcome finality = Fulfilled tt \/
   outcome finality = Rejected (mkError "Block was not finalized in time")) /\
  (outcome finality = Rejected (mkError "Block was not finalized in time") ->
   run = finality) /\
  (outcome finality = Fulfilled tt ->
   (forall t, Host.oracle host ((h ++ emitted finality) ++ t) _ proof_q = Returned None) ->
   outcome run = Pending /\
   emitted run = emitted finality ++ polls (List.repeat (Returned None) fuel)) /\
  (outcome finality = Fulfilled tt ->
   forall k logProof,
     (k < fuel)%nat ->
     (forall t, (attempts t < k)%nat ->
        Host.oracle host ((h ++ emitted finality) ++ t) _ proof_q = Returned None) ->
     (forall t, attempts t = k ->
        Host.oracle host ((h ++ emitted finality) ++ t) _ proof_q = Returned (Some logProof)) ->
     outcome run = Fulfilled tt /\
     emitted run = emitted finality ++ polls (List.repeat (Returned None) k)
                   ++ [Call proof_q (Returned (Some logProof))]).
Proof.
  cbv zeta. split; [now rewrite Part000_waitForL2ToL1LogProof|].
  split; [apply finality_wait_settles|].
  unfold InteropTest.waitForL2ToL1LogProof, bind.
  destruct (InteropTest.waitUntilBlockFinalized (Wallet.provider wallet) blockNumber host h)
    as [[[]|e|] tf]; unfold outcome, emitted; cbn [fst snd].
  - split; [discriminate|]. split.
    + intros _ Hnull. rewrite (proof_loop_stalls _ _ _ _ _ Hnull). now split.
    + intros _ k logProof Hk Hnull Hthen.
      rewrite (proof_loop_finds _ k _ _ _ _ logProof Hk Hnull Hthen). now split.
  - split; [reflexivity|]. split; discriminate.
  - split; [discriminate|]. split; discriminate.
Qed.

Lemma proof_wait_is_bounded_only_by_finality_witness :
  outcome (InteropTest.waitForL2ToL1LogProof 10 demo_provider 12 "0xabc"
             (scripted_host (fun _ => Thrown unreachable)
                (fun _ => Returned (Some (Block.mk 12))) proof_appears_third) [])
  = Fulfilled tt.
Proof.
  destruct (proof_wait_is_bounded_only_by_finality
              (scripted_host (fun _ => Thrown unreachable)
                 (fun _ => Returned (Some (Block.mk 12))) proof_appears_third)
              [] demo_wallet 12 "0xabc" 10) as (_ & _ & _ & _ & Hfinds).
  refine (proj1 (Hfinds _ 2%nat demo_proof _ _ _)).
  - reflexivity.
  - apply Nat.ltb_lt. reflexivity.
  - intros t Ht.
    change (proof_appears_third (S (attempts t)) = Returned None).
    unfold proof_appears_third.
    assert (E : (S (attempts t) <? 3)%nat = true) by (apply Nat.ltb_lt; lia).
    now rewrite E.
  - intros t Ht.
    change (proof_appears_third (S (attempts t)) = Returned (Some demo_proof)).
    now rewrite Ht.
Defined.

(** The claim as the specification states it fails: with a finalized block
    and an endpoint that never has the proof, the operation is still
    polling after any number of rounds; no timeout ends it. *)
Lemma proof_wait_polls_forever :
  never_settles
    (fun fuel => InteropTest.waitForL2ToL1LogProof fuel demo_provider 12 "0xabc")
    stalled_host [].
Proof.
  intros fuel.
  assert (Hfinal : InteropTest.waitUntilBlockFinalized demo_provider 12 stalled_host []
                   = (Fulfilled tt,
                      [Call (getBlock demo_provider "finalized")
                            (Returned (Some (Block.mk 12)))])) by reflexivity.
  unfold InteropTest.waitForL2ToL1LogProof, bind. rewrite Hfinal.
  rewrite proof_loop_stalls; [reflexivity | intros t; reflexivity].
Qed.

(** ** What the scripts emit *)

Section Emits.

Context (P : Event -> Prop).

Lemma emits_only_ret {A : Type} (a : A) : emits_only P (ret a).
Proof. intros host h. constructor. Qed.

Lemma emits_only_throw {A : Type} (e : Error) : emits_only P (@throw A e).
Proof. intros host h. constructor. Qed.

Lemma emits_only_pending {A : Type} : emits_only P (@pending A).
Proof. intros host h. constructor. Qed.

Lemma emits_only_global {A : Type} (f : Host.t -> A) : emits_only P (global f).
Proof. intros host h. constructor. Qed.

Lemma emits_only_lift {A : Type} (f : Ethers.t -> Reply A) : emits_only P (lift f).
Proof. intros host h. constructor. Qed.

Lemma emits_only_sleep ms : P (Sleep ms) -> emits_only P (sleep ms).
Proof. intros H host h. repeat constructor. exact H. Qed.

Lemma emits_only_await {R : Type} (q : Request R) :
  (forall r, P (Call q r)) -> emits_only P (await q).
Proof. intros H host h. repeat constructor. apply H. Qed.

Lemma emits_only_bind {A B : Type} (m : Async A) (f : A -> Async B) :
  emits_only P m -> (forall a, emits_only P (f a)) -> emits_only P (bind m f).
Proof.
  intros Hm Hf host h. unfold bind, emitted. specialize (Hm host h).
  destruct (m host h) as [[a|e|] t1]; cbn [emitted snd] in *; try assumption.
  specialize (Hf a host (h ++ t1)).
  destruct (f a host (h ++ t1)) as [o t2]. cbn [emitted snd] in *.
  apply Forall_app. now split.
Qed.

Lemma emits_only_try_catch {A : Type} (m : Async A) (handler : Error -> Async A) :
  emits_only P m -> (forall e, emits_only P (handler e)) -> emits_only P (try_catch m handler).
Proof.
  intros Hm Hh host h. unfold try_catch, emitted. specialize (Hm host h).
  destruct (m host h) as [[a|e|] t1]; cbn [emitted snd] in *; try assumption.
  specialize (Hh e host (h ++ t1)).
  destruct (handler e host (h ++ t1)) as [o t2]. cbn [emitted snd] in *.
  apply Forall_app. now split.
Qed.

Lemma emits_only_root_loop contract chainId batchNumber expectedRoot retries :
  (forall r, P (Call (interopRoots contract chainId batchNumber) r)) ->
  P (Sleep InteropTest.POLL_INTERVAL) ->
  emits_only P (InteropTest.root_loop contract chainId batchNumber expectedRoot retries).
Proof.
  intros Hq Hs. induction retries as [|n IH]; [apply emits_only_throw|].
  cbn [InteropTest.root_loop]. apply emits_only_bind.
  - apply emits_only_try_catch; [|intros; apply emits_only_ret].
    apply emits_only_bind; [now apply emits_only_await | intros; apply emits_only_ret].
  - intros [r|].
    + destruct (InteropTest.root_is_set (Some r)).
      * destruct (toLowerCase r =? toLowerCase expectedRoot)%string;
          [apply emits_only_ret | apply emits_only_throw].
      * apply emits_only_bind; [now apply emits_only_sleep | intros; exact IH].
    + apply emits_only_bind; [now apply emits_only_sleep | intros; exact IH].
Qed.

Lemma emits_only_finality_loop provider blockNumber retries :
  (forall r, P (Call (getBlock provider "finalized") r)) ->
  P (Sleep InteropTest.POLL_INTERVAL) ->
  emits_only P (InteropTest.finality_loop provider blockNumber retries).
Proof.
  intros Hq Hs. induction retries as [|n IH]; [apply emits_only_throw|].
  cbn [InteropTest.finality_loop]. apply emits_only_bind.
  - apply emits_only_try_catch; [|intros; apply emits_only_ret].
    apply emits_only_bind; [now apply emits_only_await | intros; apply emits_only_ret].
  - intros executedBlock. destruct (executedBlock >=? blockNumber).
    + apply emits_only_ret.
    + apply emits_only_bind; [now apply emits_only_sleep | intros; exact IH].
Qed.

Lemma emits_only_proof_loop fuel provider txHash :
  (forall r, P (Call (getLogProof provider txHash 0) r)) ->
  P (Sleep (Provider.pollingInterval provider)) ->
  emits_only P (InteropTest.proof_loop fuel provider txHash).
Proof.
  intros Hq Hs. induction fuel as [|n IH]; [apply emits_only_pending|].
  cbn [InteropTest.proof_loop]. apply emits_only_bind; [now apply emits_only_await|].
  intros [logProof|]; [apply emits_only_ret|].
  apply emits_only_bind; [now apply emits_only_sleep | intros; exact IH].
Qed.

End Emits.

(** One step of a proof that a script emits only events with a property
    that holds of every timer and can be read off each request. *)
Ltac emits_event :=
  intros; first [exact I | reflexivity | cbn; first [exact I | reflexivity | auto]].

Ltac emits_step :=
  first
    [ apply emits_only_ret
    | apply emits_only_throw
    | apply emits_only_pending
    | apply emits_only_global
    | apply emits_only_lift
    | apply emits_only_sleep; emits_event
    | apply emits_only_await; emits_event
    | apply emits_only_root_loop; emits_event
    | apply emits_only_finality_loop; emits_event
    | apply emits_only_proof_loop; emits_event
    | apply emits_only_try_catch; [|intros ?]
    | apply emits_only_bind; [|intros ?]
    | match goal with
      | |- emits_only _ (match ?x with _ => _ end) => destruct x
      | |- emits_only _ (let _ := _ in _) => cbv zeta
      end ].

Lemma main_queries_log_zero fuel : emits_only queries_log_zero (InteropTest.main fuel).
Proof.
  unfold InteropTest.main, InteropTest.requireEnv, InteropTest.encodeEvmV1Address,
    InteropTest.deployGreetContract, InteropTest.newProvider, InteropTest.newWallet,
    InteropTest.waitForL2ToL1LogProof, InteropTest.waitUntilBlockFinalized,
    InteropTest.waitUntilRootBecomesAvailable, getenv.
  repeat emits_step.
Qed.

Lemma Part000_main_queries_log_zero fuel : emits_only queries_log_zero (Part000.main fuel).
Proof.
  unfold Part000.main, Part000.requireEnv,
    Part000.deployGreetContract, Part000.newProvider, Part000.newWallet, getenv.
  repeat first
    [ rewrite Part000_waitForL2ToL1LogProof
    | rewrite Part000_waitUntilRootBecomesAvailable
    | emits_step
    | progress unfold InteropTest.waitForL2ToL1LogProof, InteropTest.waitUntilBlockFinalized,
        InteropTest.waitUntilRootBecomesAvailable ].
Qed.

(** ** Proof queries *)

(** C10. Every proof query that either script issues, in the polling loop
    of [waitForL2ToL1LogProof] or for the final retrieval, asks the
    endpoint's [getLogProof] for log index 0. *)
Theorem every_proof_query_is_for_log_zero
    (fuel : nat) (host : Host.t) (h : Trace) (e : Event)
    (provider : Provider.t) (txHash : string) (index : Z) :
  In e (emitted (InteropTest.main fuel host h)) \/ In e (emitted (Part000.main fuel host h)) ->
  proof_query e = Some (provider, txHash, index) ->
  index = 0.
Proof.
  intros Hin Hq.
  assert (H : queries_log_zero e).
  { destruct Hin as [Hin | Hin]; revert Hin; apply Forall_forall.
    - apply main_queries_log_zero.
    - apply Part000_main_queries_log_zero. }
  unfold queries_log_zero in H. now rewrite Hq in H.
Qed.

(** ** Stepping through a script *)

Lemma runs_start {A : Type} (m : Async A) host h (Q : Outcome A -> Trace -> Prop) :
  runs m host h [] Q -> Q (outcome (m host h)) (emitted (m host h)).
Proof. unfold runs. now rewrite app_nil_r. Qed.

Lemma runs_ret {A : Type} (a : A) host h0 E (Q : Outcome A -> Trace -> Prop) :
  Q (Fulfilled a) E -> runs (ret a) host h0 E Q.
Proof. unfold runs, ret, outcome, emitted. cbn. now rewrite app_nil_r. Qed.

Lemma runs_throw {A : Type} (e : Error) host h0 E (Q : Outcome A -> Trace -> Prop) :
  Q (Rejected e) E -> runs (throw e) host h0 E Q.
Proof. unfold runs, throw, outcome, emitted. cbn. now rewrite app_nil_r. Qed.

Lemma runs_global {A : Type} (f : Host.t -> A) host h0 E (Q : Outcome A -> Trace -> Prop) :
  Q (Fulfilled (f host)) E -> runs (global f) host h0 E Q.
Proof. unfold runs, global, outcome, emitted. cbn. now rewrite app_nil_r. Qed.

Lemma runs_lift {A : Type} (f : Ethers.t -> Reply A) host h0 E (Q : Outcome A -> Trace -> Prop) :
  Q (settle (f (Host.ethers host))) E -> runs (lift f) host h0 E Q.
Proof. unfold runs, lift, outcome, emitted. cbn. now rewrite app_nil_r. Qed.

Lemma runs_await {R : Type} (q : Request R) host h0 E (Q : Outcome R -> Trace -> Prop) :
  (forall r, Q (settle r) (E ++ [Call q r])) -> runs (await q) host h0 E Q.
Proof. intros H. unfold runs, await, outcome, emitted. cbn. apply H. Qed.

Lemma runs_bind {A B : Type} (m : Async A) (f : A -> Async B) host h0 E
    (Q : Outcome B -> Trace -> Prop) :
  runs m host h0 E
    (fun o t => match o with
                | Fulfilled a => runs (f a) host h0 t Q
                | Rejected e => Q (Rejected e) t
                | Pending => Q Pending t
                end) ->
  runs (bind m f) host h0 E Q.
Proof.
  unfold runs, bind, outcome, emitted.
  destruct (m host (h0 ++ E)) as [[a|e|] t1]; cbn [fst snd]; try (intros H; exact H).
  rewrite <- !app_assoc.
  destruct (f a host (h0 ++ E ++ t1)) as [o t2]. cbn [fst snd].
  intros H; exact H.
Qed.

(** A step whose events all have a property that [Q] does not look into. *)
Lemma runs_emits {A : Type} (P : Event -> Prop) (m : Async A) host h0 E
    (Q : Outcome A -> Trace -> Prop) :
  emits_only P m ->
  (forall o t, Forall P t -> Q o (E ++ t)) ->
  runs m host h0 E Q.
Proof. intros Hm HQ. apply HQ, Hm. Qed.

Ltac in_trace := cbn [In]; repeat first [left; reflexivity | right].

Ltac runs_simpl := cbv beta zeta; cbn [settle app].

(** One step through a script: the next construct of the program decides
    the rule; a failed step ends the run and leaves the goal about the
    trace so far. *)
Ltac runs_step leaf :=
  runs_simpl;
  lazymatch goal with
  | |- runs (bind _ _) _ _ _ _ => apply runs_bind
  | |- runs (await _) _ _ _ _ => apply runs_await; intros [?|?]
  | |- runs (lift _) _ _ _ _ => apply runs_lift
  | |- runs (global _) _ _ _ _ => apply runs_global
  | |- runs (ret _) _ _ _ _ => apply runs_ret
  | |- runs (throw _) _ _ _ _ => apply runs_throw
  | |- runs (match ?x with _ => _ end) _ _ _ _ => destruct x eqn:?
  | |- match settle ?r with _ => _ end => destruct r eqn:?
  | |- _ => leaf
  end.

(** ** Finality comes before the proof *)

Lemma finality_wait_is_quiet provider blockNumber :
  emits_only no_proof_query (InteropTest.waitUntilBlockFinalized provider blockNumber).
Proof. apply emits_only_finality_loop; intros; reflexivity. Qed.

Lemma proof_loop_asks fuel provider txHash :
  emits_only (asks_proof_of provider txHash) (InteropTest.proof_loop fuel provider txHash).
Proof. apply emits_only_proof_loop; intros; hnf; cbn; auto. Qed.

(** The step [waitForL2ToL1LogProof]: the events before it were no proof
    queries, what follows it asks only about the same transaction. *)
Lemma runs_proof_wait {B : Type} fuel host h0 E provider tx receipt txHash
    (k : unit -> Async B) :
  Forall no_proof_query E ->
  In (Call (wait tx) (Returned (Some receipt))) E ->
  (forall a, emits_only (asks_proof_of provider txHash) (k a)) ->
  runs (bind (InteropTest.waitForL2ToL1LogProof fuel provider
                (Receipt.blockNumber receipt) txHash) k) host h0 E
    (fun _ t => Forall no_proof_query t \/
                finality_first host h0 t provider tx receipt txHash).
Proof.
  intros HE Hin Hk. unfold runs, emitted, outcome.
  unfold InteropTest.waitForL2ToL1LogProof, bind.
  pose proof (finality_wait_is_quiet provider (Receipt.blockNumber receipt) host (h0 ++ E))
    as Hquiet.
  destruct (InteropTest.waitUntilBlockFinalized provider (Receipt.blockNumber receipt)
              host (h0 ++ E)) as [[[]|e|] fin] eqn:Hfin; unfold emitted in Hquiet;
    cbn [fst snd] in *; try (left; apply Forall_app; now split).
  pose proof (proof_loop_asks fuel provider txHash host ((h0 ++ E) ++ fin)) as Hloop.
  destruct (InteropTest.proof_loop fuel provider txHash host ((h0 ++ E) ++ fin))
    as [[[]|e|] t2]; unfold emitted in Hloop; cbn [fst snd] in *.
  - pose proof (Hk tt host ((h0 ++ E) ++ fin ++ t2)) as Hrest.
    destruct (k tt host ((h0 ++ E) ++ fin ++ t2)) as [o t3].
    unfold emitted in Hrest. cbn [fst snd] in *.
    right. exists E, fin, (t2 ++ t3).
    split; [now rewrite <- app_assoc|].
    split; [apply Forall_app; now split|].
    repeat split; try assumption. apply Forall_app. now split.
  - right. exists E, fin, t2. repeat split; try assumption.
    apply Forall_app. now split.
  - right. exists E, fin, t2. repeat split; try assumption.
    apply Forall_app. now split.
Qed.

Lemma runs_weaken {A : Type} (m : Async A) host h0 E (Q Q' : Outcome A -> Trace -> Prop) :
  runs m host h0 E Q -> (forall o t, Q o t -> Q' o t) -> runs m host h0 E Q'.
Proof. intros H HQ. apply HQ, H. Qed.

Ltac quiet_leaf := left; repeat constructor.

(** Steps up to the call of [waitForL2ToL1LogProof]. *)
Ltac runs_to_proof_wait leaf :=
  repeat (runs_simpl;
          lazymatch goal with
          | |- runs (bind (InteropTest.waitForL2ToL1LogProof _ _ _ _) _) _ _ _ _ => fail
          | |- runs (bind (Part000.waitForL2ToL1LogProof _ _ _ _) _) _ _ _ _ => fail
          | |- _ => runs_step leaf
          end).

Ltac emits_rest :=
  intros;
  repeat first
    [ rewrite Part000_waitUntilRootBecomesAvailable
    | progress unfold InteropTest.waitUntilRootBecomesAvailable
    | emits_step ].

Lemma main_finality_first fuel host h :
  Forall no_proof_query (emitted (InteropTest.main fuel host h)) \/
  exists provider tx receipt,
    finality_first host h (emitted (InteropTest.main fuel host h))
      provider tx receipt (Receipt.hash receipt).
Proof.
  apply (runs_start (InteropTest.main fuel) host h
           (fun _ t => Forall no_proof_query t \/
                       exists provider tx receipt,
                         finality_first host h t provider tx receipt (Receipt.hash receipt))).
  unfold InteropTest.main, InteropTest.requireEnv, InteropTest.encodeEvmV1Address,
    InteropTest.deployGreetContract, InteropTest.newProvider, InteropTest.newWallet, getenv.
  runs_to_proof_wait quiet_leaf.
  eapply runs_weaken.
  - eapply runs_proof_wait; [repeat constructor | in_trace | emits_rest].
  - intros o t' [H | H]; [now left | right; eauto].
Qed.

Lemma Part000_main_finality_first fuel host h :
  Forall no_proof_query (emitted (Part000.main fuel host h)) \/
  exists wallet tx receipt,
    finality_first host h (emitted (Part000.main fuel host h))
      (Wallet.provider wallet) tx receipt (Tx.hash tx).
Proof.
  apply (runs_start (Part000.main fuel) host h
           (fun _ t => Forall no_proof_query t \/
                       exists wallet tx receipt,
                         finality_first host h t (Wallet.provider wallet) tx receipt (Tx.hash tx))).
  unfold Part000.main, Part000.requireEnv,
    Part000.deployGreetContract, Part000.newProvider, Part000.newWallet, getenv.
  runs_to_proof_wait quiet_leaf.
  rewrite Part000_waitForL2ToL1LogProof.
  eapply runs_weaken.
  - eapply runs_proof_wait; [repeat constructor | in_trace | emits_rest].
  - intros o t' [H | H]; [now left | right; eauto].
Qed.
(** C6. In every run of either script, no proof query is issued before
    the finality waiter for the block of the sent transaction has run to a
    successful end: either the run makes no proof query at all, or its
    trace is [pre ++ fin ++ post], where [pre] holds the receipt of the
    transaction and no proof query, [fin] is the whole run of the finality
    waiter for the receipt's block, started after [pre] and fulfilled, and
    holds no proof query either, and every proof query of [post] asks the
    same endpoint about that transaction. *)
Theorem finality_wait_precedes_proof_queries (fuel : nat) (host : Host.t) (h : Trace) :
  let ts := emitted (InteropTest.main fuel host h) in
  let js := emitted (Part000.main fuel host h) in
  (Forall no_proof_query ts \/
   exists provider sendTx sendReceipt pre fin post,
     ts = pre ++ fin ++ post /\
     Forall no_proof_query (pre ++ fin) /\
     In (Call (wait sendTx) (Returned (Some sendReceipt))) pre /\
     InteropTest.waitUntilBlockFinalized provider (Receipt.blockNumber sendReceipt)
       host (h ++ pre) = (Fulfilled tt, fin) /\
     Forall (asks_proof_of provider (Receipt.hash sendReceipt)) post)
  /\
  (Forall no_proof_query js \/
   exists wallet tx receipt pre fin post,
     js = pre ++ fin ++ post /\
     Forall no_proof_query (pre ++ fin) /\
     In (Call (wait tx) (Returned (Some receipt))) pre /\
     Part000.waitUntilBlockFinalized wallet (Receipt.blockNumber receipt)
       host (h ++ pre) = (Fulfilled tt, fin) /\
     Forall (asks_proof_of (Wallet.provider wallet) (Tx.hash tx)) post).
Proof.
  cbv zeta. split.
  - destruct (main_finality_first fuel host h)
      as [H | (provider & tx & receipt & pre & fin & post & H)]; [now left | right].
    exists provider, tx, receipt, pre, fin, post. exact H.
  - destruct (Part000_main_finality_first fuel host h)
      as [H | (wallet & tx & receipt & pre & fin & post & H)]; [now left | right].
    exists wallet, tx, receipt, pre, fin, post.
    rewrite Part000_waitUntilBlockFinalized. exact H.
Qed.

Lemma every_proof_query_is_for_log_zero_witness :
  let e := Call (getLogProof demo_provider "0xsend" 0) (Returned (Some demo_proof)) in
  In e (emitted (InteropTest.main 3 happy_host [])) /\
  proof_query e = Some (demo_provider, "0xsend", 0) /\
  0 = 0.
Proof.
  cbv zeta.
  assert (Hin : In (Call (getLogProof demo_provider "0xsend" 0) (Returned (Some demo_proof)))
                   (emitted (InteropTest.main 3 happy_host []))).
  { vm_compute. do 8 right. left. reflexivity. }
  split; [exact Hin|]. split; [reflexivity|].
  exact (every_proof_query_is_for_log_zero 3 happy_host []
           (Call (getLogProof demo_provider "0xsend" 0) (Returned (Some demo_proof)))
           demo_provider "0xsend" 0 (or_introl Hin) eq_refl).
Defined.

(** ** The emission event in the receipt *)

Lemma find_bundleEvent_some lib logs d :
  InteropTest.find_bundleEvent lib logs = Some d ->
  exists log,
    In log (match logs with Some l => l | None => [] end) /\
    Ethers.parseLog lib log = Returned (Some d) /\
    LogDescription.name d = "InteropBundleSent".
Proof.
  unfold InteropTest.find_bundleEvent, InteropTest.parsed_logs.
  destruct (find _ _) as [found|] eqn:Hfind; [|discriminate].
  intros ->. apply find_some in Hfind as [Hin Hname].
  apply in_map_iff in Hin as (log & Hparse & Hin).
  exists log. split; [exact Hin|].
  destruct (Ethers.parseLog lib log) as [parsed|err]; [|discriminate Hparse].
  subst parsed. split; [reflexivity|].
  cbn in Hname. now apply String.eqb_eq.
Qed.

Lemma find_bundleEvent_none lib logs log d :
  InteropTest.find_bundleEvent lib logs = None ->
  In log (match logs with Some l => l | None => [] end) ->
  Ethers.parseLog lib log = Returned (Some d) ->
  LogDescription.name d <> "InteropBundleSent".
Proof.
  unfold InteropTest.find_bundleEvent, InteropTest.parsed_logs.
  intros Hfind Hin Hparse Hname.
  destruct (find _ _) as [[found|]|] eqn:Hf.
  - discriminate Hfind.
  - apply find_some in Hf as [_ Hf]. discriminate Hf.
  - assert (Hd : InteropTest.is_bundle_sent (Some d) = false).
    { apply (find_none _ _ Hf (Some d)).
      apply in_map_iff. exists log. now rewrite Hparse. }
    cbn in Hd. rewrite Hname in Hd. discriminate Hd.
Qed.

Lemma find_bundleEvent_absent lib logs :
  (forall log d,
     In log (match logs with Some l => l | None => [] end) ->
     Ethers.parseLog lib log = Returned (Some d) ->
     LogDescription.name d <> "InteropBundleSent") ->
  InteropTest.find_bundleEvent lib logs = None.
Proof.
  intros Hnone.
  destruct (InteropTest.find_bundleEvent lib logs) as [d|] eqn:Hfind; [|reflexivity].
  apply find_bundleEvent_some in Hfind as (log & Hin & Hparse & Hname).
  now destruct (Hnone log d Hin Hparse).
Qed.

Lemma sent_tx_is_sendMessage e tx : sent_tx e = Some tx -> is_sendMessage e = true.
Proof.
  destruct e as [R q r|ms]; [|discriminate].
  destruct q; try discriminate. reflexivity.
Qed.

(** Where the one element with a property sits in a list. *)
Lemma nth_error_only {A : Type} (P : A -> bool) pre x tail j y :
  Forall (fun a => P a = false) pre ->
  Forall (fun a => P a = false) tail ->
  nth_error (pre ++ x :: tail) j = Some y ->
  P y = true ->
  j = List.length pre /\ y = x.
Proof.
  intros Hpre Htail Hnth Hy.
  destruct (Nat.lt_trichotomy j (List.length pre)) as [Hlt | [-> | Hgt]].
  - rewrite nth_error_app1 in Hnth by exact Hlt.
    apply nth_error_In in Hnth. rewrite Forall_forall in Hpre.
    rewrite (Hpre _ Hnth) in Hy. discriminate.
  - rewrite nth_error_app2, Nat.sub_diag in Hnth by lia.
    injection Hnth as <-. now split.
  - rewrite nth_error_app2 in Hnth by lia.
    destruct (j - List.length pre)%nat as [|k] eqn:Hk; [lia|].
    cbn in Hnth. apply nth_error_In in Hnth. rewrite Forall_forall in Htail.
    rewrite (Htail _ Hnth) in Hy. discriminate.
Qed.

Ltac sent_leaf :=
  first
    [ solve [left; repeat constructor]
    | right;
      first [ eapply (ex_intro _ [_; _; _; _; _]) | eapply (ex_intro _ [_; _; _; _]) ];
      do 3 eexists;
      split; [reflexivity|];
      split; [repeat constructor|];
      split; [reflexivity|];
      split; [repeat constructor|];
      cbn; auto ].

Lemma main_sent_shape fuel host h :
  sent_shape host (outcome (InteropTest.main fuel host h))
    (emitted (InteropTest.main fuel host h)).
Proof.
  apply (runs_start (InteropTest.main fuel) host h (sent_shape host)).
  unfold InteropTest.main, InteropTest.requireEnv, InteropTest.encodeEvmV1Address,
    InteropTest.deployGreetContract, InteropTest.newProvider, InteropTest.newWallet, getenv.
  repeat (runs_simpl;
          lazymatch goal with
          | |- runs (bind (lift (fun e => Ethers.abiEncode e _ _)) _) _ _ _ _ => fail
          | |- _ => runs_step sent_leaf
          end).
  eapply (runs_emits (fun e => is_sendMessage e = false)).
  - unfold InteropTest.waitForL2ToL1LogProof, InteropTest.waitUntilBlockFinalized,
      InteropTest.waitUntilRootBecomesAvailable.
    repeat emits_step.
  - intros o t' Ht'. right.
    eapply (ex_intro _ [_; _; _; _; _]). do 3 eexists.
    split; [reflexivity|].
    split; [repeat constructor|].
    split; [reflexivity|].
    split; [constructor; [reflexivity | exact Ht']|].
    cbn.
    match goal with
    | H : InteropTest.find_bundleEvent _ _ = Some _ |- _ => rewrite H
    end.
    split; [reflexivity|]. split; [discriminate | intros _; discriminate].
Qed.

(** C7. Take the receipt that a run of the TypeScript flow obtained for
    the transaction [sendMessage] returned. If none of its logs parses as
    the [InteropBundleSent] event, the run ends right there with the
    missing-event error, having called [sendMessage] once and nothing
    after the receipt; and if the run does anything after the receipt,
    one of its logs parses as that event. *)
Theorem missing_bundle_event_is_fatal
    (fuel : nat) (host : Host.t) (h : Trace) (j : nat) (e_send e_wait : Event)
    (tx tx' : Tx.t) (receipt : Receipt.t) :
  let run := InteropTest.main fuel host h in
  nth_error (emitted run) j = Some e_send ->
  sent_tx e_send = Some tx ->
  nth_error (emitted run) (S j) = Some e_wait ->
  receipt_of e_wait = Some (tx', Returned (Some receipt)) ->
  tx' = tx /\
  ((forall log d,
      In log (logs_of receipt) ->
      Ethers.parseLog (Host.ethers host) log = Returned (Some d) ->
      LogDescription.name d <> "InteropBundleSent") ->
   outcome run = Rejected (mkError "InteropBundleSent event not found in receipt logs.") /\
   List.length (emitted run) = S (S j) /\
   (forall k e, nth_error (emitted run) k = Some e -> is_sendMessage e = true -> k = j)) /\
  ((S (S j) < List.length (emitted run))%nat ->
   exists log d,
     In log (logs_of receipt) /\
     Ethers.parseLog (Host.ethers host) log = Returned (Some d) /\
     LogDescription.name d = "InteropBundleSent").
Proof.
  cbv zeta. intros Hsend Htx Hwait Hreceipt.
  destruct (main_sent_shape fuel host h)
    as [Hnone | (pre & e0 & tail & tx0 & Ht & Hpre & Htx0 & Htail & Hafter)].
  - apply nth_error_In in Hsend. rewrite Forall_forall in Hnone.
    rewrite (Hnone _ Hsend) in Htx. discriminate Htx.
  - rewrite Ht in *.
    destruct (nth_error_only is_sendMessage pre e0 tail j e_send Hpre Htail Hsend
                (sent_tx_is_sendMessage _ _ Htx)) as [-> ->].
    rewrite Htx0 in Htx. injection Htx as ->.
    rewrite nth_error_app2 in Hwait by lia.
    replace (S (List.length pre) - List.length pre)%nat with 1%nat in Hwait by lia.
    destruct tail as [|e_next post]; [discriminate Hwait|].
    cbn in Hwait. injection Hwait as ->.
    cbn [after_send] in Hafter. rewrite Hreceipt in Hafter.
    destruct Hafter as (-> & Hmissing & Hfound).
    split; [reflexivity|]. split.
    + intros Hnolog.
      destruct (Hmissing (find_bundleEvent_absent _ _ Hnolog)) as [-> Hout].
      split; [exact Hout|]. split.
      * rewrite length_app. cbn. lia.
      * intros k e Hk He.
        now destruct (nth_error_only is_sendMessage pre e0 [e_wait] k e Hpre Htail Hk He).
    + intros Hlen.
      assert (Hpost : post <> []).
      { intros ->. rewrite length_app in Hlen. cbn in Hlen. lia. }
      specialize (Hfound Hpost).
      destruct (InteropTest.find_bundleEvent (Host.ethers host) (Receipt.logs receipt))
        as [d|] eqn:Hfind; [|now destruct Hfound].
      apply find_bundleEvent_some in Hfind as (log & Hin & Hparse & Hname).
      exists log, d. repeat split; assumption.
Qed.

Lemma missing_bundle_event_is_fatal_witness :
  let run := InteropTest.main 3 eventless_host [] in
  outcome run = Rejected (mkError "InteropBundleSent event not found in receipt logs.") /\
  List.length (emitted run) = 7%nat.
Proof.
  cbv zeta.
  destruct (missing_bundle_event_is_fatal 3 eventless_host [] 5
              (nth 5 (emitted (InteropTest.main 3 eventless_host [])) (Sleep 0))
              (nth 6 (emitted (InteropTest.main 3 eventless_host [])) (Sleep 0))
              (Tx.mk "0xsend") (Tx.mk "0xsend")
              (Receipt.mk "0xsend" 12 3 "0xfrom" (Some [other_log])
                 (Some [first_l2_log; second_l2_log])))
    as (_ & Hfatal & _); try (vm_compute; reflexivity).
  destruct Hfatal as (Hout & Hlen & _).
  - intros log d [<- | []] Hparse. vm_compute in Hparse. discriminate Hparse.
  - split; assumption.
Defined.

(** ** Selecting the outbound log *)

Lemma index_zero_absent {A : Type} (arr : option (list A)) i :
  Js.index arr 0 = None -> Js.index arr i = None.
Proof.
  destruct arr as [[|x l]|]; cbn; try discriminate; intros _; [|reflexivity].
  destruct (i <? 0); [reflexivity|]. now destruct (Z.to_nat i).
Qed.

Lemma finality_wait_before_proof provider blockNumber :
  emits_only before_proof (InteropTest.waitUntilBlockFinalized provider blockNumber).
Proof. apply emits_only_finality_loop; intros; split; reflexivity. Qed.

(** The proof loop either ends on the read that obtained a proof, or no
    read of it obtained one. *)
Lemma proof_loop_obtains fuel provider txHash host h :
  (outcome (InteropTest.proof_loop fuel provider txHash host h) = Fulfilled tt /\
   exists t0 logProof0,
     emitted (InteropTest.proof_loop fuel provider txHash host h)
     = t0 ++ [Call (getLogProof provider txHash 0) (Returned (Some logProof0))] /\
     Forall before_proof t0)
  \/
  (outcome (InteropTest.proof_loop fuel provider txHash host h) <> Fulfilled tt /\
   Forall before_proof (emitted (InteropTest.proof_loop fuel provider txHash host h))).
Proof.
  revert h. induction fuel as [|n IH]; intros h.
  - right. split; [discriminate | constructor].
  - cbn [InteropTest.proof_loop]. unfold bind at 1 3 5 7, await.
    destruct (Host.oracle host h _ (getLogProof provider txHash 0)) as [[logProof|]|err].
    + left. split; [reflexivity|]. exists [], logProof. split; [reflexivity | constructor].
    + unfold bind, sleep. cbn [app].
      specialize (IH ((h ++ [Call (getLogProof provider txHash 0) (Returned None)])
                      ++ [Sleep (Provider.pollingInterval provider)])).
      destruct (InteropTest.proof_loop n provider txHash host _) as [o t].
      unfold outcome, emitted in *. cbn [fst snd] in *.
      destruct IH as [[-> (t0 & lp0 & -> & Ht0)] | [Ho Ht]].
      * left. split; [reflexivity|].
        exists (Call (getLogProof provider txHash 0) (Returned None)
                :: Sleep (Provider.pollingInterval provider) :: t0), lp0.
        split; [reflexivity|]. repeat constructor. exact Ht0.
      * right. split; [exact Ho|]. repeat constructor. exact Ht.
    + right. split; [discriminate|]. repeat constructor.
Qed.

(** The step [waitForL2ToL1LogProof] on the way to the selection. *)
Lemma runs_proof_obtained {B : Type} fuel host h0 E provider blockNumber txHash
    (k : unit -> Async B) (Q : Outcome B -> Trace -> Prop) :
  (forall t0 e1 logProof0,
     Forall before_proof t0 ->
     obtained_proof e1 = Some logProof0 ->
     runs (k tt) host h0 (E ++ t0 ++ [e1]) Q) ->
  (forall e t, Forall before_proof t -> Q (Rejected e) (E ++ t)) ->
  (forall t, Forall before_proof t -> Q Pending (E ++ t)) ->
  runs (bind (InteropTest.waitForL2ToL1LogProof fuel provider blockNumber txHash) k)
    host h0 E Q.
Proof.
  intros Hgo Hrej Hpen. unfold runs, outcome, emitted.
  unfold InteropTest.waitForL2ToL1LogProof, bind.
  pose proof (finality_wait_before_proof provider blockNumber host (h0 ++ E)) as Hquiet.
  destruct (InteropTest.waitUntilBlockFinalized provider blockNumber host (h0 ++ E))
    as [[[]|e|] fin]; unfold emitted in Hquiet; cbn [fst snd] in *;
    [| now apply Hrej | now apply Hpen].
  pose proof (proof_loop_obtains fuel provider txHash host ((h0 ++ E) ++ fin)) as Hloop.
  destruct (InteropTest.proof_loop fuel provider txHash host ((h0 ++ E) ++ fin))
    as [o2 t2]. unfold outcome, emitted in Hloop. cbn [fst snd] in *.
  destruct Hloop as [[-> (t0 & lp0 & -> & Ht0)] | [Ho Ht]].
  - specialize (Hgo (fin ++ t0) (Call (getLogProof provider txHash 0) (Returned (Some lp0)))
                  lp0).
    unfold runs, outcome, emitted in Hgo.
    rewrite <- !app_assoc in *.
    destruct (k tt host _) as [o3 t3]. cbn [fst snd] in *.
    rewrite <- ?app_assoc. apply Hgo; [|reflexivity].
    apply Forall_app. now split.
  - destruct o2 as [[]|e|]; [now destruct Ho | |].
    + apply Hrej, Forall_app. now split.
    + apply Hpen, Forall_app. now split.
Qed.

Lemma selection_shape_intro o E t0 e1 e2 post tx receipt logProof0 r :
  Forall before_proof E ->
  In (Call (wait tx) (Returned (Some receipt))) E ->
  Forall before_proof t0 ->
  obtained_proof e1 = Some logProof0 ->
  proof_reply e2 = Some r ->
  after_proof o receipt r post ->
  selection_shape o (E ++ t0 ++ e1 :: e2 :: post).
Proof.
  intros HE Hin Ht0 He1 He2 Hafter. right.
  exists (E ++ t0), e1, e2, post, tx, receipt, logProof0, r.
  split; [now rewrite <- app_assoc|].
  split; [apply Forall_app; now split|].
  split; [apply in_or_app; now left|].
  repeat split; assumption.
Qed.

(** The same for the seven events the TypeScript flow emits before it
    waits for the proof. *)
Lemma selection_shape_after_seven o x0 x1 x2 x3 x4 x5 x6 t0 e1 e2 post
    tx receipt logProof0 r :
  Forall before_proof [x0; x1; x2; x3; x4; x5; x6] ->
  In (Call (wait tx) (Returned (Some receipt))) [x0; x1; x2; x3; x4; x5; x6] ->
  Forall before_proof t0 ->
  obtained_proof e1 = Some logProof0 ->
  proof_reply e2 = Some r ->
  after_proof o receipt r post ->
  selection_shape o
    (x0 :: x1 :: x2 :: x3 :: x4 :: x5 :: x6 :: t0 ++ e1 :: e2 :: post).
Proof. apply (selection_shape_intro o [x0; x1; x2; x3; x4; x5; x6]). Qed.

Ltac selection_leaf :=
  cbn [app]; rewrite <- ?app_assoc; cbn [app];
  eapply selection_shape_after_seven;
  [ repeat constructor | in_trace | eassumption | eassumption | reflexivity | ].

Lemma main_selection_shape fuel host h :
  selection_shape (outcome (InteropTest.main fuel host h))
    (emitted (InteropTest.main fuel host h)).
Proof.
  apply (runs_start (InteropTest.main fuel) host h selection_shape).
  unfold InteropTest.main, InteropTest.requireEnv, InteropTest.encodeEvmV1Address,
    InteropTest.deployGreetContract, InteropTest.newProvider, InteropTest.newWallet, getenv.
  runs_to_proof_wait quiet_leaf.
  apply runs_proof_obtained.
  - intros waited e1 logProof0 Hwaited He1.
    apply runs_bind, runs_await. intros [[logProof|]|err]; runs_simpl.
    + destruct (InteropTest.select_l2ToL1Log _ (LogProof.id logProof)) as [entry|] eqn:Hsel.
      * apply runs_bind, runs_await. intros [proofChainId|err]; runs_simpl.
        -- eapply (runs_emits (carries _ logProof entry)).
           ++ unfold InteropTest.waitUntilRootBecomesAvailable.
              repeat first [emits_step | split; [reflexivity | split; reflexivity]].
           ++ intros o t' Ht'. selection_leaf.
              cbn [after_proof]. rewrite Hsel.
              split; [discriminate|]. constructor; [split; [reflexivity | exact I] | exact Ht'].
        -- selection_leaf. cbn [after_proof]. rewrite Hsel.
           split; [discriminate|]. repeat constructor.
      * apply runs_throw. selection_leaf.
        cbn [after_proof]. rewrite Hsel. now split.
    + apply runs_throw. selection_leaf. reflexivity.
    + selection_leaf. reflexivity.
  - intros err waited Hwaited. left.
    apply Forall_app. split; [repeat constructor | exact Hwaited].
  - intros waited Hwaited. left.
    apply Forall_app. split; [repeat constructor | exact Hwaited].
Qed.

Lemma obtained_proof_no_bundle e logProof :
  obtained_proof e = Some logProof -> bundle_proof e = None.
Proof.
  destruct e as [R q r|ms]; [|discriminate].
  destruct q; try discriminate. reflexivity.
Qed.

Lemma after_proof_obtains_nothing o receipt r post :
  after_proof o receipt r post -> Forall (fun e => obtained_proof e = None) post.
Proof.
  unfold after_proof. destruct r as [[logProof|]|err]; try (intros ->; constructor).
  destruct (InteropTest.select_l2ToL1Log receipt (LogProof.id logProof)).
  - intros [_ H]. eapply Forall_impl; [|exact H]. now intros e [He _].
  - intros [-> _]. constructor.
Qed.

(** C8. Take, in a run of the TypeScript flow, the read that ended the
    wait for the proof and the retrieval of the proof that follows it,
    which handed back [logProof]. The flow holds the receipt of the sent
    transaction, and with its outbound logs: when there is an entry at the
    index [logProof.id], or else at index 0, the run goes on, and every
    [executeBundle] call carries that entry's sender and data, the entry
    at [logProof.id] when there is one and the entry at index 0 otherwise;
    when there is no entry at index 0 the run ends there with the
    missing-log error. *)
Theorem outbound_log_selection
    (fuel : nat) (host : Host.t) (h : Trace) (i : nat) (e1 e2 : Event)
    (logProof0 logProof : LogProof.t) :
  let run := InteropTest.main fuel host h in
  nth_error (emitted run) i = Some e1 ->
  obtained_proof e1 = Some logProof0 ->
  nth_error (emitted run) (S i) = Some e2 ->
  obtained_proof e2 = Some logProof ->
  exists tx receipt,
    In (Call (wait tx) (Returned (Some receipt))) (firstn i (emitted run)) /\
    (forall entry,
       Js.index (Receipt.l2ToL1Logs receipt) (LogProof.id logProof) = Some entry \/
       (Js.index (Receipt.l2ToL1Logs receipt) (LogProof.id logProof) = None /\
        Js.index (Receipt.l2ToL1Logs receipt) 0 = Some entry) ->
       (S (S i) < List.length (emitted run))%nat /\
       forall e proof,
         In e (emitted run) ->
         bundle_proof e = Some proof ->
         InclusionProof.l2MessageIndex proof = LogProof.id logProof /\
         InclusionProof.message proof =
           Message.mk (Receipt.index receipt) (L2ToL1Log.sender entry)
                      (Hex (L2ToL1Log.data entry))) /\
    (Js.index (Receipt.l2ToL1Logs receipt) 0 = None ->
     outcome run
     = Rejected (mkError "Missing L2->L1 log in receipt; adjust log index selection.") /\
     List.length (emitted run) = S (S i)).
Proof.
  cbv zeta. intros H1 Ho1 H2 Ho2.
  destruct (main_selection_shape fuel host h)
    as [Hnone | (pre & a1 & a2 & post & tx & receipt & lp0 & r &
                 Ht & Hpre & Hin & Ha1 & Ha2 & Hafter)].
  { apply nth_error_In in H1. rewrite Forall_forall in Hnone.
    destruct (Hnone _ H1) as [Hn _]. rewrite Hn in Ho1. discriminate Ho1. }
  rewrite Ht in *.
  pose proof (after_proof_obtains_nothing _ _ _ _ Hafter) as Hpost.
  assert (Hi : i = List.length pre).
  { destruct (Nat.lt_trichotomy i (List.length pre)) as [Hlt | [Heq | Hgt]]; [|exact Heq|].
    - rewrite nth_error_app1 in H1 by exact Hlt.
      apply nth_error_In in H1. rewrite Forall_forall in Hpre.
      destruct (Hpre _ H1) as [Hn _]. rewrite Hn in Ho1. discriminate Ho1.
    - rewrite nth_error_app2 in H2 by lia.
      replace (S i - List.length pre)%nat with (S (S (i - S (List.length pre)))) in H2 by lia.
      cbn in H2. apply nth_error_In in H2. rewrite Forall_forall in Hpost.
      rewrite (Hpost _ H2) in Ho2. discriminate Ho2. }
  subst i.
  rewrite nth_error_app2 in H2 by lia.
  replace (S (List.length pre) - List.length pre)%nat with 1%nat in H2 by lia.
  cbn in H2. injection H2 as ->.
  assert (Hr : r = Returned (Some logProof)).
  { unfold obtained_proof in Ho2. rewrite Ha2 in Ho2.
    destruct r as [[x|]|err]; try discriminate Ho2. now injection Ho2 as ->. }
  subst r. cbn [after_proof] in Hafter.
  exists tx, receipt. split; [|split].
  - rewrite firstn_app, firstn_all, Nat.sub_diag. cbn. now rewrite app_nil_r.
  - intros entry Hentry.
    assert (Hsel : InteropTest.select_l2ToL1Log receipt (LogProof.id logProof) = Some entry).
    { unfold InteropTest.select_l2ToL1Log.
      destruct Hentry as [-> | [-> ->]]; reflexivity. }
    rewrite Hsel in Hafter. destruct Hafter as [Hne Hcarry]. split.
    + rewrite length_app. cbn. destruct post; [now destruct Hne | cbn; lia].
    + intros e proof He Hproof.
      apply in_app_or in He as [He | [<- | [<- | He]]].
      * rewrite Forall_forall in Hpre. destruct (Hpre _ He) as [_ Hn].
        rewrite Hn in Hproof. discriminate Hproof.
      * rewrite (obtained_proof_no_bundle _ _ Ha1) in Hproof. discriminate Hproof.
      * rewrite (obtained_proof_no_bundle _ _ Ho2) in Hproof. discriminate Hproof.
      * rewrite Forall_forall in Hcarry. destruct (Hcarry _ He) as [_ Hc].
        rewrite Hproof in Hc. exact Hc.
  - intros Hzero.
    assert (Hsel : InteropTest.select_l2ToL1Log receipt (LogProof.id logProof) = None).
    { unfold InteropTest.select_l2ToL1Log.
      now rewrite (index_zero_absent _ (LogProof.id logProof) Hzero), Hzero. }
    rewrite Hsel in Hafter. destruct Hafter as [-> ->].
    split; [reflexivity|]. rewrite length_app. cbn. lia.
Qed.

Lemma outbound_log_selection_witness :
  let run := InteropTest.main 3 fallback_host [] in
  exists e proof,
    In e (emitted run) /\
    bundle_proof e = Some proof /\
    Message.sender (InclusionProof.message proof) = "0xsender0" /\
    InclusionProof.l2MessageIndex proof = 5.
Proof.
  cbv zeta.
  destruct (outbound_log_selection 3 fallback_host [] 8
              (nth 8 (emitted (InteropTest.main 3 fallback_host [])) (Sleep 0))
              (nth 9 (emitted (InteropTest.main 3 fallback_host [])) (Sleep 0))
              (LogProof.mk 5 7 demo_root ["0x01"; "0x02"]%string)
              (LogProof.mk 5 7 demo_root ["0x01"; "0x02"]%string))
    as (tx & receipt & Hin & Hselect & _); try (vm_compute; reflexivity).
  assert (Hreceipt : receipt = Receipt.mk "0xsend" 12 3 "0xfrom" (Some [other_log; bundle_log])
                                 (Some [first_l2_log; second_l2_log])).
  { vm_compute in Hin.
    repeat (destruct Hin as [Hin | Hin];
            [apply (f_equal receipt_of) in Hin; cbn in Hin; try discriminate Hin|]).
    - now injection Hin as _ <-.
    - destruct Hin. }
  subst receipt.
  destruct (Hselect first_l2_log) as [_ Hcarry]; [right; split; reflexivity|].
  assert (He : In (nth 13 (emitted (InteropTest.main 3 fallback_host [])) (Sleep 0))
                  (emitted (InteropTest.main 3 fallback_host []))).
  { vm_compute. do 13 right. left. reflexivity. }
  destruct (bundle_proof (nth 13 (emitted (InteropTest.main 3 fallback_host [])) (Sleep 0)))
    as [proof|] eqn:Hproof; [|vm_compute in Hproof; discriminate Hproof].
  exists (nth 13 (emitted (InteropTest.main 3 fallback_host [])) (Sleep 0)), proof.
  destruct (Hcarry _ proof He Hproof) as [Hindex Hmessage].
  split; [exact He|]. split; [exact Hproof|]. split; [now rewrite Hmessage | exact Hindex].
Defined.

(** ** The bundle codec round trip *)

Module BundleCodecFacts.

Import BundleCodec.
Local Open Scope parser_scope.

(** Reading the fields of a record that is written out. *)
Ltac fields :=
  cbn [InteropCall.version InteropCall.shadowAccount InteropCall.to InteropCall.from
       InteropCall.value InteropCall.data
       BundleAttributes.executionAddress BundleAttributes.unbundlerAddress
       InteropBundle.version InteropBundle.sourceChainId InteropBundle.destinationChainId
       InteropBundle.interopBundleSalt InteropBundle.calls InteropBundle.bundleAttributes] in *.

Lemma length_word z : List.length (word z) = 32%nat.
Proof. unfold word. now rewrite length_rev, length_le_split. Qed.

Lemma word_value_word z : 0 <= z < 2 ^ 256 -> word_value (word z) = z.
Proof.
  intros Hz. unfold word_value, word. rewrite rev_involutive, le_combine_split.
  apply Z.mod_small. exact Hz.
Qed.

Lemma word_word_value w : List.length w = 32%nat -> word (word_value w) = w.
Proof.
  intros Hw. unfold word_value, word.
  rewrite <- (length_rev w) in Hw. rewrite <- Hw, split_le_combine.
  apply rev_involutive.
Qed.

Lemma word_value_range w : List.length w = 32%nat -> 0 <= word_value w < 2 ^ 256.
Proof.
  intros Hw. unfold word_value.
  pose proof (le_combine_bound (rev w)) as H. rewrite length_rev, Hw in H. exact H.
Qed.

Lemma length_zeros n : List.length (zeros n) = n.
Proof. apply repeat_length. Qed.

Lemma all_zero_zeros n : all_zero (zeros n) = true.
Proof. induction n as [|n IH]; [reflexivity | exact IH]. Qed.

Lemma all_zero_inv l : all_zero l = true -> l = zeros (List.length l).
Proof.
  induction l as [|b l IH]; [reflexivity|].
  unfold all_zero. cbn [forallb]. intros H.
  apply andb_prop in H as [Hb Hl]. apply Byte.byte_dec_bl in Hb.
  cbn [List.length]. change (zeros (S (List.length l))) with (Byte.x00 :: zeros (List.length l)).
  now rewrite Hb, <- (IH Hl).
Qed.

Lemma take_app a rest n : List.length a = n -> take n (a ++ rest) = Some (a, rest).
Proof.
  intros <-. unfold take. rewrite length_app.
  destruct (Nat.ltb_spec (List.length a + List.length rest) (List.length a)); [lia|].
  rewrite firstn_app, firstn_all, Nat.sub_diag, skipn_app, skipn_all, Nat.sub_diag.
  cbn. now rewrite app_nil_r.
Qed.

Lemma take_inv n x a rest :
  take n x = Some (a, rest) -> x = a ++ rest /\ List.length a = n.
Proof.
  unfold take. destruct (Nat.ltb_spec (List.length x) n); [discriminate|].
  intros E. injection E as <- <-. split; [now rewrite firstn_skipn|].
  now apply firstn_length_le.
Qed.

Lemma p_word_complete : complete valid_word word p_word.
Proof.
  intros z rest Hz. unfold p_word, andThen.
  rewrite (take_app (word z) rest 32 (length_word z)). unfold pure.
  now rewrite (word_value_word z Hz).
Qed.

Lemma p_word_inv x z rest :
  p_word x = Some (z, rest) -> x = word z ++ rest /\ valid_word z.
Proof.
  unfold p_word, andThen.
  destruct (take 32 x) as [[w r]|] eqn:Ht; [|discriminate].
  apply take_inv in Ht as [-> Hlen]. unfold pure. intros E. injection E as <- <-.
  split; [now rewrite word_word_value | now apply word_value_range].
Qed.

Lemma p_word_sound : sound word p_word.
Proof. intros x z rest H. now apply p_word_inv in H. Qed.

Lemma p_expect_complete z rest :
  valid_word z -> p_expect z (word z ++ rest) = Some (tt, rest).
Proof.
  intros Hz. unfold p_expect, andThen. rewrite (p_word_complete z rest Hz).
  now rewrite Z.eqb_refl.
Qed.

Lemma p_expect_inv z x u rest : p_expect z x = Some (u, rest) -> x = word z ++ rest.
Proof.
  unfold p_expect, andThen.
  destruct (p_word x) as [[w r]|] eqn:Hw; [|discriminate].
  apply p_word_inv in Hw as [-> _].
  destruct (Z.eqb_spec w z) as [->|]; [|discriminate].
  unfold guard, pure. intros E. now inversion E.
Qed.

Lemma p_bool_complete : complete (fun _ => True) enc_bool p_bool.
Proof.
  intros b rest _. unfold p_bool, enc_bool, andThen.
  destruct b; rewrite p_word_complete by (unfold valid_word; lia); reflexivity.
Qed.

Lemma p_bool_sound : sound enc_bool p_bool.
Proof.
  intros x b rest. unfold p_bool, andThen.
  destruct (p_word x) as [[z r]|] eqn:Hz; [|discriminate].
  apply p_word_inv in Hz as [-> _].
  destruct (Z.eqb_spec z 0) as [->|].
  - intros E. now injection E as <- <-.
  - destruct (Z.eqb_spec z 1) as [->|]; [|discriminate].
    intros E. now injection E as <- <-.
Qed.

Lemma p_address_complete : complete (fun a => 0 <= a < 2 ^ 160) word p_address.
Proof.
  intros a rest Ha. unfold p_address, andThen.
  rewrite p_word_complete by (unfold valid_word; lia).
  destruct (Z.ltb_spec a (2 ^ 160)); [reflexivity | lia].
Qed.

Lemma p_address_sound : sound word p_address.
Proof.
  intros x a rest. unfold p_address, andThen.
  destruct (p_word x) as [[z r]|] eqn:Hz; [|discriminate].
  apply p_word_inv in Hz as [-> _].
  destruct (z <? 2 ^ 160); [|discriminate].
  unfold guard, pure. intros E. now inversion E.
Qed.

Lemma p_bytes_complete : complete valid_bytes enc_bytes p_bytes.
Proof.
  intros d rest Hd. unfold p_bytes, enc_bytes, andThen. rewrite <- !app_assoc.
  rewrite p_word_complete by (unfold valid_word, valid_bytes in *; lia).
  rewrite Nat2Z.id, (take_app d _ _ eq_refl).
  rewrite (take_app (zeros (padding (List.length d))) rest _ (length_zeros _)).
  now rewrite all_zero_zeros.
Qed.

Lemma p_bytes_sound : sound enc_bytes p_bytes.
Proof.
  intros x d rest. unfold p_bytes, enc_bytes, andThen.
  destruct (p_word x) as [[n r]|] eqn:Hn; [|discriminate].
  apply p_word_inv in Hn as [-> [Hn _]].
  destruct (take (Z.to_nat n) r) as [[d' r1]|] eqn:Hd; [|discriminate].
  apply take_inv in Hd as [-> Hlen].
  destruct (take (padding (Z.to_nat n)) r1) as [[pad r2]|] eqn:Hp; [|discriminate].
  apply take_inv in Hp as [-> Hpad].
  destruct (all_zero pad) eqn:Hz; [|discriminate].
  unfold guard, pure. intros E. injection E as <- <-.
  rewrite Hlen, Z2Nat.id by exact Hn.
  rewrite <- !app_assoc. rewrite <- Hpad. now rewrite <- (all_zero_inv pad Hz).
Qed.

Lemma p_repeat_complete {A : Type} (ok : A -> Prop) enc (p : Parser A) l rest :
  complete ok enc p -> Forall ok l ->
  p_repeat (List.length l) p (concat (map enc l) ++ rest) = Some (l, rest).
Proof.
  intros Hp Hl. induction Hl as [|a l Ha Hl IH]; [reflexivity|].
  cbn [List.length p_repeat map concat]. unfold andThen. rewrite <- app_assoc.
  rewrite (Hp a _ Ha). fold (@andThen (list A) (list A)). unfold andThen. now rewrite IH.
Qed.

Lemma p_repeat_sound {A : Type} enc (p : Parser A) n x l rest :
  sound enc p -> p_repeat n p x = Some (l, rest) ->
  x = concat (map enc l) ++ rest /\ List.length l = n.
Proof.
  intros Hp. revert x l rest. induction n as [|n IH]; intros x l rest.
  - cbn. unfold pure. intros E. injection E as <- <-. now split.
  - cbn [p_repeat]. unfold andThen.
    destruct (p x) as [[a r]|] eqn:Ha; [|discriminate].
    apply Hp in Ha as ->.
    destruct (p_repeat n p r) as [[l' r']|] eqn:Hl; [|discriminate].
    apply IH in Hl as [-> <-]. unfold pure. intros E. injection E as <- <-.
    cbn. now rewrite <- app_assoc.
Qed.

Lemma length_offsets start sizes : List.length (offsets start sizes) = List.length sizes.
Proof.
  revert start. induction sizes as [|s sizes IH]; intros start; [reflexivity|].
  cbn. now rewrite IH.
Qed.

(** Offsets lie between the start and the end of what they lay out. *)
Lemma offsets_range start sizes :
  0 <= start ->
  Forall (fun o => 0 <= o <= start + Z.of_nat (list_sum sizes)) (offsets start sizes).
Proof.
  revert start. induction sizes as [|s sizes IH]; intros start Hs; [constructor|].
  cbn [offsets]. constructor; [lia|].
  eapply Forall_impl; [|apply IH; lia]. cbn beta. intros o Ho.
  change (list_sum (s :: sizes)) with (s + list_sum sizes)%nat. lia.
Qed.

Lemma length_concat_words (l : list Z) :
  List.length (concat (map word l)) = (32 * List.length l)%nat.
Proof.
  induction l as [|z l IH]; [reflexivity|].
  cbn [map concat List.length]. rewrite length_app, length_word, IH. lia.
Qed.

Lemma length_concat_calls cs :
  List.length (concat (map enc_call cs)) = list_sum (call_sizes cs).
Proof.
  induction cs as [|c cs IH]; [reflexivity|].
  cbn [map concat]. rewrite length_app, IH. reflexivity.
Qed.

Lemma length_call_sizes cs : List.length (call_sizes cs) = List.length cs.
Proof. apply length_map. Qed.

Lemma length_enc_calls cs :
  List.length (enc_calls cs)
  = (32 + 32 * List.length cs + list_sum (call_sizes cs))%nat.
Proof.
  unfold enc_calls. rewrite !length_app, length_word, length_concat_words, length_offsets.
  rewrite length_call_sizes, length_concat_calls. lia.
Qed.

Section Versions.

Variable known_version : Byte.byte -> bool.

Lemma p_version_complete :
  complete (valid_version known_version) enc_bytes1 (p_version known_version).
Proof.
  intros v rest (tag & -> & Hknown). unfold p_version, enc_bytes1, andThen.
  rewrite (take_app ([tag] ++ zeros 31) rest 32 eq_refl).
  cbn [app]. rewrite all_zero_zeros. unfold guard, pure. now rewrite Hknown.
Qed.

Lemma p_version_sound : sound enc_bytes1 (p_version known_version).
Proof.
  intros x v rest. unfold p_version, enc_bytes1, andThen.
  destruct (take 32 x) as [[w r]|] eqn:Hw; [|discriminate].
  apply take_inv in Hw as [-> Hlen].
  destruct w as [|tag pad]; [discriminate|].
  destruct (all_zero pad) eqn:Hz; [|discriminate].
  unfold guard, pure. destruct (known_version tag); [|discriminate].
  intros E. injection E as <- <-.
  cbn in Hlen. injection Hlen as Hlen.
  rewrite (all_zero_inv pad Hz), Hlen. reflexivity.
Qed.

Lemma p_call_complete :
  complete (valid_call known_version) enc_call (p_call known_version).
Proof.
  intros [version shadowAccount to from value data] rest (Hv & Hto & Hfrom & Hvalue & Hdata).
  unfold p_call, enc_call, andThen. fields.
  rewrite <- !app_assoc.
  rewrite (p_version_complete _ _ Hv), (p_bool_complete _ _ I),
    (p_address_complete _ _ Hto), (p_address_complete _ _ Hfrom),
    (p_word_complete _ _ Hvalue), p_expect_complete by (unfold valid_word; lia).
  now rewrite (p_bytes_complete _ _ Hdata).
Qed.

Lemma p_call_sound : sound enc_call (p_call known_version).
Proof.
  intros x c rest. unfold p_call, enc_call, andThen.
  destruct (p_version known_version x) as [[version r0]|] eqn:H0; [|discriminate].
  apply p_version_sound in H0 as ->.
  destruct (p_bool r0) as [[shadowAccount r1]|] eqn:H1; [|discriminate].
  apply p_bool_sound in H1 as ->.
  destruct (p_address r1) as [[to r2]|] eqn:H2; [|discriminate].
  apply p_address_sound in H2 as ->.
  destruct (p_address r2) as [[from r3]|] eqn:H3; [|discriminate].
  apply p_address_sound in H3 as ->.
  destruct (p_word r3) as [[value r4]|] eqn:H4; [|discriminate].
  apply p_word_sound in H4 as ->.
  destruct (p_expect 192 r4) as [[u r5]|] eqn:H5; [|discriminate].
  apply p_expect_inv in H5 as ->.
  destruct (p_bytes r5) as [[data r6]|] eqn:H6; [|discriminate].
  apply p_bytes_sound in H6 as ->.
  unfold pure. intros E. injection E as <- <-. fields.
  now rewrite <- !app_assoc.
Qed.

Lemma p_calls_complete cs rest :
  Forall (valid_call known_version) cs ->
  Z.of_nat (List.length (enc_calls cs)) < 2 ^ 256 ->
  p_calls known_version (enc_calls cs ++ rest) = Some (cs, rest).
Proof.
  intros Hcs Hsize. rewrite length_enc_calls in Hsize.
  unfold p_calls, enc_calls, andThen. rewrite <- !app_assoc.
  rewrite p_word_complete by (unfold valid_word; lia).
  rewrite Nat2Z.id.
  pose proof (p_repeat_complete valid_word word p_word
                (offsets (32 * Z.of_nat (List.length cs)) (call_sizes cs))
                (concat (map enc_call cs) ++ rest) p_word_complete) as Hoffs.
  rewrite length_offsets, length_call_sizes in Hoffs. rewrite Hoffs.
  - rewrite (p_repeat_complete _ enc_call _ cs rest p_call_complete Hcs).
    destruct (list_eq_dec Z.eq_dec _ _) as [_|Hne]; [reflexivity | now destruct Hne].
  - eapply Forall_impl; [|apply offsets_range; lia].
    cbn beta. unfold valid_word. intros o Ho. lia.
Qed.

Lemma p_calls_sound : sound enc_calls (p_calls known_version).
Proof.
  intros x cs rest. unfold p_calls, enc_calls, andThen.
  destruct (p_word x) as [[n r0]|] eqn:H0; [|discriminate].
  apply p_word_inv in H0 as [-> [Hn _]].
  destruct (p_repeat (Z.to_nat n) p_word r0) as [[offs r1]|] eqn:H1; [|discriminate].
  apply (p_repeat_sound word) in H1 as [-> Hoffs]; [|exact p_word_sound].
  destruct (p_repeat (Z.to_nat n) (p_call known_version) r1) as [[cs' r2]|] eqn:H2;
    [|discriminate].
  apply (p_repeat_sound enc_call) in H2 as [-> Hlen]; [|exact p_call_sound].
  destruct (list_eq_dec Z.eq_dec offs _) as [->|]; [|discriminate].
  unfold guard, pure. intros E. injection E as <- <-.
  rewrite Hlen, Z2Nat.id by exact Hn. now rewrite <- !app_assoc.
Qed.

Lemma p_attributes_complete a rest :
  valid_bytes (BundleAttributes.executionAddress a) ->
  valid_bytes (BundleAttributes.unbundlerAddress a) ->
  Z.of_nat (List.length (enc_attributes a)) < 2 ^ 256 ->
  p_attributes (enc_attributes a ++ rest) = Some (a, rest).
Proof.
  destruct a as [executionAddress unbundlerAddress]. fields. intros He Hu Hsize.
  unfold enc_attributes in Hsize. fields. rewrite !length_app, !length_word in Hsize.
  unfold p_attributes, enc_attributes, andThen. fields. rewrite <- !app_assoc.
  rewrite p_expect_complete by (unfold valid_word; lia).
  rewrite p_word_complete by (unfold valid_word; lia).
  rewrite (p_bytes_complete _ _ He), Z.eqb_refl. unfold guard, pure.
  now rewrite (p_bytes_complete _ _ Hu).
Qed.

Lemma p_attributes_sound : sound enc_attributes p_attributes.
Proof.
  intros x a rest. unfold p_attributes, enc_attributes, andThen.
  destruct (p_expect 64 x) as [[u r0]|] eqn:H0; [|discriminate].
  apply p_expect_inv in H0 as ->.
  destruct (p_word r0) as [[second r1]|] eqn:H1; [|discriminate].
  apply p_word_sound in H1 as ->.
  destruct (p_bytes r1) as [[executionAddress r2]|] eqn:H2; [|discriminate].
  apply p_bytes_sound in H2 as ->.
  destruct (Z.eqb_spec second (64 + Z.of_nat (List.length (enc_bytes executionAddress))))
    as [->|]; [|discriminate].
  unfold guard, pure.
  destruct (p_bytes r2) as [[unbundlerAddress r3]|] eqn:H3; [|discriminate].
  apply p_bytes_sound in H3 as ->.
  intros E. injection E as <- <-. fields. now rewrite <- !app_assoc.
Qed.

Lemma p_bundle_complete b rest :
  valid_bundle known_version b ->
  p_bundle known_version (enc_bundle b ++ rest) = Some (b, rest).
Proof.
  destruct b as [version sourceChainId destinationChainId salt calls attributes].
  intros (Hv & Hsrc & Hdst & Hsalt & Hcalls & He & Hu & Hsize). fields.
  unfold enc_bundle in Hsize. fields. rewrite !length_app, !length_word in Hsize.
  assert (Hlv : List.length (enc_bytes1 version) = 32%nat)
    by (destruct Hv as (tag & -> & _); reflexivity).
  rewrite Hlv, Hsalt in Hsize.
  unfold p_bundle, enc_bundle, andThen. fields. rewrite <- !app_assoc.
  rewrite (p_version_complete _ _ Hv), (p_word_complete _ _ Hsrc),
    (p_word_complete _ _ Hdst), (take_app salt _ _ Hsalt).
  rewrite p_expect_complete by (unfold valid_word; lia).
  rewrite p_word_complete by (unfold valid_word; lia).
  rewrite (p_calls_complete calls _ Hcalls) by lia.
  rewrite Z.eqb_refl. unfold guard, pure.
  now rewrite (p_attributes_complete attributes rest He Hu) by lia.
Qed.

Lemma p_bundle_sound : sound enc_bundle (p_bundle known_version).
Proof.
  intros x b rest. unfold p_bundle, enc_bundle, andThen.
  destruct (p_version known_version x) as [[version r0]|] eqn:H0; [|discriminate].
  apply p_version_sound in H0 as ->.
  destruct (p_word r0) as [[sourceChainId r1]|] eqn:H1; [|discriminate].
  apply p_word_sound in H1 as ->.
  destruct (p_word r1) as [[destinationChainId r2]|] eqn:H2; [|discriminate].
  apply p_word_sound in H2 as ->.
  destruct (take 32 r2) as [[salt r3]|] eqn:H3; [|discriminate].
  apply take_inv in H3 as [-> _].
  destruct (p_expect 192 r3) as [[u r4]|] eqn:H4; [|discriminate].
  apply p_expect_inv in H4 as ->.
  destruct (p_word r4) as [[second r5]|] eqn:H5; [|discriminate].
  apply p_word_sound in H5 as ->.
  destruct (p_calls known_version r5) as [[calls r6]|] eqn:H6; [|discriminate].
  apply p_calls_sound in H6 as ->.
  destruct (Z.eqb_spec second (192 + Z.of_nat (List.length (enc_calls calls))))
    as [->|]; [|discriminate].
  unfold guard, pure.
  destruct (p_attributes r6) as [[attributes r7]|] eqn:H7; [|discriminate].
  apply p_attributes_sound in H7 as ->.
  intros E. injection E as <- <-. fields. now rewrite <- !app_assoc.
Qed.

Lemma decode_encode b :
  valid_bundle known_version b -> decode known_version (encode b) = Some b.
Proof.
  intros Hb. unfold decode, encode, andThen.
  rewrite p_expect_complete by (unfold valid_word; lia).
  rewrite <- (app_nil_r (enc_bundle b)). now rewrite (p_bundle_complete b [] Hb).
Qed.

Lemma encode_decode x b :
  decode known_version x = Some b -> encode b = x.
Proof.
  unfold decode, encode, andThen.
  destruct (p_expect 32 x) as [[u r0]|] eqn:H0; [|discriminate].
  apply p_expect_inv in H0 as ->.
  destruct (p_bundle known_version r0) as [[b' [|extra rest]]|] eqn:H1; try discriminate.
  apply p_bundle_sound in H1 as ->. intros E. injection E as <-.
  now rewrite app_nil_r.
Qed.

End Versions.

End BundleCodecFacts.

(** C4. For every valid bundle, decoding its encoding gives the bundle
    back; and whatever the decoder accepts is the encoding of what it
    decodes to, byte for byte, and decodes to it again. The schema is
    [(version, sourceChainId, destinationChainId, salt, calls[],
    bundleAttributes)], the version tags the decoder knows being any set. *)
Theorem bundle_codec_round_trip (known_version : Byte.byte -> bool) :
  (forall b,
     BundleCodec.valid_bundle known_version b ->
     BundleCodec.decode known_version (BundleCodec.encode b) = Some b) /\
  (forall x b,
     BundleCodec.decode known_version x = Some b ->
     BundleCodec.encode b = x /\
     BundleCodec.decode known_version (BundleCodec.encode b) = Some b).
Proof.
  split.
  - apply BundleCodecFacts.decode_encode.
  - intros x b Hx.
    pose proof (BundleCodecFacts.encode_decode known_version x b Hx) as He.
    split; [exact He | now rewrite He].
Qed.

Lemma greeting_bundle_valid : BundleCodec.valid_bundle version_one greeting_bundle.
Proof.
  assert (Hrange : forall z bits, (0 <=? z) = true -> (z <? 2 ^ bits) = true -> 0 <= z < 2 ^ bits).
  { intros z bits H0 H1. split; [now apply Z.leb_le | now apply Z.ltb_lt]. }
  assert (Hversion : BundleCodec.valid_version version_one [Byte.x01]).
  { exists Byte.x01. now split. }
  assert (Hcall : BundleCodec.valid_call version_one greeting_call).
  { split; [exact Hversion|].
    split; [apply Hrange; vm_compute; reflexivity|].
    split; [apply Hrange; vm_compute; reflexivity|].
    split; [apply (Hrange _ 256); vm_compute; reflexivity|].
    apply Z.ltb_lt. vm_compute. reflexivity. }
  split; [exact Hversion|].
  split; [apply (Hrange _ 256); vm_compute; reflexivity|].
  split; [apply (Hrange _ 256); vm_compute; reflexivity|].
  split; [vm_compute; reflexivity|].
  split; [constructor; [exact Hcall | constructor; [exact Hcall | constructor]]|].
  split; [apply Z.ltb_lt; vm_compute; reflexivity|].
  split; [apply Z.ltb_lt; vm_compute; reflexivity|].
  apply Z.ltb_lt. vm_compute. reflexivity.
Qed.

Lemma bundle_codec_round_trip_witness :
  BundleCodec.valid_bundle version_one greeting_bundle /\
  BundleCodec.decode version_one (BundleCodec.encode greeting_bundle) = Some greeting_bundle.
Proof.
  split; [exact greeting_bundle_valid|].
  exact (proj1 (bundle_codec_round_trip version_one) greeting_bundle greeting_bundle_valid).
Defined.

(** ** Every run of the bounded waiters *)

Lemma attempts_app t1 t2 : attempts (t1 ++ t2) = (attempts t1 + attempts t2)%nat.
Proof. unfold attempts. now rewrite filter_app, length_app. Qed.

Lemma elapsed_app t1 t2 : elapsed (t1 ++ t2) = elapsed t1 + elapsed t2.
Proof.
  induction t1 as [|[R q r|ms] t1 IH]; cbn [app elapsed]; lia.
Qed.

(** X1. Every run of the root waiter, whatever the endpoint answers, is a
    row of reads that found no root (the read threw, or handed back the
    empty text, the zero address or the zero digest), each followed by one
    sleep of [POLL_INTERVAL], and then either the timeout error after 600
    such reads, or one read of a set root on which the waiter settles: in
    success when it equals [expectedRoot] up to letter case, with the
    mismatch error otherwise. So a run makes at most 600 reads, sleeps at
    most [DEFAULT_TIMEOUT] in all, and never ends with an error of the
    endpoint. Both scripts' waiters make the same run. *)
Theorem root_waiter_runs
    (host : Host.t) (h : Trace) (wallet : Wallet.t) (chainId batchNumber : Z)
    (expectedRoot : string) :
  let provider := Wallet.provider wallet in
  let root_q :=
    interopRoots (Contract.mk InteropTest.L2_INTEROP_ROOT_STORAGE (ViaProvider provider))
      chainId batchNumber in
  let run :=
    InteropTest.waitUntilRootBecomesAvailable provider chainId batchNumber expectedRoot host h in
  Part000.waitUntilRootBecomesAvailable wallet chainId batchNumber expectedRoot host h = run /\
  (attempts (emitted run) <= 600)%nat /\
  0 <= elapsed (emitted run) <= InteropTest.DEFAULT_TIMEOUT /\
  exists replies,
    Forall (fun r => InteropTest.root_is_set (root_of_reply r) = false) replies /\
    elapsed (emitted run) = InteropTest.POLL_INTERVAL * Z.of_nat (List.length replies) /\
    ((List.length replies = 600%nat /\
      run = (Rejected (mkError "Interop root did not become available in time"),
             idle_rounds root_q InteropTest.POLL_INTERVAL replies))
     \/
     (exists s,
        (List.length replies < 600)%nat /\
        InteropTest.root_is_set (Some s) = true /\
        run = (if (toLowerCase s =? toLowerCase expectedRoot)%string
               then Fulfilled tt
               else Rejected (mkError ("Interop root mismatch: expected " ++ expectedRoot
                                       ++ ", got " ++ s)%string),
               idle_rounds root_q InteropTest.POLL_INTERVAL replies
               ++ [Call root_q (Returned s)]))).
Proof.
  cbv zeta. rewrite Part000_waitUntilRootBecomesAvailable. split; [reflexivity|].
  unfold InteropTest.waitUntilRootBecomesAvailable.
  rewrite root_loop_is_poll_loop, initial_retries_value.
  set (q := interopRoots _ chainId batchNumber).
  destruct (poll_loop_shape q (root_decide expectedRoot) InteropTest.POLL_INTERVAL
              InteropTest.root_timeout 600 host h)
    as (rs & Hrs & [[Hlen Hrun] | (r & o & Hlen & Hd & _ & Hrun)]).
  - rewrite Hrun. unfold emitted. cbn [snd].
    rewrite attempts_idle_rounds, elapsed_idle_rounds, Hlen.
    split; [lia|]. split; [vm_compute; split; discriminate|].
    exists rs. split; [|split; [now rewrite Hlen | left; now split]].
    eapply Forall_impl; [|exact Hrs]. intros [s|err] H; [|reflexivity].
    cbn [root_of_reply]. unfold root_decide in H.
    now destruct (InteropTest.root_is_set (Some s)).
  - rewrite Hrun. unfold emitted. cbn [snd].
    rewrite attempts_app, elapsed_app, attempts_idle_rounds, elapsed_idle_rounds.
    cbn [attempts filter is_call List.length elapsed].
    split; [lia|]. split; [unfold InteropTest.POLL_INTERVAL, InteropTest.DEFAULT_TIMEOUT; lia|].
    exists rs. split; [|split; [lia|right]].
    + eapply Forall_impl; [|exact Hrs]. intros [s|err] H; [|reflexivity].
      cbn [root_of_reply]. unfold root_decide in H.
      now destruct (InteropTest.root_is_set (Some s)).
    + destruct r as [s|err]; [|discriminate Hd].
      unfold root_decide in Hd.
      destruct (InteropTest.root_is_set (Some s)) eqn:Hset; [|discriminate Hd].
      injection Hd as <-. exists s. repeat split; assumption.
Qed.

(** X2. Every run of the finality waiter is a row of reads of the
    [finalized] block that came out below [blockNumber] (a null block and
    a failed read count as height 0), each followed by one sleep of
    [POLL_INTERVAL], and then either the timeout error after 600 such
    reads, or one read at or above [blockNumber], on which the waiter
    returns. So a run makes at most 600 reads, sleeps at most
    [DEFAULT_TIMEOUT] in all, and never ends with an error of the
    endpoint. Both scripts' waiters make the same run. *)
Theorem finality_waiter_runs
    (host : Host.t) (h : Trace) (wallet : Wallet.t) (blockNumber : Z) :
  let provider := Wallet.provider wallet in
  let block_q := getBlock provider "finalized" in
  let run := InteropTest.waitUntilBlockFinalized provider blockNumber host h in
  Part000.waitUntilBlockFinalized wallet blockNumber host h = run /\
  (attempts (emitted run) <= 600)%nat /\
  0 <= elapsed (emitted run) <= InteropTest.DEFAULT_TIMEOUT /\
  exists replies,
    Forall (fun r => executedBlock_of r < blockNumber) replies /\
    elapsed (emitted run) = InteropTest.POLL_INTERVAL * Z.of_nat (List.length replies) /\
    ((List.length replies = 600%nat /\
      run = (Rejected (mkError "Block was not finalized in time"),
             idle_rounds block_q InteropTest.POLL_INTERVAL replies))
     \/
     (exists r,
        (List.length replies < 600)%nat /\
        blockNumber <= executedBlock_of r /\
        run = (Fulfilled tt,
               idle_rounds block_q InteropTest.POLL_INTERVAL replies ++ [Call block_q r]))).
Proof.
  cbv zeta. rewrite Part000_waitUntilBlockFinalized. split; [reflexivity|].
  unfold InteropTest.waitUntilBlockFinalized.
  rewrite finality_loop_is_poll_loop, initial_retries_value.
  set (q := getBlock _ "finalized").
  assert (Hidle : forall rs, Forall (fun r => finality_decide blockNumber r = None) rs ->
                             Forall (fun r => executedBlock_of r < blockNumber) rs).
  { intros rs. apply Forall_impl. intros r. unfold finality_decide.
    destruct (Z.geb_spec (executedBlock_of r) blockNumber); [discriminate | lia]. }
  destruct (poll_loop_shape q (finality_decide blockNumber) InteropTest.POLL_INTERVAL
              InteropTest.finality_timeout 600 host h)
    as (rs & Hrs & [[Hlen Hrun] | (r & o & Hlen & Hd & _ & Hrun)]).
  - rewrite Hrun. unfold emitted. cbn [snd].
    rewrite attempts_idle_rounds, elapsed_idle_rounds, Hlen.
    split; [lia|]. split; [vm_compute; split; discriminate|].
    exists rs. split; [now apply Hidle|]. split; [now rewrite Hlen | left; now split].
  - rewrite Hrun. unfold emitted. cbn [snd].
    rewrite attempts_app, elapsed_app, attempts_idle_rounds, elapsed_idle_rounds.
    cbn [attempts filter is_call List.length elapsed].
    split; [lia|]. split; [unfold InteropTest.POLL_INTERVAL, InteropTest.DEFAULT_TIMEOUT; lia|].
    exists rs. split; [now apply Hidle|]. split; [lia|right].
    unfold finality_decide in Hd.
    destruct (Z.geb_spec (executedBlock_of r) blockNumber) as [Hge|]; [|discriminate Hd].
    injection Hd as <-. exists r. repeat split; [assumption | lia].
Qed.

(** X3. Block heights are not negative, and a null block or a failed read
    counts as height 0: so for a block number of 0 or less the finality
    waiter returns after its first read whatever that read gave, also
    when the endpoint could not be reached. *)
Theorem finality_waiter_accepts_block_zero_unread
    (host : Host.t) (h : Trace) (wallet : Wallet.t) (blockNumber : Z) :
  let provider := Wallet.provider wallet in
  let block_q := getBlock provider "finalized" in
  let reply := Host.oracle host h (option Block.t) block_q in
  blockNumber <= 0 ->
  (forall b, reply = Returned (Some b) -> 0 <= Block.number b) ->
  InteropTest.waitUntilBlockFinalized provider blockNumber host h
  = (Fulfilled tt, [Call block_q reply]) /\
  Part000.waitUntilBlockFinalized wallet blockNumber host h
  = (Fulfilled tt, [Call block_q reply]).
Proof.
  cbv zeta. intros Hzero Hheight.
  rewrite Part000_waitUntilBlockFinalized.
  unfold InteropTest.waitUntilBlockFinalized.
  rewrite finality_loop_is_poll_loop, initial_retries_value.
  rewrite (poll_loop_first_decisive _ _ _ _ _ _ _ (Fulfilled tt)); [now split|].
  unfold finality_decide.
  destruct (Host.oracle host h (option Block.t) (getBlock (Wallet.provider wallet) "finalized"))
    as [[b|]|err]; cbn [executedBlock_of].
  - specialize (Hheight b eq_refl).
    destruct (Z.geb_spec (Block.number b) blockNumber); [reflexivity | lia].
  - destruct (Z.geb_spec 0 blockNumber); [reflexivity | lia].
  - destruct (Z.geb_spec 0 blockNumber); [reflexivity | lia].
Qed.

Lemma finality_waiter_accepts_block_zero_unread_witness :
  InteropTest.waitUntilBlockFinalized demo_provider 0
    (scripted_host (fun _ => Thrown unreachable) (fun _ => Thrown unreachable)
       (fun _ => Thrown unreachable)) []
  = (Fulfilled tt, [Call (getBlock demo_provider "finalized") (Thrown unreachable)]).
Proof.
  refine (proj1 (finality_waiter_accepts_block_zero_unread
                   (scripted_host (fun _ => Thrown unreachable) (fun _ => Thrown unreachable)
                      (fun _ => Thrown unreachable)) [] demo_wallet 0 _ _)).
  - apply Z.le_refl.
  - intros b Hb. discriminate Hb.
Defined.

(** ** A failed proof query *)

Lemma proof_loop_thrown fuel provider txHash host h i e err :
  nth_error (emitted (InteropTest.proof_loop fuel provider txHash host h)) i = Some e ->
  proof_reply e = Some (Thrown err) ->
  S i = List.length (emitted (InteropTest.proof_loop fuel provider txHash host h)) /\
  outcome (InteropTest.proof_loop fuel provider txHash host h) = Rejected err.
Proof.
  revert h i. induction fuel as [|n IH]; intros h i Hnth Hreply.
  - destruct i; discriminate Hnth.
  - revert Hnth. cbn [InteropTest.proof_loop]. unfold bind at 1 3 5, await.
    destruct (Host.oracle host h _ (getLogProof provider txHash 0)) as [[logProof|]|err0].
    + intros Hnth. destruct i as [|i]; [|destruct i; discriminate Hnth].
      injection Hnth as <-. discriminate Hreply.
    + unfold bind, sleep. cbn [app].
      specialize (IH ((h ++ [Call (getLogProof provider txHash 0) (Returned None)])
                      ++ [Sleep (Provider.pollingInterval provider)])).
      destruct (InteropTest.proof_loop n provider txHash host _) as [o t].
      unfold outcome, emitted in *. cbn [fst snd] in *.
      intros Hnth. destruct i as [|[|i]].
      * injection Hnth as <-. discriminate Hreply.
      * injection Hnth as <-. discriminate Hreply.
      * destruct (IH i Hnth Hreply) as [Hlen Ho]. split; [cbn; lia | exact Ho].
    + intros Hnth. destruct i as [|i]; [|destruct i; discriminate Hnth].
      injection Hnth as <-. cbn in Hreply. injection Hreply as ->. now split.
Qed.

Lemma finality_wait_no_proof_reply provider blockNumber :
  emits_only (fun e => proof_reply e = None)
    (InteropTest.waitUntilBlockFinalized provider blockNumber).
Proof. apply emits_only_finality_loop; intros; reflexivity. Qed.

(** X4. The wait for the proof has no [catch] around its queries: a proof
    query that throws is the last thing the operation does, and the
    operation throws the same error. Unlike the two bounded waiters it
    does not try again. Both scripts' operations make the same run. *)
Theorem thrown_proof_query_is_fatal
    (fuel : nat) (host : Host.t) (h : Trace) (wallet : Wallet.t) (blockNumber : Z)
    (txHash : string) (i : nat) (e : Event) (err : Error) :
  let provider := Wallet.provider wallet in
  let run := InteropTest.waitForL2ToL1LogProof fuel provider blockNumber txHash host h in
  nth_error (emitted run) i = Some e ->
  proof_reply e = Some (Thrown err) ->
  Part000.waitForL2ToL1LogProof fuel wallet blockNumber txHash host h = run /\
  S i = List.length (emitted run) /\
  outcome run = Rejected err.
Proof.
  cbv zeta. intros Hnth Hreply.
  rewrite Part000_waitForL2ToL1LogProof. split; [reflexivity|].
  revert Hnth. unfold InteropTest.waitForL2ToL1LogProof, bind.
  pose proof (finality_wait_no_proof_reply (Wallet.provider wallet) blockNumber host h)
    as Hquiet.
  destruct (InteropTest.waitUntilBlockFinalized (Wallet.provider wallet) blockNumber host h)
    as [[[]|e0|] fin]; unfold emitted, outcome in *; cbn [fst snd] in *.
  - pose proof (proof_loop_thrown fuel (Wallet.provider wallet) txHash host (h ++ fin)) as Hloop.
    destruct (InteropTest.proof_loop fuel (Wallet.provider wallet) txHash host (h ++ fin))
      as [o t]. unfold emitted, outcome in Hloop. cbn [fst snd] in *.
    intros Hnth.
    destruct (Nat.ltb_spec i (List.length fin)) as [Hlt | Hge].
    + rewrite nth_error_app1 in Hnth by exact Hlt.
      apply nth_error_In in Hnth. rewrite Forall_forall in Hquiet.
      rewrite (Hquiet _ Hnth) in Hreply. discriminate Hreply.
    + rewrite nth_error_app2 in Hnth by exact Hge.
      destruct (Hloop _ _ _ Hnth Hreply) as [Hlen Ho].
      split; [rewrite length_app; lia | exact Ho].
  - intros Hnth. apply nth_error_In in Hnth. rewrite Forall_forall in Hquiet.
    rewrite (Hquiet _ Hnth) in Hreply. discriminate Hreply.
  - intros Hnth. apply nth_error_In in Hnth. rewrite Forall_forall in Hquiet.
    rewrite (Hquiet _ Hnth) in Hreply. discriminate Hreply.
Qed.

Lemma thrown_proof_query_is_fatal_witness :
  let run := InteropTest.waitForL2ToL1LogProof 5 demo_provider 12 "0xabc"
               (scripted_host (fun _ => Thrown unreachable)
                  (fun _ => Returned (Some (Block.mk 12))) (throws_thrice None)) [] in
  List.length (emitted run) = 2%nat /\ outcome run = Rejected unreachable.
Proof.
  cbv zeta.
  destruct (thrown_proof_query_is_fatal 5
              (scripted_host (fun _ => Thrown unreachable)
                 (fun _ => Returned (Some (Block.mk 12))) (throws_thrice None))
              [] demo_wallet 12 "0xabc" 1
              (Call (getLogProof demo_provider "0xabc" 0) (Thrown unreachable)) unreachable)
    as (_ & Hlen & Hout); [reflexivity | reflexivity |].
  split; [symmetry; exact Hlen | exact Hout].
Defined.

(** ** Reading the environment *)

Lemma bind_rejected {A B : Type} (m : Async A) (f : A -> Async B) host h e t :
  m host h = (Rejected e, t) -> bind m f host h = (Rejected e, t).
Proof. intros H. unfold bind. now rewrite H. Qed.

Lemma bind_quiet {A B : Type} (m : Async A) (f : A -> Async B) host h a :
  m host h = (Fulfilled a, []) -> bind m f host h = f a host h.
Proof.
  intros H. unfold bind. rewrite H, app_nil_r. now destruct (f a host h).
Qed.

Lemma requireEnv_unset name host h :
  is_unset (Host.process_env host) name = true ->
  InteropTest.requireEnv name host h
  = (Rejected (mkError ("Missing env var: " ++ name)), []).
Proof.
  unfold is_unset, InteropTest.requireEnv, getenv, global, bind.
  destruct (Host.process_env host name) as [v|]; [|reflexivity].
  cbn [app]. destruct (truthy v); [discriminate | reflexivity].
Qed.

Lemma requireEnv_set name host h :
  is_unset (Host.process_env host) name = false ->
  exists v, Host.process_env host name = Some v /\ v <> "" /\
            InteropTest.requireEnv name host h = (Fulfilled v, []).
Proof.
  unfold is_unset, InteropTest.requireEnv, getenv, global, bind.
  destruct (Host.process_env host name) as [v|]; [|discriminate].
  cbn [app]. unfold truthy. destruct (String.eqb_spec v ""); [discriminate|].
  intros _. exists v. now repeat split.
Qed.


(** X5. Both scripts read [PRIVATE_KEY], [L2_RPC_URL] and
    [L2_RPC_URL_SECOND] before anything else. If one of them is not set,
    or set to the empty text, the run ends with the error that names the
    first such variable, and has called nothing outside the process: no
    file is read, no contract deployed, no transaction sent. *)
Theorem missing_env_var_ends_the_run_at_once
    (fuel : nat) (host : Host.t) (h : Trace) (name : string) :
  find (is_unset (Host.process_env host)) required_env = Some name ->
  InteropTest.main fuel host h = (Rejected (mkError ("Missing env var: " ++ name)), []) /\
  Part000.main fuel host h = (Rejected (mkError ("Missing env var: " ++ name)), []).
Proof.
  unfold required_env. cbn [find]. intros Hfind.
  unfold InteropTest.main, Part000.main.
  change Part000.requireEnv with InteropTest.requireEnv.
  destruct (is_unset (Host.process_env host) "PRIVATE_KEY") eqn:H1.
  { injection Hfind as <-.
    split; apply bind_rejected, requireEnv_unset, H1. }
  destruct (requireEnv_set _ host h H1) as (v1 & _ & _ & E1).
  rewrite 2!(bind_quiet (InteropTest.requireEnv "PRIVATE_KEY") _ host h v1 E1).
  destruct (is_unset (Host.process_env host) "L2_RPC_URL") eqn:H2.
  { injection Hfind as <-.
    split; apply bind_rejected, requireEnv_unset, H2. }
  destruct (requireEnv_set _ host h H2) as (v2 & _ & _ & E2).
  rewrite 2!(bind_quiet (InteropTest.requireEnv "L2_RPC_URL") _ host h v2 E2).
  destruct (is_unset (Host.process_env host) "L2_RPC_URL_SECOND") eqn:H3; [|discriminate Hfind].
  injection Hfind as <-.
  split; apply bind_rejected, requireEnv_unset, H3.
Qed.

Lemma missing_env_var_ends_the_run_at_once_witness :
  InteropTest.main 3 key_only_host [] = (Rejected (mkError "Missing env var: L2_RPC_URL"), []).
Proof.
  exact (proj1 (missing_env_var_ends_the_run_at_once 3 key_only_host [] "L2_RPC_URL" eq_refl)).
Defined.

(** ** No transaction is sent twice *)

Lemma filter_none {A : Type} (c : A -> bool) l :
  Forall (fun a => c a = false) l -> filter c l = [].
Proof.
  induction 1 as [|a l Ha _ IH]; [reflexivity|]. cbn. now rewrite Ha.
Qed.

Lemma at_most_quiet {A : Type} c n (m : Async A) :
  emits_only (fun e => c e = false) m -> at_most c n m.
Proof. intros H host hist. rewrite (filter_none _ _ (H host hist)). cbn. lia. Qed.

Lemma at_most_await {R : Type} c (q : Request R) : at_most c 1 (await q).
Proof. intros host hist. cbn. destruct (c _); cbn; lia. Qed.

Lemma at_most_prefix {A B : Type} c n (m : Async A) (f : A -> Async B) :
  emits_only (fun e => c e = false) m -> (forall a, at_most c n (f a)) ->
  at_most c n (bind m f).
Proof.
  intros Hm Hf host hist. unfold bind, emitted. specialize (Hm host hist).
  destruct (m host hist) as [[a|e|] t1]; unfold emitted in Hm; cbn [snd] in *;
    try (rewrite (filter_none _ _ Hm); cbn; lia).
  specialize (Hf a host (hist ++ t1)).
  destruct (f a host (hist ++ t1)) as [o t2]. unfold emitted in Hf. cbn [snd] in *.
  now rewrite filter_app, (filter_none _ _ Hm).
Qed.

Lemma at_most_suffix {A B : Type} c n (m : Async A) (f : A -> Async B) :
  at_most c n m -> (forall a, emits_only (fun e => c e = false) (f a)) ->
  at_most c n (bind m f).
Proof.
  intros Hm Hf host hist. unfold bind, emitted. specialize (Hm host hist).
  destruct (m host hist) as [[a|e|] t1]; unfold emitted in Hm; cbn [snd] in *;
    try assumption.
  specialize (Hf a host (hist ++ t1)).
  destruct (f a host (hist ++ t1)) as [o t2]. unfold emitted in Hf. cbn [snd] in *.
  rewrite filter_app, (filter_none _ _ Hf), app_nil_r. exact Hm.
Qed.

(** The events of a piece of either script all lack a property that can be
    read off each request. *)
Ltac quiet :=
  solve [ intros;
          repeat first
            [ rewrite Part000_waitForL2ToL1LogProof
            | rewrite Part000_waitUntilRootBecomesAvailable
            | progress unfold InteropTest.waitForL2ToL1LogProof,
                InteropTest.waitUntilBlockFinalized,
                InteropTest.waitUntilRootBecomesAvailable
            | emits_step ] ].

Ltac at_most_step :=
  lazymatch goal with
  | |- at_most _ _ (bind _ _) =>
      first [ apply at_most_prefix; [quiet | intros ?]
            | apply at_most_suffix; [| quiet] ]
  | |- at_most _ _ (await _) => apply at_most_await
  | |- at_most _ _ (match ?x with _ => _ end) => destruct x
  | |- at_most _ _ (let _ := _ in _) => cbv zeta
  | |- _ => apply at_most_quiet; quiet
  end.

Lemma main_sends_at_most_one k fuel : at_most (is_transaction k) 1 (InteropTest.main fuel).
Proof.
  unfold InteropTest.main, InteropTest.requireEnv, InteropTest.encodeEvmV1Address,
    InteropTest.deployGreetContract, InteropTest.newProvider, InteropTest.newWallet, getenv.
  destruct k; repeat at_most_step.
Qed.

Lemma Part000_main_sends_at_most_one k fuel :
  at_most (is_transaction k) 1 (Part000.main fuel).
Proof.
  unfold Part000.main, Part000.requireEnv,
    Part000.deployGreetContract, Part000.newProvider, Part000.newWallet, getenv.
  destruct k; repeat at_most_step.
Qed.

Lemma main_sends_nothing_to_L1 fuel :
  emits_only (fun e => is_transaction L1Send e = false) (InteropTest.main fuel).
Proof.
  unfold InteropTest.main, InteropTest.requireEnv, InteropTest.encodeEvmV1Address,
    InteropTest.deployGreetContract, InteropTest.newProvider, InteropTest.newWallet, getenv.
  quiet.
Qed.

Lemma Part000_main_executes_no_bundle fuel :
  emits_only (fun e => is_transaction BundleExecution e = false) (Part000.main fuel).
Proof.
  unfold Part000.main, Part000.requireEnv,
    Part000.deployGreetContract, Part000.newProvider, Part000.newWallet, getenv.
  quiet.
Qed.

(** X6. Neither script sends a transaction twice, whatever the endpoints
    answer and wherever the run ends: a run of the TypeScript flow holds at
    most one deployment, one [sendMessage] and one [executeBundle], and
    never a [sendToL1]; a run of the JavaScript flow holds at most one
    deployment, one [sendMessage] and one [sendToL1], and never an
    [executeBundle]. No failed step is tried again. *)
Theorem no_transaction_is_sent_twice (fuel : nat) (host : Host.t) (h : Trace) (k : Transaction) :
  let ts := emitted (InteropTest.main fuel host h) in
  let js := emitted (Part000.main fuel host h) in
  (count_sent k ts <= 1)%nat /\ count_sent L1Send ts = 0%nat /\
  (count_sent k js <= 1)%nat /\ count_sent BundleExecution js = 0%nat.
Proof.
  cbv zeta. unfold count_sent. repeat split.
  - apply main_sends_at_most_one.
  - now rewrite (filter_none _ _ (main_sends_nothing_to_L1 fuel host h)).
  - apply Part000_main_sends_at_most_one.
  - now rewrite (filter_none _ _ (Part000_main_executes_no_bundle fuel host h)).
Qed.

(** ** A call that throws outside the waiters' [try] ends the run *)

Lemma fails_fast_quiet {A : Type} (m : Async A) :
  emits_only (fun e => uncaught e = None) m -> fails_fast m.
Proof. intros H host hist. left. apply H. Qed.

Lemma fails_fast_await {R : Type} (q : Request R) :
  guarded_read q = false -> fails_fast (await q).
Proof.
  intros Hq host hist. unfold await, emitted, outcome. cbn [fst snd].
  destruct (Host.oracle host hist R q) as [a|err].
  - left. repeat constructor. unfold uncaught. cbn. now rewrite Hq.
  - right. exists [], (Call q (Thrown err)), err. repeat split; [constructor|].
    unfold uncaught. cbn. now rewrite Hq.
Qed.

Lemma fails_fast_bind {A B : Type} (m : Async A) (f : A -> Async B) :
  fails_fast m -> (forall a, fails_fast (f a)) -> fails_fast (bind m f).
Proof.
  intros Hm Hf host hist. unfold bind, emitted, outcome. specialize (Hm host hist).
  destruct (m host hist) as [[a|e|] t1]; unfold emitted, outcome in Hm; cbn [fst snd] in *.
  - specialize (Hf a host (hist ++ t1)).
    destruct (f a host (hist ++ t1)) as [o t2]. unfold emitted, outcome in Hf.
    cbn [fst snd] in *.
    destruct Hm as [Hm | (pre & e & err & _ & _ & _ & Ho)]; [|discriminate Ho].
    destruct Hf as [Hf | (pre & e & err & -> & Hpre & He & Ho)].
    + left. apply Forall_app. now split.
    + right. exists (t1 ++ pre), e, err. rewrite app_assoc.
      repeat split; try assumption. apply Forall_app. now split.
  - destruct Hm as [Hm | (pre & e0 & err & Ht & Hpre & He & Ho)]; [now left | right].
    injection Ho as ->. now exists pre, e0, err.
  - destruct Hm as [Hm | (pre & e0 & err & _ & _ & _ & Ho)]; [now left | discriminate Ho].
Qed.

Lemma fails_fast_proof_loop fuel provider txHash :
  fails_fast (InteropTest.proof_loop fuel provider txHash).
Proof.
  induction fuel as [|n IH]; [apply fails_fast_quiet, emits_only_pending|].
  cbn [InteropTest.proof_loop]. apply fails_fast_bind; [now apply fails_fast_await|].
  intros [logProof|]; [apply fails_fast_quiet, emits_only_ret|].
  apply fails_fast_bind; [|intros; exact IH].
  apply fails_fast_quiet, emits_only_sleep. reflexivity.
Qed.

Ltac fails_fast_step :=
  lazymatch goal with
  | |- fails_fast (bind _ _) => apply fails_fast_bind; [|intros ?]
  | |- fails_fast (await _) => apply fails_fast_await; reflexivity
  | |- fails_fast (match ?x with _ => _ end) => destruct x
  | |- fails_fast (let _ := _ in _) => cbv zeta
  | |- fails_fast (InteropTest.proof_loop _ _ _) => apply fails_fast_proof_loop
  | |- fails_fast (InteropTest.waitForL2ToL1LogProof _ _ _ _) =>
      unfold InteropTest.waitForL2ToL1LogProof
  | |- fails_fast (Part000.waitForL2ToL1LogProof _ _ _ _) =>
      rewrite Part000_waitForL2ToL1LogProof
  | |- _ => apply fails_fast_quiet; quiet
  end.

Lemma main_fails_fast fuel : fails_fast (InteropTest.main fuel).
Proof.
  unfold InteropTest.main, InteropTest.requireEnv, InteropTest.encodeEvmV1Address,
    InteropTest.deployGreetContract, InteropTest.newProvider, InteropTest.newWallet, getenv.
  repeat fails_fast_step.
Qed.

Lemma Part000_main_fails_fast fuel : fails_fast (Part000.main fuel).
Proof.
  unfold Part000.main, Part000.requireEnv,
    Part000.deployGreetContract, Part000.newProvider, Part000.newWallet, getenv.
  repeat fails_fast_step.
Qed.

Lemma fails_fast_nth {A : Type} (m : Async A) host h i e err :
  fails_fast m ->
  nth_error (emitted (m host h)) i = Some e ->
  uncaught e = Some err ->
  S i = List.length (emitted (m host h)) /\ outcome (m host h) = Rejected err.
Proof.
  intros Hm Hnth He.
  destruct (Hm host h) as [Hnone | (pre & e0 & err0 & Ht & Hpre & He0 & Ho)].
  - apply nth_error_In in Hnth. rewrite Forall_forall in Hnone.
    rewrite (Hnone _ Hnth) in He. discriminate He.
  - rewrite Ht in *. rewrite length_app. cbn [List.length].
    destruct (Nat.lt_trichotomy i (List.length pre)) as [Hlt | [-> | Hgt]].
    + rewrite nth_error_app1 in Hnth by exact Hlt.
      apply nth_error_In in Hnth. rewrite Forall_forall in Hpre.
      rewrite (Hpre _ Hnth) in He. discriminate He.
    + rewrite nth_error_app2, Nat.sub_diag in Hnth by lia.
      injection Hnth as <-. rewrite He0 in He. injection He as <-.
      split; [lia | exact Ho].
    + rewrite nth_error_app2 in Hnth by lia.
      destruct (i - List.length pre)%nat as [|[|k]] eqn:Hk; [lia | |]; discriminate Hnth.
Qed.

(** X7. The only calls whose failure a run survives are the reads of the
    stored root and of the finalized block, which the two bounded waiters
    make inside [try]. Any other call that throws (loading the artifact,
    a deployment, a network query, sending or awaiting a transaction, a
    proof query, the verification) is the last thing the run does, and
    the run ends with the thrown error. This holds for both scripts. *)
Theorem thrown_call_ends_the_run
    (fuel : nat) (host : Host.t) (h : Trace) (i : nat) (e : Event) (err : Error) :
  let ts := InteropTest.main fuel host h in
  let js := Part000.main fuel host h in
  thrown e = Some err ->
  is_guarded_read e = false ->
  (nth_error (emitted ts) i = Some e ->
   S i = List.length (emitted ts) /\ outcome ts = Rejected err) /\
  (nth_error (emitted js) i = Some e ->
   S i = List.length (emitted js) /\ outcome js = Rejected err).
Proof.
  cbv zeta. intros Hthrown Hread.
  assert (He : uncaught e = Some err) by (unfold uncaught; now rewrite Hread).
  split; intros Hnth.
  - exact (fails_fast_nth _ host h i e err (main_fails_fast fuel) Hnth He).
  - exact (fails_fast_nth _ host h i e err (Part000_main_fails_fast fuel) Hnth He).
Qed.

Lemma thrown_call_ends_the_run_witness :
  let ts := InteropTest.main 3 offline_host [] in
  List.length (emitted ts) = 1%nat /\ outcome ts = Rejected unreachable.
Proof.
  cbv zeta.
  destruct (proj1 (thrown_call_ends_the_run 3 offline_host [] 0
                     (Call (loadArtifact "../deps/Greet.json") (Thrown unreachable))
                     unreachable eq_refl eq_refl) eq_refl) as [Hlen Hout].
  split; [symmetry; exact Hlen | exact Hout].
Defined.

(** ** More steps through a script *)

(** A step of which only what it emits matters. *)
Lemma runs_skip {A B : Type} (P : Event -> Prop) (m : Async A) (f : A -> Async B)
    host h0 E (Q : Outcome B -> Trace -> Prop) :
  emits_only P m ->
  (forall a t, Forall P t -> runs (f a) host h0 (E ++ t) Q) ->
  (forall e t, Forall P t -> Q (Rejected e) (E ++ t)) ->
  (forall t, Forall P t -> Q Pending (E ++ t)) ->
  runs (bind m f) host h0 E Q.
Proof.
  intros Hm Hgo Hrej Hpen. unfold runs, bind, outcome, emitted.
  specialize (Hm host (h0 ++ E)).
  destruct (m host (h0 ++ E)) as [[a|e|] t1]; unfold emitted in Hm; cbn [fst snd] in *;
    [| now apply Hrej | now apply Hpen].
  specialize (Hgo a t1 Hm). unfold runs, outcome, emitted in Hgo.
  rewrite <- !app_assoc in *.
  destruct (f a host (h0 ++ E ++ t1)) as [o t2]. cbn [fst snd] in *.
  rewrite <- ?app_assoc in Hgo. exact Hgo.
Qed.

(** [encodeEvmV1Address] only computes: it calls nothing outside the
    process, and its result does not depend on what happened before. *)
Lemma encodeEvmV1Address_pure chainId address host h :
  InteropTest.encodeEvmV1Address chainId address host h
  = (outcome (InteropTest.encodeEvmV1Address chainId address host []), []).
Proof.
  unfold InteropTest.encodeEvmV1Address, bind, lift, outcome.
  repeat match goal with
         | |- context [match ?x with Returned _ => _ | Thrown _ => _ end] =>
             destruct x; cbn [app fst snd]
         end; reflexivity.
Qed.

Lemma runs_encode {B : Type} chainId address (k : string -> Async B) host h0 E
    (Q : Outcome B -> Trace -> Prop) :
  (forall recipient,
     outcome (InteropTest.encodeEvmV1Address chainId address host []) = Fulfilled recipient ->
     runs (k recipient) host h0 E Q) ->
  (forall e, Q (Rejected e) E) ->
  Q Pending E ->
  runs (bind (InteropTest.encodeEvmV1Address chainId address) k) host h0 E Q.
Proof.
  intros Hgo Hrej Hpen. unfold runs, bind, outcome, emitted.
  rewrite encodeEvmV1Address_pure.
  destruct (outcome (InteropTest.encodeEvmV1Address chainId address host []))
    as [recipient|e|] eqn:Hout; cbn [fst snd].
  - specialize (Hgo recipient eq_refl). unfold runs, outcome, emitted in Hgo.
    rewrite !app_nil_r. destruct (k recipient host (h0 ++ E)) as [o t]. exact Hgo.
  - rewrite app_nil_r. apply Hrej.
  - rewrite app_nil_r. exact Hpen.
Qed.

(** ** Where the message goes *)

Lemma main_send_shape fuel host h :
  send_shape host (emitted (InteropTest.main fuel host h)).
Proof.
  apply (runs_start (InteropTest.main fuel) host h (fun _ t => send_shape host t)).
  unfold InteropTest.main, InteropTest.requireEnv,
    InteropTest.deployGreetContract, InteropTest.newProvider, InteropTest.newWallet, getenv.
  repeat (runs_simpl;
          lazymatch goal with
          | |- runs (bind (InteropTest.encodeEvmV1Address _ _) _) _ _ _ _ =>
              apply runs_encode; [intros ? ? | intros ? | ]
          | |- runs (bind (await (sendMessage _ _ _ _ _)) _) _ _ _ _ => fail
          | |- _ => runs_step quiet_leaf
          end).
  apply runs_bind, runs_await. intros r.
  assert (Hshape : forall post, Forall (fun e => send_args e = None) post ->
            send_shape host
              ([Call (loadArtifact (greet_artifact_path host)) (Returned a);
                Call (deploy (Wallet.mk s (Provider.mk s1 (Ethers.defaultPollingInterval
                                                             (Host.ethers host))) a1)
                        a "gm") (Returned a2);
                Call (waitForDeployment a2) (Returned a3);
                Call (getAddress a2) (Returned a4);
                Call (getNetwork (Provider.mk s1 (Ethers.defaultPollingInterval
                                                    (Host.ethers host)))) (Returned a5);
                Call (sendMessage
                        (Contract.mk InteropTest.L2_INTEROP_CENTER_ADDRESS
                           (ViaWallet (Wallet.mk s (Provider.mk s0
                              (Ethers.defaultPollingInterval (Host.ethers host))) a0)))
                        recipient a6 [] InteropTest.overrides) r] ++ post)).
  { intros post Hpost. right. destruct a3.
    exists a, (Wallet.mk s (Provider.mk s0 (Ethers.defaultPollingInterval (Host.ethers host))) a0),
      (Wallet.mk s (Provider.mk s1 (Ethers.defaultPollingInterval (Host.ethers host))) a1),
      a2, a4, a5, recipient, a6, r, post.
    split; [reflexivity|]. repeat split; assumption. }
  destruct r as [sendTx|err]; runs_simpl.
  - eapply (runs_emits (fun e => send_args e = None)); [quiet|].
    intros o t' Ht'. now apply Hshape.
  - now apply (Hshape []).
Qed.

Lemma send_args_sent e c recipient payload attributes o :
  send_args e = Some (c, recipient, payload, attributes, o) ->
  exists r, e = Call (sendMessage c recipient payload attributes o) r.
Proof.
  destruct e as [R q r|ms]; [|discriminate].
  destruct q; try discriminate. cbn. intros H. injection H as -> -> -> -> ->.
  now exists r.
Qed.

(** X8. A run of the TypeScript flow that calls [sendMessage] has made
    exactly five calls before, each of which returned: it loaded the
    artifact named by [GREET_ARTIFACT] (or [../deps/Greet.json] when that
    is not set), deployed it with the greeting [gm] through the wallet of
    the second endpoint, waited for the deployment, asked the deployed
    contract for its address and the second endpoint for its chain id. The
    message goes through the wallet of the first endpoint to the interop
    center, its recipient is [encodeEvmV1Address] of that chain id and
    that address, its payload the encoded call of [setGreeting], it has no
    attributes and carries the fixed gas overrides; nothing later in the
    run is another [sendMessage]. *)
Theorem message_goes_to_the_deployed_greeter
    (fuel : nat) (host : Host.t) (h : Trace) (e : Event)
    (c : Contract.t) (recipient payload : string) (attributes : list string)
    (o : Overrides.t) :
  let run := InteropTest.main fuel host h in
  In e (emitted run) ->
  send_args e = Some (c, recipient, payload, attributes, o) ->
  exists artifact walletA walletB greet greetAddress chainId post,
    emitted run =
      [Call (loadArtifact (match Host.process_env host "GREET_ARTIFACT" with
                           | Some v => v
                           | None => "../deps/Greet.json"
                           end)) (Returned artifact);
       Call (deploy walletB artifact "gm") (Returned greet);
       Call (waitForDeployment greet) (Returned tt);
       Call (getAddress greet) (Returned greetAddress);
       Call (getNetwork (Wallet.provider walletB)) (Returned chainId);
       e] ++ post /\
    Forall (fun e' => send_args e' = None) post /\
    Host.process_env host "PRIVATE_KEY" = Some (Wallet.privateKey walletA) /\
    Host.process_env host "PRIVATE_KEY" = Some (Wallet.privateKey walletB) /\
    Host.process_env host "L2_RPC_URL" = Some (Provider.rpcUrl (Wallet.provider walletA)) /\
    Host.process_env host "L2_RPC_URL_SECOND"
    = Some (Provider.rpcUrl (Wallet.provider walletB)) /\
    c = Contract.mk InteropTest.L2_INTEROP_CENTER_ADDRESS (ViaWallet walletA) /\
    outcome (InteropTest.encodeEvmV1Address chainId greetAddress host [])
    = Fulfilled recipient /\
    Ethers.encodeFunctionData (Host.ethers host)
      "function setGreeting(string)" "setGreeting" ["hello from source"]
    = Returned payload /\
    attributes = [] /\
    o = Overrides.mk 1000000 1000000000 0.
Proof.
  cbv zeta. intros Hin Hargs.
  destruct (main_send_shape fuel host h)
    as [Hnone | (artifact & walletA & walletB & greet & greetAddress & chainId &
                 recipient0 & payload0 & r & post & Ht & Hpost & Hkey & Hkey' &
                 Hurl & Hurl' & Hrecipient & Hpayload)].
  { rewrite Forall_forall in Hnone. rewrite (Hnone _ Hin) in Hargs. discriminate Hargs. }
  rewrite Ht in Hin |- *.
  assert (He : e = Call (sendMessage
                  (Contract.mk InteropTest.L2_INTEROP_CENTER_ADDRESS (ViaWallet walletA))
                  recipient0 payload0 [] (Overrides.mk 1000000 1000000000 0)) r).
  { cbn [app In] in Hin.
    repeat (destruct Hin as [<- | Hin]; [try discriminate Hargs|]); [reflexivity|].
    rewrite Forall_forall in Hpost. rewrite (Hpost _ Hin) in Hargs. discriminate Hargs. }
  subst e. cbn in Hargs. injection Hargs as <- <- <- <- <-.
  exists artifact, walletA, walletB, greet, greetAddress, chainId, post.
  repeat split; assumption || reflexivity.
Qed.

Lemma message_goes_to_the_deployed_greeter_witness :
  exists (walletA : Wallet.t) (post : Trace),
    Host.process_env happy_host "L2_RPC_URL" = Some (Provider.rpcUrl (Wallet.provider walletA)) /\
    Contract.mk InteropTest.L2_INTEROP_CENTER_ADDRESS (ViaWallet demo_wallet)
    = Contract.mk InteropTest.L2_INTEROP_CENTER_ADDRESS (ViaWallet walletA) /\
    List.length (emitted (InteropTest.main 3 happy_host [])) = (6 + List.length post)%nat.
Proof.
  destruct (message_goes_to_the_deployed_greeter 3 happy_host []
              (nth 5 (emitted (InteropTest.main 3 happy_host [])) (Sleep 0))
              (Contract.mk InteropTest.L2_INTEROP_CENTER_ADDRESS (ViaWallet demo_wallet))
              "0x000100000000010e" "0xa4136862" [] (Overrides.mk 1000000 1000000000 0))
    as (artifact & walletA & walletB & greet & greetAddress & chainId & post & Ht & _ &
        _ & _ & Hurl & _ & Hc & _).
  - vm_compute. do 5 right. left. reflexivity.
  - vm_compute. reflexivity.
  - exists walletA, post. split; [exact Hurl|]. split; [exact Hc|].
    rewrite Ht. reflexivity.
Defined.

(** ** The bundle is executed after the root matched *)

Lemma Forall_idle_rounds {R : Type} (P : Event -> Prop) (q : Request R) interval replies :
  (forall r, P (Call q r)) -> P (Sleep interval) ->
  Forall P (idle_rounds q interval replies).
Proof.
  intros Hq Hs. induction replies as [|r rs IH]; [constructor|].
  cbn [idle_rounds flat_map app]. repeat constructor; auto.
Qed.

(** The step [waitUntilRootBecomesAvailable]: the flow goes on only
    after a read of a set root that equals the expected one up to case. *)
Lemma runs_root_wait {B : Type} (P : Event -> Prop) provider chainId batchNumber
    expectedRoot (k : unit -> Async B) host h0 E (Q : Outcome B -> Trace -> Prop) :
  (forall r, P (Call (interopRoots
                        (Contract.mk InteropTest.L2_INTEROP_ROOT_STORAGE (ViaProvider provider))
                        chainId batchNumber) r)) ->
  P (Sleep InteropTest.POLL_INTERVAL) ->
  (forall t root,
     Forall P t ->
     InteropTest.root_is_set (Some root) = true ->
     toLowerCase root = toLowerCase expectedRoot ->
     runs (k tt) host h0
       (E ++ t ++ [Call (interopRoots
                           (Contract.mk InteropTest.L2_INTEROP_ROOT_STORAGE
                              (ViaProvider provider))
                           chainId batchNumber) (Returned root)]) Q) ->
  (forall e t, Forall P t -> Q (Rejected e) (E ++ t)) ->
  runs (bind (InteropTest.waitUntilRootBecomesAvailable provider chainId batchNumber
                expectedRoot) k) host h0 E Q.
Proof.
  intros Hq Hs Hgo Hrej. unfold runs, bind, outcome, emitted.
  unfold InteropTest.waitUntilRootBecomesAvailable.
  rewrite root_loop_is_poll_loop.
  set (q := interopRoots _ chainId batchNumber) in *.
  destruct (poll_loop_shape q (root_decide expectedRoot) InteropTest.POLL_INTERVAL
              InteropTest.root_timeout InteropTest.initial_retries host (h0 ++ E))
    as (rs & _ & [[_ Hrun] | (r & o & _ & Hd & _ & Hrun)]); rewrite Hrun; cbn [fst snd].
  - apply Hrej. now apply Forall_idle_rounds.
  - destruct r as [root|err]; [|discriminate Hd]. unfold root_decide in Hd.
    destruct (InteropTest.root_is_set (Some root)) eqn:Hset; [|discriminate Hd].
    destruct (String.eqb_spec (toLowerCase root) (toLowerCase expectedRoot)) as [Heq|Hne];
      injection Hd as <-.
    + specialize (Hgo (idle_rounds q InteropTest.POLL_INTERVAL rs) root
                      (Forall_idle_rounds P q _ rs Hq Hs) Hset Heq).
      unfold runs, outcome, emitted in Hgo. rewrite <- !app_assoc in *.
      destruct (k tt host _) as [o t2]. cbn [fst snd] in *.
      rewrite <- ?app_assoc in *. exact Hgo.
    + apply Hrej. apply Forall_app. split; [now apply Forall_idle_rounds|].
      repeat constructor. apply Hq.
Qed.

Ltac all_events :=
  repeat first
    [ assumption
    | reflexivity
    | apply Forall_nil
    | apply Forall_cons
    | apply Forall_app; split ].

Ltac exec_leaf :=
  cbn [app]; rewrite <- ?app_assoc; cbn [app];
  left; split; [all_events | discriminate].

Lemma main_exec_shape fuel host h :
  exec_shape host (outcome (InteropTest.main fuel host h))
    (emitted (InteropTest.main fuel host h)).
Proof.
  apply (runs_start (InteropTest.main fuel) host h (exec_shape host)).
  unfold InteropTest.main, InteropTest.requireEnv, InteropTest.encodeEvmV1Address,
    InteropTest.deployGreetContract, InteropTest.newProvider, InteropTest.newWallet, getenv.
  runs_to_proof_wait exec_leaf.
  apply (runs_skip (fun e => executed e = None)); [quiet | | intros; exec_leaf | intros; exec_leaf].
  intros [] waited Hwaited.
  apply runs_bind, runs_await. intros [[logProof|]|err]; runs_simpl;
    [| apply runs_throw; exec_leaf | exec_leaf].
  destruct (InteropTest.select_l2ToL1Log _ (LogProof.id logProof)) as [entry|] eqn:Hsel;
    [| apply runs_throw; exec_leaf].
  apply runs_bind, runs_await. intros [proofChainId|err]; runs_simpl; [| exec_leaf].
  apply runs_bind, runs_await. intros [sourceChainId|err]; runs_simpl; [| exec_leaf].
  apply (runs_root_wait (fun e => executed e = None)); [reflexivity | reflexivity | | intros; exec_leaf].
  intros rounds root Hrounds Hset Hroot.
  apply runs_bind, runs_await. intros r.
  assert (Hshape : forall o post, after_exec o r post ->
            exec_shape host o
              (Call (loadArtifact (greet_artifact_path host)) (Returned a)
               :: Call (deploy (Wallet.mk s (Provider.mk s1 (Ethers.defaultPollingInterval
                                                               (Host.ethers host))) a1)
                          a "gm") (Returned a2)
               :: Call (waitForDeployment a2) (Returned a3)
               :: Call (getAddress a2) (Returned a4)
               :: Call (getNetwork (Provider.mk s1 (Ethers.defaultPollingInterval
                                                      (Host.ethers host)))) (Returned a5)
               :: Call (sendMessage
                          (Contract.mk InteropTest.L2_INTEROP_CENTER_ADDRESS
                             (ViaWallet (Wallet.mk s (Provider.mk s0
                                (Ethers.defaultPollingInterval (Host.ethers host))) a0)))
                          a11 a12 [] InteropTest.overrides) (Returned a13)
               :: Call (wait a13) (Returned (Some t))
               :: waited ++
               Call (getLogProof (Provider.mk s0 (Ethers.defaultPollingInterval
                                                    (Host.ethers host)))
                       (Receipt.hash t) 0) (Returned (Some logProof))
               :: Call (getNetwork (Provider.mk s0 (Ethers.defaultPollingInterval
                                                      (Host.ethers host))))
                       (Returned proofChainId)
               :: Call (getNetwork (Provider.mk s0 (Ethers.defaultPollingInterval
                                                      (Host.ethers host))))
                       (Returned sourceChainId)
               :: rounds ++
               Call (interopRoots
                       (Contract.mk InteropTest.L2_INTEROP_ROOT_STORAGE
                          (ViaProvider (Provider.mk s1 (Ethers.defaultPollingInterval
                                                          (Host.ethers host)))))
                       sourceChainId (LogProof.batch_number logProof)) (Returned root)
               :: Call (executeBundle
                          (Contract.mk InteropTest.L2_INTEROP_HANDLER_ADDRESS
                             (ViaWallet (Wallet.mk s (Provider.mk s1
                                (Ethers.defaultPollingInterval (Host.ethers host))) a1)))
                          a15
                          (InclusionProof.mk proofChainId (LogProof.batch_number logProof)
                             (LogProof.id logProof)
                             (Message.mk (Receipt.index t) (L2ToL1Log.sender entry)
                                (Hex (L2ToL1Log.data entry)))
                             (LogProof.proof logProof))
                          InteropTest.overrides) r
               :: post)).
  { intros o post Hafter. right.
    match goal with
    | |- context [?x0 :: ?x1 :: ?x2 :: ?x3 :: ?x4 :: ?x5 :: ?x6 :: waited
                  ++ ?m1 :: ?m2 :: ?m3 :: rounds ++ _ :: _ :: post] =>
        exists (x0 :: x1 :: x2 :: x3 :: x4 :: x5 :: x6 :: waited
                ++ m1 :: m2 :: m3 :: rounds)
    end.
    exists (Wallet.mk s (Provider.mk s1 (Ethers.defaultPollingInterval (Host.ethers host))) a1),
      (Provider.mk s0 (Ethers.defaultPollingInterval (Host.ethers host))),
      a13, t, t0, a15, logProof, sourceChainId, root.
    eexists _, r, post.
    split; [cbn [app]; rewrite <- ?app_assoc; reflexivity|].
    split; [all_events|].
    split; [exact Heqo0|]. split; [exact Heqo1|].
    split; [in_trace|].
    split; [do 7 right; apply in_or_app; right; left; reflexivity|].
    split; [do 7 right; apply in_or_app; right; right; right; left; reflexivity|].
    repeat split; assumption. }
  destruct r as [execTx|err]; runs_simpl.
  - apply runs_bind, runs_await. intros r2.
    destruct r2 as [execReceipt|err]; runs_simpl; [apply runs_ret|];
      cbn [app]; rewrite <- ?app_assoc; cbn [app]; apply Hshape;
      eexists; split; reflexivity.
  - cbn [app]; rewrite <- ?app_assoc; cbn [app]. apply Hshape. now split.
Qed.

Lemma after_exec_no_exec o r post :
  after_exec o r post -> Forall (fun e => executed e = None) post.
Proof.
  destruct r as [execTx|err]; cbn [after_exec].
  - intros (r2 & -> & _). repeat constructor.
  - intros [-> _]. constructor.
Qed.

Lemma not_executed l :
  Forall (fun e => executed e = None) l -> Forall (fun e => is_executed e = false) l.
Proof. apply Forall_impl. intros e He. unfold is_executed. now rewrite He. Qed.

(** X9. In every run of the TypeScript flow, the event right before a
    call of [executeBundle] is a read of the root storage of the second
    endpoint that returned a set root equal, up to letter case, to the root
    of a proof the first endpoint handed back for the sent transaction; the
    root was read for a chain id the first endpoint reported and for the
    proof's batch. The call goes through the wallet of the second endpoint
    to the interop handler, with the fixed gas overrides; its bytes are the
    encoding, by [bundleType], of the bundle of the [InteropBundleSent]
    event found in the receipt of the sent transaction, and its proof
    carries the batch number and the path of that proof. *)
Theorem bundle_is_executed_after_the_root_matched
    (fuel : nat) (host : Host.t) (h : Trace) (j : nat) (e : Event)
    (handler : Contract.t) (bundleBytes : list Byte.byte) (proof : InclusionProof.t)
    (o : Overrides.t) (r : Reply Tx.t) :
  let run := InteropTest.main fuel host h in
  nth_error (emitted run) j = Some e ->
  executed e = Some (handler, bundleBytes, proof, o, r) ->
  exists i walletB providerA sendTx sendReceipt bundleEvent logProof chainId root,
    j = S i /\
    nth_error (emitted run) i
    = Some (Call (interopRoots
                    (Contract.mk InteropTest.L2_INTEROP_ROOT_STORAGE
                       (ViaProvider (Wallet.provider walletB)))
                    chainId (LogProof.batch_number logProof)) (Returned root)) /\
    InteropTest.root_is_set (Some root) = true /\
    toLowerCase root = toLowerCase (LogProof.root logProof) /\
    handler = Contract.mk InteropTest.L2_INTEROP_HANDLER_ADDRESS (ViaWallet walletB) /\
    o = Overrides.mk 1000000 1000000000 0 /\
    Host.process_env host "L2_RPC_URL" = Some (Provider.rpcUrl providerA) /\
    Host.process_env host "L2_RPC_URL_SECOND"
    = Some (Provider.rpcUrl (Wallet.provider walletB)) /\
    In (Call (wait sendTx) (Returned (Some sendReceipt))) (firstn i (emitted run)) /\
    In (Call (getLogProof providerA (Receipt.hash sendReceipt) 0)
             (Returned (Some logProof))) (firstn i (emitted run)) /\
    In (Call (getNetwork providerA) (Returned chainId)) (firstn i (emitted run)) /\
    InteropTest.find_bundleEvent (Host.ethers host) (Receipt.logs sendReceipt)
    = Some bundleEvent /\
    Ethers.abiEncode (Host.ethers host) InteropTest.bundleType
      (LogDescription.interopBundle bundleEvent) = Returned bundleBytes /\
    InclusionProof.l1BatchNumber proof = LogProof.batch_number logProof /\
    InclusionProof.proof proof = LogProof.proof logProof.
Proof.
  cbv zeta. intros Hnth He.
  assert (Hexec : is_executed e = true) by (unfold is_executed; now rewrite He).
  destruct (main_exec_shape fuel host h)
    as [[Hnone _] | (pre & walletB & providerA & sendTx & sendReceipt & bundleEvent &
                     bundleBytes0 & logProof & chainId & root & proof0 & r0 & post &
                     Ht & Hpre & Hurl & Hurl' & Hwait & Hproof & Hnet & Hfind & Henc &
                     Hset & Hroot & Hbatch & Hpath & Hafter)].
  { apply nth_error_In in Hnth. rewrite Forall_forall in Hnone.
    rewrite (Hnone _ Hnth) in He. discriminate He. }
  rewrite Ht in *.
  remember (Call (interopRoots
                    (Contract.mk InteropTest.L2_INTEROP_ROOT_STORAGE
                       (ViaProvider (Wallet.provider walletB)))
                    chainId (LogProof.batch_number logProof)) (Returned root))
    as e_root eqn:Hroot_def.
  remember (Call (executeBundle
                    (Contract.mk InteropTest.L2_INTEROP_HANDLER_ADDRESS (ViaWallet walletB))
                    bundleBytes0 proof0 (Overrides.mk 1000000 1000000000 0)) r0)
    as e_exec eqn:Hexec_def.
  change (pre ++ e_root :: e_exec :: post) with (pre ++ [e_root] ++ e_exec :: post) in *.
  rewrite app_assoc in Hnth.
  destruct (nth_error_only is_executed (pre ++ [e_root]) e_exec post j e) as [Hj He'];
    try assumption.
  { apply Forall_app. split; [now apply not_executed|]. subst e_root. repeat constructor. }
  { apply not_executed. eapply after_exec_no_exec, Hafter. }
  rewrite length_app in Hj. cbn [List.length] in Hj.
  subst e e_exec. cbn in He. injection He as <- <- <- <- <-.
  exists (List.length pre), walletB, providerA, sendTx, sendReceipt, bundleEvent,
    logProof, chainId, root.
  rewrite firstn_app, firstn_all, Nat.sub_diag, app_nil_r.
  split; [lia|]. split.
  { rewrite nth_error_app2, Nat.sub_diag by lia. now subst e_root. }
  repeat split; assumption.
Qed.

Lemma in_firstn {A : Type} (n : nat) (l : list A) (x : A) : In x (firstn n l) -> In x l.
Proof.
  intros H. rewrite <- (firstn_skipn n l). apply in_or_app. now left.
Qed.

Lemma bundle_is_executed_after_the_root_matched_witness :
  exists (logProof : LogProof.t) (root : string),
    In (Call (getLogProof demo_provider "0xsend" 0) (Returned (Some logProof)))
       (emitted (InteropTest.main 3 happy_host [])) /\
    InteropTest.root_is_set (Some root) = true /\
    toLowerCase root = toLowerCase (LogProof.root logProof).
Proof.
  destruct (bundle_is_executed_after_the_root_matched 3 happy_host [] 13
              (nth 13 (emitted (InteropTest.main 3 happy_host [])) (Sleep 0))
              (Contract.mk InteropTest.L2_INTEROP_HANDLER_ADDRESS
                 (ViaWallet (Wallet.mk "0xkey" (Provider.mk "http://localhost:3051" 4000)
                               "0xaddr")))
              [Byte.x00]
              (InclusionProof.mk 270 7 0 (Message.mk 3 "0xsender0" (Hex "0xdata0"))
                 ["0x01"; "0x02"]%string)
              (Overrides.mk 1000000 1000000000 0) (Returned (Tx.mk "0xexec")))
    as (i & walletB & providerA & sendTx & sendReceipt & bundleEvent & logProof & chainId &
        root & _ & _ & Hset & Hroot & _ & _ & Hurl & _ & Hwait & Hproof & _).
  - vm_compute. reflexivity.
  - vm_compute. reflexivity.
  - assert (HA : providerA = demo_provider /\ Receipt.hash sendReceipt = "0xsend").
    { apply in_firstn in Hproof.
      remember (Receipt.hash sendReceipt) as hash eqn:Hhash. clear Hhash.
      vm_compute in Hproof.
      repeat (destruct Hproof as [Hproof | Hproof];
              [apply (f_equal proof_query) in Hproof; cbn in Hproof;
               try discriminate Hproof; injection Hproof as <- <-; now split|]).
      destruct Hproof. }
    destruct HA as [-> Hhash]. rewrite Hhash in Hproof.
    exists logProof, root. split; [|now split].
    eapply in_firstn, Hproof.
Defined.

(** X10. A run of the TypeScript flow ends in success exactly when its
    last two events are a call of [executeBundle] that returned a
    transaction and the wait for that transaction, which returned. What
    the wait returned is not looked at: unlike for the sent message, a
    null receipt of the executing transaction is no error. *)
Theorem run_succeeds_exactly_when_the_bundle_went_out
    (fuel : nat) (host : Host.t) (h : Trace) :
  let run := InteropTest.main fuel host h in
  outcome run = Fulfilled tt <->
  exists pre handler bundleBytes proof o execTx execReceipt,
    emitted run
    = pre ++ [Call (executeBundle handler bundleBytes proof o) (Returned execTx);
              Call (wait execTx) (Returned execReceipt)].
Proof.
  cbv zeta.
  destruct (main_exec_shape fuel host h)
    as [[Hnone Hfail] | (pre & walletB & providerA & sendTx & sendReceipt & bundleEvent &
                         bundleBytes & logProof & chainId & root & proof & r & post &
                         Ht & Hpre & _ & _ & _ & _ & _ & _ & _ & _ & _ & _ & _ & Hafter)].
  { split; [intros Ho; now destruct Hfail|].
    intros (pre & handler & bundleBytes & proof & o & execTx & execReceipt & Ht).
    rewrite Ht in Hnone. apply Forall_app in Hnone as [_ Hnone].
    apply Forall_inv in Hnone. discriminate Hnone. }
  rewrite Ht. split.
  - intros Ho. destruct r as [execTx|err]; cbn [after_exec] in Hafter.
    + destruct Hafter as (r2 & -> & Hout). rewrite Ho in Hout.
      destruct r2 as [execReceipt|err]; [|discriminate Hout].
      eexists (pre ++ [_]), _, _, _, _, execTx, execReceipt.
      rewrite <- app_assoc. reflexivity.
    + destruct Hafter as [_ Hout]. rewrite Ho in Hout. discriminate Hout.
  - intros (pre' & handler & bundleBytes' & proof' & o & execTx & execReceipt & Heq).
    destruct r as [execTx0|err]; cbn [after_exec] in Hafter.
    + destruct Hafter as (r2 & -> & ->).
      change (pre ++ ?a :: ?b :: [?c]) with (pre ++ [a; b] ++ [c]) in Heq.
      change (pre' ++ [?a; ?b]) with (pre' ++ [a] ++ [b]) in Heq.
      rewrite !app_assoc in Heq. apply app_inj_tail in Heq as [_ Heq].
      apply (f_equal receipt_of) in Heq. cbn in Heq.
      injection Heq as _ ->. reflexivity.
    + destruct Hafter as [-> _].
      change (pre ++ ?a :: [?b]) with (pre ++ [a] ++ [b]) in Heq.
      change (pre' ++ [?a; ?b]) with (pre' ++ [a] ++ [b]) in Heq.
      rewrite !app_assoc in Heq. apply app_inj_tail in Heq as [_ Heq].
      apply (f_equal receipt_of) in Heq. cbn in Heq. discriminate Heq.
Qed.

Lemma run_succeeds_exactly_when_the_bundle_went_out_witness :
  outcome (InteropTest.main 3 happy_host []) = Fulfilled tt.
Proof.
  apply (proj2 (run_succeeds_exactly_when_the_bundle_went_out 3 happy_host [])).
  exists (firstn 13 (emitted (InteropTest.main 3 happy_host []))).
  do 6 eexists. vm_compute. reflexivity.
Defined.

(** ** Answers that are missing *)

Lemma main_unmined_shape fuel host h :
  unmined_shape (outcome (InteropTest.main fuel host h))
    (emitted (InteropTest.main fuel host h)).
Proof.
  apply (runs_start (InteropTest.main fuel) host h unmined_shape).
  unfold InteropTest.main, InteropTest.requireEnv, InteropTest.encodeEvmV1Address,
    InteropTest.deployGreetContract, InteropTest.newProvider, InteropTest.newWallet, getenv.
  repeat (runs_simpl;
          lazymatch goal with
          | |- runs (bind (lift (fun e => Returned (InteropTest.find_bundleEvent e _))) _)
                 _ _ _ _ => fail
          | |- _ => runs_step sent_leaf
          end).
  eapply (runs_emits (fun e => is_sendMessage e = false)); [quiet|].
  intros o t' Ht'. right.
  eapply (ex_intro _ [_; _; _; _; _]). do 3 eexists.
  split; [reflexivity|].
  split; [repeat constructor|].
  split; [reflexivity|].
  split; [constructor; [reflexivity | exact Ht']|].
  exact I.
Qed.

(** X11. In a run of the TypeScript flow, when the wait for the
    transaction that [sendMessage] returned hands back no receipt, the run
    ends right there with the error "Missing receipt for sendMessage
    transaction": no log is read, no proof asked for. *)
Theorem missing_receipt_is_fatal
    (fuel : nat) (host : Host.t) (h : Trace) (j : nat) (e_send e_wait : Event)
    (tx tx' : Tx.t) :
  let run := InteropTest.main fuel host h in
  nth_error (emitted run) j = Some e_send ->
  sent_tx e_send = Some tx ->
  nth_error (emitted run) (S j) = Some e_wait ->
  receipt_of e_wait = Some (tx', Returned None) ->
  tx' = tx /\
  outcome run = Rejected (mkError "Missing receipt for sendMessage transaction") /\
  List.length (emitted run) = S (S j).
Proof.
  cbv zeta. intros Hsend Htx Hwait Hreceipt.
  destruct (main_unmined_shape fuel host h)
    as [Hnone | (pre & e0 & tail & tx0 & Ht & Hpre & Htx0 & Htail & Hafter)].
  - apply nth_error_In in Hsend. rewrite Forall_forall in Hnone.
    rewrite (Hnone _ Hsend) in Htx. discriminate Htx.
  - rewrite Ht in *.
    destruct (nth_error_only is_sendMessage pre e0 tail j e_send Hpre Htail Hsend
                (sent_tx_is_sendMessage _ _ Htx)) as [-> ->].
    rewrite Htx0 in Htx. injection Htx as ->.
    rewrite nth_error_app2 in Hwait by lia.
    replace (S (List.length pre) - List.length pre)%nat with 1%nat in Hwait by lia.
    destruct tail as [|e_next post]; [discriminate Hwait|].
    cbn in Hwait. injection Hwait as ->.
    cbn [after_send_unmined] in Hafter. rewrite Hreceipt in Hafter.
    destruct Hafter as (-> & -> & ->).
    repeat split. rewrite length_app. cbn. lia.
Qed.

Lemma missing_receipt_is_fatal_witness :
  let run := InteropTest.main 3 unmined_host [] in
  outcome run = Rejected (mkError "Missing receipt for sendMessage transaction") /\
  List.length (emitted run) = 7%nat.
Proof.
  cbv zeta.
  destruct (missing_receipt_is_fatal 3 unmined_host [] 5
              (nth 5 (emitted (InteropTest.main 3 unmined_host [])) (Sleep 0))
              (nth 6 (emitted (InteropTest.main 3 unmined_host [])) (Sleep 0))
              (Tx.mk "0xsend") (Tx.mk "0xsend"))
    as (_ & Hout & Hlen); try (vm_compute; reflexivity).
  split; assumption.
Defined.

Lemma retrieval_shape_intro missing o E waited e1 e2 post logProof0 r :
  Forall before_proof E ->
  Forall before_proof waited ->
  obtained_proof e1 = Some logProof0 ->
  proof_reply e2 = Some r ->
  Forall (fun e => proof_reply e = None) post ->
  after_retrieval missing o r post ->
  retrieval_shape missing o (E ++ waited ++ e1 :: e2 :: post).
Proof.
  intros HE Hwaited He1 He2 Hpost Hafter. right.
  exists (E ++ waited), e1, e2, post, logProof0, r.
  split; [now rewrite <- app_assoc|].
  split; [apply Forall_app; now split|].
  repeat split; assumption.
Qed.

(** Brings the trace of a goal into the form [E ++ waited ++ rest], with
    [E] the events before the wait for the proof. *)
Ltac split_at_wait waited :=
  cbn [app]; rewrite <- ?app_assoc; cbn [app];
  lazymatch goal with
  | |- retrieval_shape ?m ?o (?x0 :: ?x1 :: ?x2 :: ?x3 :: ?x4 :: ?x5 :: ?x6 :: ?x7 :: ?x8
                              :: waited ++ ?rest) =>
      change (retrieval_shape m o
                ([x0; x1; x2; x3; x4; x5; x6; x7; x8] ++ waited ++ rest))
  | |- retrieval_shape ?m ?o (?x0 :: ?x1 :: ?x2 :: ?x3 :: ?x4 :: ?x5 :: ?x6
                              :: waited ++ ?rest) =>
      change (retrieval_shape m o ([x0; x1; x2; x3; x4; x5; x6] ++ waited ++ rest))
  end.

Ltac retrieval_leaf waited :=
  split_at_wait waited;
  eapply retrieval_shape_intro;
  [ repeat constructor | eassumption | eassumption | reflexivity | | ].

Lemma main_retrieval_shape fuel host h :
  retrieval_shape InteropTest.missing_proof (outcome (InteropTest.main fuel host h))
    (emitted (InteropTest.main fuel host h)).
Proof.
  apply (runs_start (InteropTest.main fuel) host h
           (retrieval_shape InteropTest.missing_proof)).
  unfold InteropTest.main, InteropTest.requireEnv, InteropTest.encodeEvmV1Address,
    InteropTest.deployGreetContract, InteropTest.newProvider, InteropTest.newWallet, getenv.
  runs_to_proof_wait quiet_leaf.
  apply runs_proof_obtained.
  - intros waited e1 logProof0 Hwaited He1.
    apply runs_bind, runs_await. intros [[logProof|]|err]; runs_simpl.
    + eapply (runs_emits (fun e => proof_reply e = None)).
      * destruct (InteropTest.select_l2ToL1Log _ (LogProof.id logProof)); quiet.
      * intros o t' Ht'. retrieval_leaf waited; [exact Ht' | exact I].
    + apply runs_throw. retrieval_leaf waited; [constructor | now split].
    + retrieval_leaf waited; [constructor | now split].
  - intros err waited Hwaited. left.
    apply Forall_app. split; [repeat constructor | exact Hwaited].
  - intros waited Hwaited. left.
    apply Forall_app. split; [repeat constructor | exact Hwaited].
Qed.

Lemma Part000_main_retrieval_shape fuel host h :
  retrieval_shape (Part000.type_error "batch_number") (outcome (Part000.main fuel host h))
    (emitted (Part000.main fuel host h)).
Proof.
  apply (runs_start (Part000.main fuel) host h
           (retrieval_shape (Part000.type_error "batch_number"))).
  unfold Part000.main, Part000.requireEnv,
    Part000.deployGreetContract, Part000.newProvider, Part000.newWallet, getenv.
  runs_to_proof_wait quiet_leaf.
  rewrite Part000_waitForL2ToL1LogProof.
  apply runs_proof_obtained.
  - intros waited e1 logProof0 Hwaited He1.
    apply runs_bind, runs_await. intros [[logProof|]|err]; runs_simpl.
    + eapply (runs_emits (fun e => proof_reply e = None)); [quiet|].
      intros o t' Ht'. retrieval_leaf waited; [exact Ht' | exact I].
    + apply runs_throw. retrieval_leaf waited; [constructor | now split].
    + retrieval_leaf waited; [constructor | now split].
  - intros err waited Hwaited. left.
    apply Forall_app. split; [repeat constructor | exact Hwaited].
  - intros waited Hwaited. left.
    apply Forall_app. split; [repeat constructor | exact Hwaited].
Qed.

(** What a run with that shape does when the query right after the one
    that ended the wait hands back no proof. *)
Lemma retrieval_without_proof missing o t i e1 e2 logProof0 r :
  retrieval_shape missing o t ->
  nth_error t i = Some e1 ->
  obtained_proof e1 = Some logProof0 ->
  nth_error t (S i) = Some e2 ->
  proof_reply e2 = Some r ->
  (r = Returned None -> o = Rejected missing /\ List.length t = S (S i)) /\
  (forall err, r = Thrown err -> o = Rejected err /\ List.length t = S (S i)).
Proof.
  intros Hshape H1 Ho1 H2 Hr2.
  destruct Hshape
    as [Hnone | (pre & a1 & a2 & post & lp0 & r0 & Ht & Hpre & Ha1 & Ha2 & Hpost & Hafter)].
  { apply nth_error_In in H1. rewrite Forall_forall in Hnone.
    destruct (Hnone _ H1) as [Hn _]. rewrite Hn in Ho1. discriminate Ho1. }
  rewrite Ht in *.
  assert (Hlen : List.length (pre ++ a1 :: a2 :: post)
                 = S (S (List.length pre + List.length post))).
  { rewrite length_app. cbn. lia. }
  assert (Hi : i = List.length pre).
  { destruct (Nat.lt_trichotomy i (List.length pre)) as [Hlt | [Heq | Hgt]]; [|exact Heq|].
    - rewrite nth_error_app1 in H1 by exact Hlt.
      apply nth_error_In in H1. rewrite Forall_forall in Hpre.
      destruct (Hpre _ H1) as [Hn _]. rewrite Hn in Ho1. discriminate Ho1.
    - rewrite nth_error_app2 in H2 by lia.
      replace (S i - List.length pre)%nat with (S (S (i - S (List.length pre)))) in H2 by lia.
      cbn in H2. apply nth_error_In in H2. rewrite Forall_forall in Hpost.
      rewrite (Hpost _ H2) in Hr2. discriminate Hr2. }
  subst i.
  rewrite nth_error_app2 in H2 by lia.
  replace (S (List.length pre) - List.length pre)%nat with 1%nat in H2 by lia.
  cbn in H2. injection H2 as ->. rewrite Ha2 in Hr2. injection Hr2 as ->.
  split.
  - intros ->. cbn [after_retrieval] in Hafter. destruct Hafter as [-> ->].
    split; [reflexivity|]. rewrite Hlen. cbn. lia.
  - intros err ->. cbn [after_retrieval] in Hafter. destruct Hafter as [-> ->].
    split; [reflexivity|]. rewrite Hlen. cbn. lia.
Qed.

(** X12. The wait for the proof drops the proof it saw, and the
    TypeScript flow asks for it once more. When this second query, the one
    right after the query that ended the wait, hands back null, the run
    ends there with the error "Missing log proof for sendMessage
    transaction"; when it throws, the run ends with the thrown error. *)
Theorem missing_proof_is_fatal
    (fuel : nat) (host : Host.t) (h : Trace) (i : nat) (e1 e2 : Event)
    (logProof0 : LogProof.t) (r : Reply (option LogProof.t)) :
  let run := InteropTest.main fuel host h in
  nth_error (emitted run) i = Some e1 ->
  obtained_proof e1 = Some logProof0 ->
  nth_error (emitted run) (S i) = Some e2 ->
  proof_reply e2 = Some r ->
  (r = Returned None ->
   outcome run = Rejected (mkError "Missing log proof for sendMessage transaction") /\
   List.length (emitted run) = S (S i)) /\
  (forall err, r = Thrown err ->
   outcome run = Rejected err /\ List.length (emitted run) = S (S i)).
Proof.
  cbv zeta. intros H1 Ho1 H2 Hr2.
  exact (retrieval_without_proof _ _ _ i e1 e2 logProof0 r
           (main_retrieval_shape fuel host h) H1 Ho1 H2 Hr2).
Qed.

Lemma missing_proof_is_fatal_witness :
  let run := InteropTest.main 3 vanishing_proof_host [] in
  outcome run = Rejected (mkError "Missing log proof for sendMessage transaction") /\
  List.length (emitted run) = 10%nat.
Proof.
  cbv zeta.
  destruct (missing_proof_is_fatal 3 vanishing_proof_host [] 8
              (nth 8 (emitted (InteropTest.main 3 vanishing_proof_host [])) (Sleep 0))
              (nth 9 (emitted (InteropTest.main 3 vanishing_proof_host [])) (Sleep 0))
              demo_proof (Returned None))
    as [Hnull _]; try (vm_compute; reflexivity).
  exact (Hnull eq_refl).
Defined.

(** X19. The JavaScript flow asks for the proof once more after the wait
    for it, and reads the batch number off the answer without checking it.
    When this query, the one right after the query that ended the wait,
    hands back null, the run ends there with the error of reading
    [batch_number] of null; when it throws, the run ends with the thrown
    error. *)
Theorem missing_proof_crashes_the_run
    (fuel : nat) (host : Host.t) (h : Trace) (i : nat) (e1 e2 : Event)
    (logProof0 : LogProof.t) (r : Reply (option LogProof.t)) :
  let run := Part000.main fuel host h in
  nth_error (emitted run) i = Some e1 ->
  obtained_proof e1 = Some logProof0 ->
  nth_error (emitted run) (S i) = Some e2 ->
  proof_reply e2 = Some r ->
  (r = Returned None ->
   outcome run
   = Rejected (mkError "Cannot read properties of null (reading 'batch_number')") /\
   List.length (emitted run) = S (S i)) /\
  (forall err, r = Thrown err ->
   outcome run = Rejected err /\ List.length (emitted run) = S (S i)).
Proof.
  cbv zeta. intros H1 Ho1 H2 Hr2.
  exact (retrieval_without_proof _ _ _ i e1 e2 logProof0 r
           (Part000_main_retrieval_shape fuel host h) H1 Ho1 H2 Hr2).
Qed.

Lemma missing_proof_crashes_the_run_witness :
  let run := Part000.main 3 late_vanishing_proof_host [] in
  outcome run
  = Rejected (mkError "Cannot read properties of null (reading 'batch_number')") /\
  List.length (emitted run) = 12%nat.
Proof.
  cbv zeta.
  destruct (missing_proof_crashes_the_run 3 late_vanishing_proof_host [] 10
              (nth 10 (emitted (Part000.main 3 late_vanishing_proof_host [])) (Sleep 0))
              (nth 11 (emitted (Part000.main 3 late_vanishing_proof_host [])) (Sleep 0))
              demo_proof (Returned None))
    as [Hnull _]; try (vm_compute; reflexivity).
  exact (Hnull eq_refl).
Defined.

(** ** The verification on the second chain *)

Ltac verify_leaf :=
  cbn [app]; rewrite <- ?app_assoc; cbn [app];
  left; split; [all_events | discriminate].

Lemma Part000_main_verify_shape fuel host h :
  verify_shape host (outcome (Part000.main fuel host h))
    (emitted (Part000.main fuel host h)).
Proof.
  apply (runs_start (Part000.main fuel) host h (verify_shape host)).
  unfold Part000.main, Part000.requireEnv,
    Part000.deployGreetContract, Part000.newProvider, Part000.newWallet, getenv.
  runs_to_proof_wait verify_leaf.
  rewrite Part000_waitForL2ToL1LogProof.
  apply (runs_skip (fun e => verified e = None));
    [quiet | | intros; verify_leaf | intros; verify_leaf].
  intros [] waited Hwaited.
  apply runs_bind, runs_await. intros [[logProof|]|err]; runs_simpl;
    [| apply runs_throw; verify_leaf | verify_leaf].
  apply runs_bind, runs_await. intros [sourceChainId|err]; runs_simpl; [| verify_leaf].
  rewrite Part000_waitUntilRootBecomesAvailable.
  apply (runs_root_wait (fun e => verified e = None));
    [reflexivity | reflexivity | | intros; verify_leaf].
  intros rounds root Hrounds Hset Hroot.
  apply runs_bind, runs_await. intros [verifyChainId|err]; runs_simpl; [| verify_leaf].
  apply runs_bind, runs_lift. runs_simpl.
  apply runs_bind, runs_await. intros r.
  assert (Hshape : verify_shape host (verdict r)
            (Call (deploy (Wallet.mk s (Provider.mk s1 (Ethers.defaultPollingInterval
                                                          (Host.ethers host))) a2)
                     (Host.Greet host) "gm") (Returned a3)
             :: Call (waitForDeployment a3) (Returned a4)
             :: Call (getAddress a3) (Returned a5)
             :: Call (sendMessage
                        (Contract.mk Part000.INTEROP_CENTER_ADDRESS
                           (ViaWallet (Wallet.mk s (Provider.mk s0
                              (Ethers.defaultPollingInterval (Host.ethers host))) a1)))
                        "0x000100000219a614e441CF0795aF14DdB9f7984Da85CD36DB1B8790d"
                        "0xa41368620000000000000000000000000000000000000000000000000000000000000020000000000000000000000000000000000000000000000000000000000000000c68656c6c6f2046726f6d20410000000000000000000000000000000000000000"
                        [] (Overrides.mk 1000000 1000000000 0)) (Returned a6)
             :: Call (wait a6) (Returned (Some t))
             :: Call (getFeeData (Provider.mk s0 (Ethers.defaultPollingInterval
                                                    (Host.ethers host)))) (Returned a9)
             :: Call (estimateGas_sendToL1
                        (Contract.mk Part000.L1_MESSENGER_ADDRESS
                           (ViaWallet (Wallet.mk s (Provider.mk s0
                              (Ethers.defaultPollingInterval (Host.ethers host))) a8)))
                        (Ethers.toUtf8Bytes (Host.ethers host) "hello interop"))
                     (Returned a10)
             :: Call (sendToL1
                        (Contract.mk Part000.L1_MESSENGER_ADDRESS
                           (ViaWallet (Wallet.mk s (Provider.mk s0
                              (Ethers.defaultPollingInterval (Host.ethers host))) a8)))
                        (Ethers.toUtf8Bytes (Host.ethers host) "hello interop")
                        (Overrides.mk (a10 * 2) 1000000000 0)) (Returned a11)
             :: Call (wait a11) (Returned (Some t0))
             :: waited ++
             Call (getLogProof (Provider.mk s0 (Ethers.defaultPollingInterval
                                                  (Host.ethers host)))
                     (Tx.hash a11) 0) (Returned (Some logProof))
             :: Call (getNetwork (Provider.mk s0 (Ethers.defaultPollingInterval
                                                    (Host.ethers host))))
                     (Returned sourceChainId)
             :: rounds ++
             [Call (interopRoots
                      (Contract.mk Part000.L2_INTEROP_ROOT_STORAGE
                         (ViaProvider (Provider.mk s1 (Ethers.defaultPollingInterval
                                                         (Host.ethers host)))))
                      sourceChainId (LogProof.batch_number logProof)) (Returned root);
              Call (getNetwork (Provider.mk s0 (Ethers.defaultPollingInterval
                                                  (Host.ethers host))))
                   (Returned verifyChainId);
              Call (proveL2MessageInclusionShared
                      (Contract.mk Part000.L2_MESSAGE_VERIFICATION_ADDRESS
                         (ViaProvider (Provider.mk s1 (Ethers.defaultPollingInterval
                                                         (Host.ethers host)))))
                      verifyChainId (LogProof.batch_number logProof) (LogProof.id logProof)
                      (Message.mk (Receipt.index t0) (Receipt.from t0)
                         (Bytes (Ethers.toUtf8Bytes (Host.ethers host) "hello interop")))
                      (LogProof.proof logProof)) r])).
  { right.
    match goal with
    | |- context [?x0 :: ?x1 :: ?x2 :: ?x3 :: ?x4 :: ?x5 :: ?x6 :: ?x7 :: ?x8 :: waited
                  ++ ?m1 :: ?m2 :: rounds ++ _] =>
        exists (x0 :: x1 :: x2 :: x3 :: x4 :: x5 :: x6 :: x7 :: x8 :: waited
                ++ m1 :: m2 :: rounds)
    end.
    exists (Provider.mk s0 (Ethers.defaultPollingInterval (Host.ethers host))),
      (Provider.mk s1 (Ethers.defaultPollingInterval (Host.ethers host))),
      (Contract.mk Part000.L1_MESSENGER_ADDRESS
         (ViaWallet (Wallet.mk s (Provider.mk s0
            (Ethers.defaultPollingInterval (Host.ethers host))) a8))),
      (Ethers.toUtf8Bytes (Host.ethers host) "hello interop"),
      (Overrides.mk (a10 * 2) 1000000000 0), a11, t0, logProof, sourceChainId, root,
      verifyChainId, r.
    split; [cbn [app]; rewrite <- ?app_assoc; reflexivity|].
    split; [all_events|].
    split; [exact Heqo0|]. split; [exact Heqo1|].
    split; [in_trace|]. split; [in_trace|].
    split; [do 9 right; apply in_or_app; right; left; reflexivity|].
    split; [do 9 right; apply in_or_app; right; right; left; reflexivity|].
    repeat split; assumption. }
  destruct r as [[|]|err]; runs_simpl; [apply runs_ret | apply runs_throw |];
    cbn [app]; rewrite <- ?app_assoc; cbn [app]; exact Hshape.
Qed.

Lemma not_verified l :
  Forall (fun e => verified e = None) l -> Forall (fun e => is_verified e = false) l.
Proof. apply Forall_impl. intros e He. unfold is_verified. now rewrite He. Qed.

(** X13. In every run of the JavaScript flow a call of
    [proveL2MessageInclusionShared] is the last event, and its reply
    decides the run: success for [true], the error "Message was NOT
    included" for [false], the thrown error otherwise. The two events
    before it are a read of the root storage of the second endpoint that
    returned a set root equal, up to letter case, to the root of the proof,
    and the chain id the first endpoint reported, which the call passes
    on. The call asks the verifier of the second endpoint about the message
    that was sent: the bytes given to [sendToL1], with the sender and the
    index of the receipt of that transaction, and the batch number, the
    index and the path of the proof the first endpoint handed back for that
    transaction. *)
Theorem verification_is_about_the_message_sent
    (fuel : nat) (host : Host.t) (h : Trace) (j : nat) (e : Event)
    (verifier : Contract.t) (chainId batchNumber index : Z) (m : Message.t)
    (proof : list string) (r : Reply bool) :
  let run := Part000.main fuel host h in
  nth_error (emitted run) j = Some e ->
  verified e = Some (verifier, chainId, batchNumber, index, m, proof, r) ->
  exists i providerA providerB messenger data overrides tx receipt logProof
         rootChainId root,
    j = S (S i) /\
    List.length (emitted run) = S j /\
    outcome run = match r with
                  | Returned true => Fulfilled tt
                  | Returned false => Rejected (mkError "Message was NOT included")
                  | Thrown err => Rejected err
                  end /\
    nth_error (emitted run) i
    = Some (Call (interopRoots
                    (Contract.mk Part000.L2_INTEROP_ROOT_STORAGE (ViaProvider providerB))
                    rootChainId batchNumber) (Returned root)) /\
    nth_error (emitted run) (S i) = Some (Call (getNetwork providerA) (Returned chainId)) /\
    InteropTest.root_is_set (Some root) = true /\
    toLowerCase root = toLowerCase (LogProof.root logProof) /\
    verifier = Contract.mk Part000.L2_MESSAGE_VERIFICATION_ADDRESS (ViaProvider providerB) /\
    Host.process_env host "L2_RPC_URL" = Some (Provider.rpcUrl providerA) /\
    Host.process_env host "L2_RPC_URL_SECOND" = Some (Provider.rpcUrl providerB) /\
    In (Call (sendToL1 messenger data overrides) (Returned tx)) (firstn i (emitted run)) /\
    In (Call (wait tx) (Returned (Some receipt))) (firstn i (emitted run)) /\
    In (Call (getLogProof providerA (Tx.hash tx) 0) (Returned (Some logProof)))
       (firstn i (emitted run)) /\
    In (Call (getNetwork providerA) (Returned rootChainId)) (firstn i (emitted run)) /\
    Contract.target messenger = Part000.L1_MESSENGER_ADDRESS /\
    data = Ethers.toUtf8Bytes (Host.ethers host) "hello interop" /\
    m = Message.mk (Receipt.index receipt) (Receipt.from receipt) (Bytes data) /\
    batchNumber = LogProof.batch_number logProof /\
    index = LogProof.id logProof /\
    proof = LogProof.proof logProof.
Proof.
  cbv zeta. intros Hnth He.
  assert (Hv : is_verified e = true) by (unfold is_verified; now rewrite He).
  destruct (Part000_main_verify_shape fuel host h)
    as [[Hnone _] | (pre & providerA & providerB & messenger & data & overrides & tx &
                     receipt & logProof & rootChainId & root & chainId0 & r0 &
                     Ht & Hpre & Hurl & Hurl' & Hsend & Hwait & Hproof & Hnet &
                     Htarget & Hdata & Hset & Hroot & Hout)].
  { apply nth_error_In in Hnth. rewrite Forall_forall in Hnone.
    rewrite (Hnone _ Hnth) in He. discriminate He. }
  rewrite Ht in *. rewrite Hout.
  remember (Call (interopRoots
                    (Contract.mk Part000.L2_INTEROP_ROOT_STORAGE (ViaProvider providerB))
                    rootChainId (LogProof.batch_number logProof)) (Returned root))
    as e_root eqn:Hroot_def.
  remember (Call (getNetwork providerA) (Returned chainId0)) as e_net eqn:Hnet_def.
  remember (Call (proveL2MessageInclusionShared
                    (Contract.mk Part000.L2_MESSAGE_VERIFICATION_ADDRESS
                       (ViaProvider providerB))
                    chainId0 (LogProof.batch_number logProof) (LogProof.id logProof)
                    (Message.mk (Receipt.index receipt) (Receipt.from receipt) (Bytes data))
                    (LogProof.proof logProof)) r0) as e_verify eqn:Hverify_def.
  change (pre ++ [e_root; e_net; e_verify]) with (pre ++ [e_root; e_net] ++ [e_verify]) in *.
  rewrite app_assoc in Hnth.
  destruct (nth_error_only is_verified (pre ++ [e_root; e_net]) e_verify [] j e)
    as [Hj He']; try assumption.
  { apply Forall_app. split; [now apply not_verified|]. subst e_root e_net.
    repeat constructor. }
  { constructor. }
  rewrite length_app in Hj. cbn [List.length] in Hj.
  subst e e_verify. cbn in He. injection He as <- <- <- <- <- <- <-.
  exists (List.length pre), providerA, providerB, messenger, data, overrides, tx, receipt,
    logProof, rootChainId, root.
  rewrite firstn_app, firstn_all, Nat.sub_diag, app_nil_r.
  split; [lia|]. split; [rewrite !length_app; cbn; lia|].
  split; [reflexivity|]. split.
  { rewrite nth_error_app2, Nat.sub_diag by lia. now subst e_root. }
  split.
  { rewrite nth_error_app2 by lia.
    replace (S (List.length pre) - List.length pre)%nat with 1%nat by lia.
    now subst e_net. }
  repeat split; assumption.
Qed.

Lemma verification_is_about_the_message_sent_witness :
  let run := Part000.main 3 happy_host [] in
  List.length (emitted run) = 16%nat /\ outcome run = Fulfilled tt.
Proof.
  cbv zeta.
  destruct (verification_is_about_the_message_sent 3 happy_host [] 15
              (nth 15 (emitted (Part000.main 3 happy_host [])) (Sleep 0))
              (Contract.mk Part000.L2_MESSAGE_VERIFICATION_ADDRESS
                 (ViaProvider (Provider.mk "http://localhost:3051" 4000)))
              270 7 0 (Message.mk 3 "0xfrom" (Bytes [])) ["0x01"; "0x02"]%string
              (Returned true))
    as (i & providerA & providerB & messenger & data & overrides & tx & receipt &
        logProof & rootChainId & root & _ & Hlen & Hout & _).
  - vm_compute. reflexivity.
  - vm_compute. reflexivity.
  - split; assumption.
Defined.

(** X14. A run of the JavaScript flow ends in success only through the
    verification: exactly when its last event is a call of
    [proveL2MessageInclusionShared] that returned [true]. *)
Theorem run_succeeds_exactly_when_inclusion_is_verified
    (fuel : nat) (host : Host.t) (h : Trace) :
  let run := Part000.main fuel host h in
  outcome run = Fulfilled tt <->
  exists pre verifier chainId batchNumber index m proof,
    emitted run
    = pre ++ [Call (proveL2MessageInclusionShared verifier chainId batchNumber index m proof)
                   (Returned true)].
Proof.
  cbv zeta.
  destruct (Part000_main_verify_shape fuel host h)
    as [[Hnone Hfail] | (pre & providerA & providerB & messenger & data & overrides & tx &
                         receipt & logProof & rootChainId & root & chainId & r &
                         Ht & _ & _ & _ & _ & _ & _ & _ & _ & _ & _ & _ & Hout)].
  { split; [intros Ho; now destruct Hfail|].
    intros (pre & verifier & chainId & batchNumber & index & m & proof & Ht).
    rewrite Ht in Hnone. apply Forall_app in Hnone as [_ Hnone].
    apply Forall_inv in Hnone. discriminate Hnone. }
  rewrite Ht, Hout. split.
  - intros Ho. destruct r as [[|]|err]; try discriminate Ho.
    eexists (pre ++ [_; _]), _, _, _, _, _, _.
    rewrite <- app_assoc. reflexivity.
  - intros (pre' & verifier & chainId' & batchNumber & index & m & proof & Heq).
    change (pre ++ [?a; ?b; ?c]) with (pre ++ [a; b] ++ [c]) in Heq.
    rewrite app_assoc in Heq. apply app_inj_tail in Heq as [_ Heq].
    apply (f_equal verified) in Heq. cbn in Heq.
    injection Heq as _ _ _ _ _ _ ->. reflexivity.
Qed.

Lemma run_succeeds_exactly_when_inclusion_is_verified_witness :
  exists pre : Trace,
    List.length (emitted (Part000.main 3 happy_host [])) = S (List.length pre).
Proof.
  destruct (proj1 (run_succeeds_exactly_when_inclusion_is_verified 3 happy_host []))
    as (pre & verifier & chainId & batchNumber & index & m & proof & Ht).
  - vm_compute. reflexivity.
  - exists pre. rewrite Ht, length_app. cbn. lia.
Defined.

(** ** The message to the first layer *)

Lemma Part000_main_l1_shape fuel host h :
  l1_shape host (emitted (Part000.main fuel host h)).
Proof.
  apply (runs_start (Part000.main fuel) host h (fun _ t => l1_shape host t)).
  unfold Part000.main, Part000.requireEnv,
    Part000.deployGreetContract, Part000.newProvider, Part000.newWallet, getenv.
  repeat (runs_simpl;
          lazymatch goal with
          | |- runs (bind (await (sendToL1 _ _ _)) _) _ _ _ _ => fail
          | |- _ => runs_step quiet_leaf
          end).
  apply runs_bind, runs_await. intros r.
  assert (Hshape : forall post, Forall (fun e => l1_args e = None) post ->
            l1_shape host
              ([Call (deploy (Wallet.mk s (Provider.mk s1 (Ethers.defaultPollingInterval
                                                             (Host.ethers host))) a2)
                        (Host.Greet host) "gm") (Returned a3);
                Call (waitForDeployment a3) (Returned a4);
                Call (getAddress a3) (Returned a5);
                Call (sendMessage
                        (Contract.mk Part000.INTEROP_CENTER_ADDRESS
                           (ViaWallet (Wallet.mk s (Provider.mk s0
                              (Ethers.defaultPollingInterval (Host.ethers host))) a1)))
                        interop_recipient interop_payload []
                        (Overrides.mk 1000000 1000000000 0)) (Returned a6);
                Call (wait a6) (Returned (Some t));
                Call (getFeeData (Provider.mk s0 (Ethers.defaultPollingInterval
                                                    (Host.ethers host)))) (Returned a9);
                Call (estimateGas_sendToL1
                        (Contract.mk Part000.L1_MESSENGER_ADDRESS
                           (ViaWallet (Wallet.mk s (Provider.mk s0
                              (Ethers.defaultPollingInterval (Host.ethers host))) a8)))
                        (Ethers.toUtf8Bytes (Host.ethers host) "hello interop"))
                     (Returned a10);
                Call (sendToL1
                        (Contract.mk Part000.L1_MESSENGER_ADDRESS
                           (ViaWallet (Wallet.mk s (Provider.mk s0
                              (Ethers.defaultPollingInterval (Host.ethers host))) a8)))
                        (Ethers.toUtf8Bytes (Host.ethers host) "hello interop")
                        (Overrides.mk (a10 * 2) 1000000000 0)) r] ++ post)).
  { intros post Hpost. right. destruct a4.
    exists (Wallet.mk s (Provider.mk s0 (Ethers.defaultPollingInterval (Host.ethers host))) a1),
      (Wallet.mk s (Provider.mk s1 (Ethers.defaultPollingInterval (Host.ethers host))) a2),
      (Wallet.mk s (Provider.mk s0 (Ethers.defaultPollingInterval (Host.ethers host))) a8),
      a3, a5, a6, t, a9, a10, r, post.
    split; [reflexivity|]. repeat split; assumption. }
  destruct r as [tx|err]; runs_simpl.
  - eapply (runs_emits (fun e => l1_args e = None)); [quiet|].
    intros o t' Ht'. now apply Hshape.
  - now apply (Hshape []).
Qed.

(** X15. A run of the JavaScript flow that calls [sendToL1] has made
    exactly seven calls before, each of which returned: the deployment of
    the greeter with the greeting [gm] through the wallet of the second
    endpoint, the wait for it and the query of its address, the interop
    message with its fixed recipient and payload through the wallet of the
    first endpoint and the wait for its receipt, the fee data and the gas
    estimate. The message goes to the messenger contract through a wallet
    of the first endpoint, its bytes are those of the text [hello interop],
    its gas limit is twice the estimate the call before it returned for
    the same bytes, and its fees are fixed: the fee data read two calls
    earlier has no part in it. Nothing later in the run is another
    [sendToL1]. *)
Theorem l1_message_doubles_the_gas_estimate
    (fuel : nat) (host : Host.t) (h : Trace) (e : Event)
    (c : Contract.t) (data : list Byte.byte) (o : Overrides.t) :
  let run := Part000.main fuel host h in
  In e (emitted run) ->
  l1_args e = Some (c, data, o) ->
  exists walletA walletB messengerWallet greet greetAddress interopTx interopReceipt
         feeData gas post,
    emitted run =
      [Call (deploy walletB (Host.Greet host) "gm") (Returned greet);
       Call (waitForDeployment greet) (Returned tt);
       Call (getAddress greet) (Returned greetAddress);
       Call (sendMessage
               (Contract.mk Part000.INTEROP_CENTER_ADDRESS (ViaWallet walletA))
               interop_recipient interop_payload [] (Overrides.mk 1000000 1000000000 0))
            (Returned interopTx);
       Call (wait interopTx) (Returned (Some interopReceipt));
       Call (getFeeData (Wallet.provider messengerWallet)) (Returned feeData);
       Call (estimateGas_sendToL1 c data) (Returned gas);
       e] ++ post /\
    Forall (fun e' => l1_args e' = None) post /\
    c = Contract.mk Part000.L1_MESSENGER_ADDRESS (ViaWallet messengerWallet) /\
    data = Ethers.toUtf8Bytes (Host.ethers host) "hello interop" /\
    o = Overrides.mk (gas * 2) 1000000000 0 /\
    Host.process_env host "PRIVATE_KEY" = Some (Wallet.privateKey messengerWallet) /\
    Host.process_env host "L2_RPC_URL"
    = Some (Provider.rpcUrl (Wallet.provider messengerWallet)) /\
    Host.process_env host "L2_RPC_URL" = Some (Provider.rpcUrl (Wallet.provider walletA)) /\
    Host.process_env host "L2_RPC_URL_SECOND"
    = Some (Provider.rpcUrl (Wallet.provider walletB)).
Proof.
  cbv zeta. intros Hin Hargs.
  destruct (Part000_main_l1_shape fuel host h)
    as [Hnone | (walletA & walletB & messengerWallet & greet & greetAddress & interopTx &
                 interopReceipt & feeData & gas & r & post & Ht & Hpost & Hkey & Hurl &
                 HurlA & HurlB)].
  { rewrite Forall_forall in Hnone. rewrite (Hnone _ Hin) in Hargs. discriminate Hargs. }
  rewrite Ht in Hin |- *.
  assert (He : e = Call (sendToL1
                  (Contract.mk Part000.L1_MESSENGER_ADDRESS (ViaWallet messengerWallet))
                  (Ethers.toUtf8Bytes (Host.ethers host) "hello interop")
                  (Overrides.mk (gas * 2) 1000000000 0)) r).
  { cbn [app In] in Hin.
    repeat (destruct Hin as [<- | Hin]; [try discriminate Hargs|]); [reflexivity|].
    rewrite Forall_forall in Hpost. rewrite (Hpost _ Hin) in Hargs. discriminate Hargs. }
  subst e. cbn in Hargs. injection Hargs as <- <- <-.
  exists walletA, walletB, messengerWallet, greet, greetAddress, interopTx, interopReceipt,
    feeData, gas, post.
  repeat split; assumption || reflexivity.
Qed.

Lemma l1_message_doubles_the_gas_estimate_witness :
  exists (gas : Z) (post : Trace),
    Overrides.mk 42000 1000000000 0 = Overrides.mk (gas * 2) 1000000000 0 /\
    List.length (emitted (Part000.main 3 happy_host [])) = (8 + List.length post)%nat.
Proof.
  destruct (l1_message_doubles_the_gas_estimate 3 happy_host []
              (nth 7 (emitted (Part000.main 3 happy_host [])) (Sleep 0))
              (Contract.mk Part000.L1_MESSENGER_ADDRESS
                 (ViaWallet (Wallet.mk "0xkey" (Provider.mk "http://localhost:3050" 4000)
                               "0xaddr")))
              [] (Overrides.mk 42000 1000000000 0))
    as (walletA & walletB & messengerWallet & greet & greetAddress & interopTx &
        interopReceipt & feeData & gas & post & Ht & _ & _ & _ & Ho & _).
  - vm_compute. do 7 right. left. reflexivity.
  - vm_compute. reflexivity.
  - exists gas, post. split; [exact Ho|]. rewrite Ht. reflexivity.
Defined.

(** ** A wait that hands back no receipt *)

Ltac crash_end :=
  eexists;
  split; [reflexivity|];
  split; [repeat constructor|];
  split; reflexivity.

Ltac crash_leaf :=
  first
    [ solve [left; repeat constructor]
    | solve [right; eapply (ex_intro _ [_; _; _; _]); crash_end]
    | solve [right; eapply (ex_intro _ [_; _; _; _; _; _; _; _]); crash_end] ].

Lemma Part000_main_crash_shape fuel host h :
  crash_shape (outcome (Part000.main fuel host h)) (emitted (Part000.main fuel host h)).
Proof.
  apply (runs_start (Part000.main fuel) host h crash_shape).
  unfold Part000.main, Part000.requireEnv,
    Part000.deployGreetContract, Part000.newProvider, Part000.newWallet, getenv.
  runs_to_proof_wait crash_leaf.
  eapply (runs_emits (fun e => unmined e = false)); [quiet|].
  intros o t' Ht'. left. apply Forall_app. split; [repeat constructor | exact Ht'].
Qed.

(** X16. The JavaScript flow does not look at what its waits hand back
    before it reads the block number off it. So in every run, a wait for a
    transaction (the interop message or the message to the first layer)
    that hands back no receipt is the last event, and the run ends with the
    error of reading [blockNumber] of null. *)
Theorem unmined_transaction_crashes_the_run
    (fuel : nat) (host : Host.t) (h : Trace) (i : nat) (e : Event) (tx : Tx.t) :
  let run := Part000.main fuel host h in
  nth_error (emitted run) i = Some e ->
  receipt_of e = Some (tx, Returned None) ->
  S i = List.length (emitted run) /\
  outcome run = Rejected (mkError "Cannot read properties of null (reading 'blockNumber')").
Proof.
  cbv zeta. intros Hnth He.
  assert (Hu : unmined e = true) by (unfold unmined; now rewrite He).
  destruct (Part000_main_crash_shape fuel host h)
    as [Hnone | (pre & e0 & Ht & Hpre & He0 & Hout)].
  - apply nth_error_In in Hnth. rewrite Forall_forall in Hnone.
    rewrite (Hnone _ Hnth) in Hu. discriminate Hu.
  - rewrite Ht in *.
    destruct (nth_error_only unmined pre e0 [] i e Hpre (Forall_nil _) Hnth Hu) as [-> _].
    split; [rewrite length_app; cbn; lia | exact Hout].
Qed.

Lemma unmined_transaction_crashes_the_run_witness :
  let run := Part000.main 3 unmined_host [] in
  List.length (emitted run) = 5%nat /\
  outcome run = Rejected (mkError "Cannot read properties of null (reading 'blockNumber')").
Proof.
  cbv zeta.
  destruct (unmined_transaction_crashes_the_run 3 unmined_host [] 4
              (nth 4 (emitted (Part000.main 3 unmined_host [])) (Sleep 0))
              (Tx.mk "0xsend"))
    as [Hlen Hout]; try (vm_compute; reflexivity).
  split; [symmetry; exact Hlen | exact Hout].
Defined.

(** ** Which log is the bundle event *)

Lemma find_app_skip {A : Type} (f : A -> bool) l1 l2 :
  Forall (fun a => f a = false) l1 -> find f (l1 ++ l2) = find f l2.
Proof.
  induction 1 as [|a l1 Ha _ IH]; [reflexivity|]. cbn. now rewrite Ha.
Qed.

(** X17. The bundle event the TypeScript flow takes from a receipt is the
    first log, in the order of the receipt, that parses as an event named
    [InteropBundleSent]. Logs before it that the parser throws on, that it
    parses to null, or that are another event are passed over; the logs
    that come after it do not change the result. *)
Theorem bundle_event_is_the_first_match
    (lib : Ethers.t) (pre post : list Log.t) (log : Log.t) (d : LogDescription.t) :
  (forall l, In l pre ->
     match Ethers.parseLog lib l with
     | Returned (Some d') => LogDescription.name d' <> "InteropBundleSent"
     | Returned None => True
     | Thrown _ => True
     end) ->
  Ethers.parseLog lib log = Returned (Some d) ->
  LogDescription.name d = "InteropBundleSent" ->
  InteropTest.find_bundleEvent lib (Some (pre ++ log :: post)) = Some d.
Proof.
  intros Hpre Hlog Hname.
  unfold InteropTest.find_bundleEvent, InteropTest.parsed_logs.
  rewrite map_app, find_app_skip.
  - cbn [map find]. rewrite Hlog. cbn [InteropTest.is_bundle_sent].
    now rewrite Hname.
  - apply Forall_forall. intros parsed Hin.
    apply in_map_iff in Hin as (l & <- & Hl). specialize (Hpre l Hl).
    destruct (Ethers.parseLog lib l) as [[d'|]|err]; try reflexivity.
    cbn. now apply String.eqb_neq.
Qed.

Lemma bundle_event_is_the_first_match_witness :
  InteropTest.find_bundleEvent demo_library (Some ([other_log] ++ bundle_log :: [bundle_log]))
  = Some (LogDescription.mk "InteropBundleSent" demo_bundle).
Proof.
  apply bundle_event_is_the_first_match.
  - intros l [<- | []]. exact I.
  - reflexivity.
  - reflexivity.
Defined.
